(** * House-2: cross-view synchronisation of the housing dashboards

    A shallow embedding of the dashboard scripts.  The repository holds two
    dashboards: the rent-burden trend dashboard (the first [panel.js] and
    [js/charts.js], module [Trends]) and the Seattle housing map dashboard
    (the second [panel.js], the second [charts.js] and [js/map.js], module
    [Housing]).  Global variables, the page and the map and chart objects
    are fields of one state record per dashboard; a function of the scripts
    is a computation over that state that either completes or raises.

    Conventions of the embedding:
    - a JavaScript number is a finite double, given by its value, a
      rational ([Q]); the sums, products and quotients of the statistics
      are rounded to the nearest double ([binary64]); comparisons and
      [Math.round] are exact.  The programs divide only by a positive
      [length], so no NaN arises; results beyond the largest finite double,
      which the code turns into an infinity, are outside the embedding.
      The positions and sizes that place the tooltip are whole numbers of
      pixels, whose sums and differences are exact;
    - a property of a GeoJSON record that may be missing, [null] or
      [undefined] is an [option];
    - the elements the scripts fetch with [getElementById] exist in the page;
    - the chart library keeps, for a chart, the columns of the last
      [generate] or [load]; every [load] in these scripts passes all the
      columns of its chart. *)

From Stdlib Require Import QArith Qabs Qround Qpower Lqa Ascii String DecimalString.
From stdpp Require Import gmap strings list sorting fin_maps.

Local Open Scope string_scope.
Local Open Scope list_scope.
#[local] Set Warnings "-clear-no-such-hyp,-register-all".

(** ** Numbers *)

(** [Math.round]: the nearest integer, halves towards plus infinity. *)
Definition Math_round (x : Q) : Z := Qfloor (x + (1 # 2)).

(** Truthiness of a number ([v && ...]). *)
Definition truthy (v : Q) : bool := negb (Qeq_bool v 0).

(** [v > 0]. *)
Definition gt0 (v : Q) : bool := negb (Qle_bool v 0).

(** *** Arithmetic in double precision

    The nearest integer, a half going to the even one. *)
Definition round_half_even (x : Q) : Z :=
  let f := Qfloor x in
  match Qcompare (x - inject_Z f) (1 # 2) with
  | Lt => f
  | Gt => (f + 1)%Z
  | Eq => if Z.even f then f else (f + 1)%Z
  end.

(** The exponent of the last place of a positive number: the [e] with
    [2^52 <= q / 2^e < 2^53], and -1074 for the subnormal numbers. *)
Definition exponent (q : Q) : Z :=
  let e0 := (Z.log2 (Qnum q) - Z.log2 (Zpos (Qden q)) - 53)%Z in
  let e := if Qlt_le_dec (q / 2 ^ e0) (2 ^ 53) then e0 else (e0 + 1)%Z in
  Z.max e (-1074).

Definition round_positive (q : Q) : Q :=
  (inject_Z (round_half_even (q / 2 ^ exponent q)) * 2 ^ exponent q)%Q.

(** The double nearest to a rational, ties to the even significand (IEEE 754
    binary64, round to nearest even), within the finite range. *)
Definition binary64 (q : Q) : Q :=
  let q := Qred q in
  match Qcompare q 0 with
  | Eq => 0%Q
  | Gt => round_positive q
  | Lt => (- round_positive (Qred (- q)))%Q
  end.

(** [xs.reduce((a, b) => a + b, 0)]: from the left, each sum rounded. *)
Definition sum (xs : list Q) : Q :=
  fold_left (fun a b => binary64 (a + b)) xs 0%Q.

(** [xs.reduce((a, b) => a + b, 0) / xs.length]. *)
Definition average (xs : list Q) : Q :=
  binary64 (sum xs / inject_Z (Z.of_nat (length xs))).

(** A number that is an integer. *)
Definition whole (q : Q) : Prop := (inject_Z (Qfloor q) == q)%Q.

(** [Array.prototype.filter] on a column of optional numbers, for a predicate
    that is false on a missing value; what is kept are numbers. *)
Definition filter_numbers (p : Q -> bool) (col : list (option Q)) : list Q :=
  omap (fun v => match v with
                 | Some q => if p q then Some q else None
                 | None => None
                 end) col.

(** [String(n)] and [n + '...'] for an integer. *)
Definition String_of_Z (z : Z) : string := NilZero.string_of_int (Z.to_int z).
Definition String_of_nat (n : nat) : string := String_of_Z (Z.of_nat n).

(** ** Stable sorting

    [Array.prototype.sort] is stable; with a comparator that is a difference
    of numeric keys its result is the stable sort by that key.  [leb a b]
    says that [a] may stand before [b]. *)

Section Sort.
Context {A : Type} (leb : A -> A -> bool).

Fixpoint insert_sorted (x : A) (l : list A) : list A :=
  match l with
  | [] => [x]
  | y :: l' => if leb x y then x :: y :: l' else y :: insert_sorted x l'
  end.

Definition stable_sort (l : list A) : list A :=
  fold_right insert_sorted [] l.
End Sort.

(** ** Plain objects used as dictionaries

    [o[k]] on an object literal finds the object's own property, or one
    inherited from [Object.prototype] (a function, or the prototype itself
    for [__proto__]: truthy, and neither an array nor a legend entry). *)

Definition Object_prototype_keys : list string :=
  [ "constructor"; "__proto__"; "hasOwnProperty"; "isPrototypeOf";
    "propertyIsEnumerable"; "toLocaleString"; "toString"; "valueOf";
    "__defineGetter__"; "__defineSetter__"; "__lookupGetter__";
    "__lookupSetter__" ].

Definition inherited (k : string) : bool :=
  bool_decide (k ∈ Object_prototype_keys).

Inductive property (A : Type) : Type :=
  | Own (a : A)
  | Inherited
  | Undefined.
Arguments Own {A} a.
Arguments Inherited {A}.
Arguments Undefined {A}.

(** The own properties of an object, in creation order. *)
Definition object (A : Type) : Type := list (string * A).

Fixpoint own_property {A} (o : object A) (k : string) : option A :=
  match o with
  | [] => None
  | (k', a) :: o' => if String.eqb k' k then Some a else own_property o' k
  end.

Definition get_property {A} (o : object A) (k : string) : property A :=
  match own_property o k with
  | Some a => Own a
  | None => if inherited k then Inherited else Undefined
  end.

(** A property key that is an array index: the canonical decimal form of an
    integer below [2^32 - 1]. *)
Definition array_index (k : string) : option N :=
  match NilEmpty.uint_of_string k with
  | Some u =>
      let n := N.of_uint u in
      if String.eqb (String_of_Z (Z.of_N n)) k && (n <? 4294967295)%N
      then Some n else None
  | None => None
  end.

Definition is_array_index (k : string) : bool :=
  match array_index k with Some _ => true | None => false end.

Definition index_leb {A} (a b : string * A) : bool :=
  match array_index (fst a), array_index (fst b) with
  | Some i, Some j => (i <=? j)%N
  | _, _ => true
  end.

(** [Object.entries(o)]: array-index keys in ascending numeric order, then
    the other keys in creation order. *)
Definition Object_entries {A} (o : object A) : list (string * A) :=
  stable_sort index_leb (List.filter (fun e => is_array_index (fst e)) o)
  ++ List.filter (fun e => negb (is_array_index (fst e))) o.

(** ** The engine's built-ins that the scripts call

    Number formatting depends on the locale and on the engine, and
    [JSON.parse] is the engine's parser: the scripts are modelled over any
    such functions.

    [RENT_TIMESERIES] is JSON text, and [JSON.parse] gives whatever value
    the text denotes: [null], a boolean, a number, a string, an array or an
    object.  The dataset writes an array of [{year, rent}] records, the
    year a whole number and the rent a number or [null]: an element of a
    parsed array is [null] ([None]) or such a record, and an element that
    has no [rent] at all, such as a number, is a record without rent.
    Arrays with a year or a rent of another type are not in the dataset,
    and outside the embedding. *)

Record ts_entry : Type := { ts_year : Z; ts_rent : option Q }.

Inductive json : Type :=
  | JNull
  | JBool (b : bool)
  | JNumber (q : Q)
  | JString (s : string)
  | JArray (elements : list (option ts_entry))
  | JObject (members : object json).

Class Runtime : Type := {
  (** [n.toLocaleString()] for an integer *)
  toLocaleString : Z -> string;
  (** [x.toFixed(1)] *)
  toFixed1 : Q -> string;
  (** [JSON.parse]; [None] when it throws a [SyntaxError] *)
  JSON_parse : string -> option json;
  JSON_parse_empty_array : JSON_parse "[]" = Some (JArray [])
}.

(** ** Computations that may raise *)

Inductive exn : Type :=
  | TypeError (msg : string)
  | SyntaxError (msg : string)
  | StyleError (msg : string).

Inductive outcome (A : Type) : Type :=
  | Done (a : A)
  | Raise (e : exn).
Arguments Done {A} a.
Arguments Raise {A} e.

(** A computation over the state [S]: what was written before an exception
    stays written. *)
Definition M (S A : Type) : Type := S -> outcome A * S.

Section Monad.
Context {S : Type}.

Definition ret {A} (a : A) : M S A := fun s => (Done a, s).

Definition bind {A B} (c : M S A) (k : A -> M S B) : M S B :=
  fun s => match c s with
           | (Done a, s') => k a s'
           | (Raise e, s') => (Raise e, s')
           end.

Definition raise {A} (e : exn) : M S A := fun s => (Raise e, s).

Definition gets {A} (f : S -> A) : M S A := fun s => (Done (f s), s).

Definition modify (f : S -> S) : M S unit := fun s => (Done tt, f s).

(** [try { c } catch (err) { h err }] *)
Definition try_catch {A} (c : M S A) (h : exn -> M S A) : M S A :=
  fun s => match c s with
           | (Done a, s') => (Done a, s')
           | (Raise e, s') => h e s'
           end.

(** An outcome computed without the state. *)
Definition lift {A} (o : outcome A) : M S A := fun s => (o, s).

(** [xs.forEach(x => body x)] *)
Fixpoint forEach {A} (xs : list A) (body : A -> M S unit) : M S unit :=
  match xs with
  | [] => ret tt
  | x :: xs' => bind (body x) (fun _ => forEach xs' body)
  end.
End Monad.

Declare Scope js_scope.
Delimit Scope js_scope with js.
Notation "x <- c ;; k" := (bind c (fun x => k))
  (at level 100, c at next level, right associativity) : js_scope.
Notation "c ;; k" := (bind c (fun _ => k))
  (at level 100, right associativity) : js_scope.

(** ** Charts *)

Inductive cell : Type :=
  | CStr (s : string)
  | CNum (q : Q).

(** A column [['id', v1, v2, ...]] and the data of a chart. *)
Definition column : Type := string * list cell.
Definition chart : Type := list column.

Definition c3_generate (columns : list column) : chart := columns.
Definition c3_load (columns : list column) (c : chart) : chart := columns.

Definition nums (qs : list Q) : list cell := map CNum qs.
Definition ints (zs : list Z) : list cell := map (fun z => CNum (inject_Z z)) zs.
Definition strs (ss : list string) : list cell := map CStr ss.

(** An instance of the built-ins used to evaluate the scripts on concrete
    inputs: the en-US grouping of digits, rounding to one decimal on exact
    rationals, and a parser that accepts a few sample texts only. *)

Fixpoint group_digits (rev_digits : list Ascii.ascii) (n : nat) : list Ascii.ascii :=
  match rev_digits with
  | [] => []
  | d :: ds =>
      match n, ds with
      | 2%nat, _ :: _ => d :: "," %char :: group_digits ds 0
      | _, _ => d :: group_digits ds (Datatypes.S n)
      end
  end.

Definition toLocaleString_enUS (z : Z) : string :=
  let digits := list_ascii_of_string (String_of_Z (Z.abs z)) in
  let grouped := string_of_list_ascii (rev (group_digits (rev digits) 0)) in
  if (z <? 0)%Z then "-" +:+ grouped else grouped.

Definition toFixed1_exact (x : Q) : string :=
  let n := Qfloor (Qabs x * 10 + (1 # 2)) in
  let body := String_of_Z (n / 10) +:+ "." +:+ String_of_Z (n mod 10) in
  if negb (Qle_bool 0 x) then "-" +:+ body else body.

Definition JSON_parse_samples (s : string) : option json :=
  if String.eqb s "[]" then Some (JArray [])
  else if String.eqb s "[null]" then Some (JArray [None])
  else if String.eqb s "null" then Some JNull
  else if String.eqb s "5" then Some (JNumber 5)
  else if String.eqb s "{}" then Some (JObject [])
  else None.

#[local] Instance enUS : Runtime := {
  toLocaleString := toLocaleString_enUS;
  toFixed1 := toFixed1_exact;
  JSON_parse := JSON_parse_samples;
  JSON_parse_empty_array := eq_refl
}.

(** ** Fetched resources

    The result of [fetch(url).then(r => r.json())]: the parsed document, or a
    rejection when the resource cannot be fetched or its text is not JSON. *)

Inductive fetched (A : Type) : Type :=
  | Fulfilled (a : A)
  | Rejected.
Arguments Fulfilled {A} a.
Arguments Rejected {A}.

(** * The Seattle housing map dashboard *)

Module Housing.

(** ** Data *)

(** The properties of a tract of [seattle_housing.geojson], as the scripts
    read them. *)
Record tract : Type := {
  GEOID : option string;
  NAME : option string;
  NEIGHBORHOOD : option string;
  MEDIAN_RENT : option Q;
  RENT_BURDEN_PCT : option Q;
  (** the time series of the tract, serialized as JSON text *)
  RENT_TIMESERIES : option string;
  GRAPI_LESS_15 : option Q;
  GRAPI_15_20 : option Q;
  GRAPI_20_25 : option Q;
  GRAPI_25_30 : option Q;
  GRAPI_30_35 : option Q;
  GRAPI_35_PLUS : option Q
}.

(** A feature collection, by the properties of its features. *)
Definition geojson : Type := list tract.

(** What [updateBarChart] receives: [{ neighborhood, rent }]. *)
Record bar_datum : Type := { neighborhood : option string; rent : Q }.

(** A bar of the ranked chart: [{ name, rent }] with the rounded mean. *)
Record bar : Type := { name : string; mean_rent : Z }.

Record legend_item : Type := { color : string; label : string }.
Record legend_config : Type := { title : string; items : list legend_item }.

(** A layer of the map style: [type], [source], the layout property
    [visibility] where it was given, and the paint property
    [line-opacity] of a line layer. *)
Record layer : Type := {
  layer_type : string;
  layer_source : string;
  visibility : option string;
  line_opacity : option Q
}.

Record view : Type := { center : Q * Q; zoom : Q }.

Inductive callback : Type := UpdateFromMap.

Record state : Type := {
  (** [let activeLayer] of panel.js *)
  activeLayer : string;
  (** [let hoveredTractId] of map.js *)
  hoveredTractId : option string;
  (** the chart references of charts.js, [null] before [initCharts] *)
  barChart : option chart;
  lineChart : option chart;
  donutChart : option chart;
  (** [textContent] of the elements, by id *)
  text : gmap string string;
  (** the rows of [#legend-items] *)
  legend_items : list legend_item;
  (** [data-layer] of the toggle buttons that carry the class [active] *)
  active_buttons : list string;
  (** [style.display] of [#tooltip] *)
  tooltip_display : string;
  (** the style of the map: its sources and its layers, by id *)
  sources : gmap string geojson;
  layers : gmap string layer;
  (** [map.queryRenderedFeatures({ layers: [id] })] in the current viewport *)
  rendered : string -> list tract;
  (** where [flyTo] was last sent *)
  camera : view;
  (** the registered handlers: event and target *)
  listeners : list (string * string);
  (** the callbacks given to [setTimeout], with their delay *)
  timers : list (callback * nat);
  (** what [console.error] and [console.warn] printed *)
  console : list string
}.

Definition set_activeLayer (v : string) (st : state) : state :=
  {| activeLayer := v; hoveredTractId := hoveredTractId st;
     barChart := barChart st; lineChart := lineChart st;
     donutChart := donutChart st; text := text st;
     legend_items := legend_items st; active_buttons := active_buttons st;
     tooltip_display := tooltip_display st; sources := sources st;
     layers := layers st; rendered := rendered st; camera := camera st;
     listeners := listeners st; timers := timers st;
     console := console st |}.
Definition set_hoveredTractId (v : option string) (st : state) : state :=
  {| activeLayer := activeLayer st; hoveredTractId := v;
     barChart := barChart st; lineChart := lineChart st;
     donutChart := donutChart st; text := text st;
     legend_items := legend_items st; active_buttons := active_buttons st;
     tooltip_display := tooltip_display st; sources := sources st;
     layers := layers st; rendered := rendered st; camera := camera st;
     listeners := listeners st; timers := timers st;
     console := console st |}.
Definition set_barChart (v : option chart) (st : state) : state :=
  {| activeLayer := activeLayer st; hoveredTractId := hoveredTractId st;
     barChart := v; lineChart := lineChart st; donutChart := donutChart st;
     text := text st; legend_items := legend_items st;
     active_buttons := active_buttons st;
     tooltip_display := tooltip_display st; sources := sources st;
     layers := layers st; rendered := rendered st; camera := camera st;
     listeners := listeners st; timers := timers st;
     console := console st |}.
Definition set_lineChart (v : option chart) (st : state) : state :=
  {| activeLayer := activeLayer st; hoveredTractId := hoveredTractId st;
     barChart := barChart st; lineChart := v; donutChart := donutChart st;
     text := text st; legend_items := legend_items st;
     active_buttons := active_buttons st;
     tooltip_display := tooltip_display st; sources := sources st;
     layers := layers st; rendered := rendered st; camera := camera st;
     listeners := listeners st; timers := timers st;
     console := console st |}.
Definition set_donutChart (v : option chart) (st : state) : state :=
  {| activeLayer := activeLayer st; hoveredTractId := hoveredTractId st;
     barChart := barChart st; lineChart := lineChart st; donutChart := v;
     text := text st; legend_items := legend_items st;
     active_buttons := active_buttons st;
     tooltip_display := tooltip_display st; sources := sources st;
     layers := layers st; rendered := rendered st; camera := camera st;
     listeners := listeners st; timers := timers st;
     console := console st |}.
Definition set_text (v : gmap string string) (st : state) : state :=
  {| activeLayer := activeLayer st; hoveredTractId := hoveredTractId st;
     barChart := barChart st; lineChart := lineChart st;
     donutChart := donutChart st; text := v;
     legend_items := legend_items st; active_buttons := active_buttons st;
     tooltip_display := tooltip_display st; sources := sources st;
     layers := layers st; rendered := rendered st; camera := camera st;
     listeners := listeners st; timers := timers st;
     console := console st |}.
Definition set_legend_items (v : list legend_item) (st : state) : state :=
  {| activeLayer := activeLayer st; hoveredTractId := hoveredTractId st;
     barChart := barChart st; lineChart := lineChart st;
     donutChart := donutChart st; text := text st; legend_items := v;
     active_buttons := active_buttons st;
     tooltip_display := tooltip_display st; sources := sources st;
     layers := layers st; rendered := rendered st; camera := camera st;
     listeners := listeners st; timers := timers st;
     console := console st |}.
Definition set_active_buttons (v : list string) (st : state) : state :=
  {| activeLayer := activeLayer st; hoveredTractId := hoveredTractId st;
     barChart := barChart st; lineChart := lineChart st;
     donutChart := donutChart st; text := text st;
     legend_items := legend_items st; active_buttons := v;
     tooltip_display := tooltip_display st; sources := sources st;
     layers := layers st; rendered := rendered st; camera := camera st;
     listeners := listeners st; timers := timers st;
     console := console st |}.
Definition set_tooltip_display (v : string) (st : state) : state :=
  {| activeLayer := activeLayer st; hoveredTractId := hoveredTractId st;
     barChart := barChart st; lineChart := lineChart st;
     donutChart := donutChart st; text := text st;
     legend_items := legend_items st; active_buttons := active_buttons st;
     tooltip_display := v; sources := sources st; layers := layers st;
     rendered := rendered st; camera := camera st;
     listeners := listeners st; timers := timers st;
     console := console st |}.
Definition set_sources (v : gmap string geojson) (st : state) : state :=
  {| activeLayer := activeLayer st; hoveredTractId := hoveredTractId st;
     barChart := barChart st; lineChart := lineChart st;
     donutChart := donutChart st; text := text st;
     legend_items := legend_items st; active_buttons := active_buttons st;
     tooltip_display := tooltip_display st; sources := v;
     layers := layers st; rendered := rendered st; camera := camera st;
     listeners := listeners st; timers := timers st;
     console := console st |}.
Definition set_layers (v : gmap string layer) (st : state) : state :=
  {| activeLayer := activeLayer st; hoveredTractId := hoveredTractId st;
     barChart := barChart st; lineChart := lineChart st;
     donutChart := donutChart st; text := text st;
     legend_items := legend_items st; active_buttons := active_buttons st;
     tooltip_display := tooltip_display st; sources := sources st;
     layers := v; rendered := rendered st; camera := camera st;
     listeners := listeners st; timers := timers st;
     console := console st |}.
Definition set_camera (v : view) (st : state) : state :=
  {| activeLayer := activeLayer st; hoveredTractId := hoveredTractId st;
     barChart := barChart st; lineChart := lineChart st;
     donutChart := donutChart st; text := text st;
     legend_items := legend_items st; active_buttons := active_buttons st;
     tooltip_display := tooltip_display st; sources := sources st;
     layers := layers st; rendered := rendered st; camera := v;
     listeners := listeners st; timers := timers st;
     console := console st |}.
Definition set_listeners (v : list (string * string)) (st : state) : state :=
  {| activeLayer := activeLayer st; hoveredTractId := hoveredTractId st;
     barChart := barChart st; lineChart := lineChart st;
     donutChart := donutChart st; text := text st;
     legend_items := legend_items st; active_buttons := active_buttons st;
     tooltip_display := tooltip_display st; sources := sources st;
     layers := layers st; rendered := rendered st; camera := camera st;
     listeners := v; timers := timers st; console := console st |}.
Definition set_timers (v : list (callback * nat)) (st : state) : state :=
  {| activeLayer := activeLayer st; hoveredTractId := hoveredTractId st;
     barChart := barChart st; lineChart := lineChart st;
     donutChart := donutChart st; text := text st;
     legend_items := legend_items st; active_buttons := active_buttons st;
     tooltip_display := tooltip_display st; sources := sources st;
     layers := layers st; rendered := rendered st; camera := camera st;
     listeners := listeners st; timers := v; console := console st |}.
Definition set_console (v : list string) (st : state) : state :=
  {| activeLayer := activeLayer st; hoveredTractId := hoveredTractId st;
     barChart := barChart st; lineChart := lineChart st;
     donutChart := donutChart st; text := text st;
     legend_items := legend_items st; active_buttons := active_buttons st;
     tooltip_display := tooltip_display st; sources := sources st;
     layers := layers st; rendered := rendered st; camera := camera st;
     listeners := listeners st; timers := timers st; console := v |}.

(** The map was panned or zoomed: other features are rendered. *)
Definition set_rendered (v : string -> list tract) (st : state) : state :=
  {| activeLayer := activeLayer st; hoveredTractId := hoveredTractId st;
     barChart := barChart st; lineChart := lineChart st;
     donutChart := donutChart st; text := text st;
     legend_items := legend_items st; active_buttons := active_buttons st;
     tooltip_display := tooltip_display st; sources := sources st;
     layers := layers st; rendered := v; camera := camera st;
     listeners := listeners st; timers := timers st; console := console st |}.

Section Scripts.
Context `{Runtime}.
Local Open Scope js_scope.

(** ** The page and the console *)

(** [document.getElementById(id).textContent = s] *)
Definition setText (id s : string) : M state unit :=
  modify (fun st => set_text (<[id := s]> (text st)) st).

Definition console_error (msg : string) : M state unit :=
  modify (fun st => set_console (console st ++ [msg]) st).

Definition console_warn (msg : string) : M state unit :=
  modify (fun st => set_console (console st ++ [msg]) st).

(** [setTimeout(cb, ms)] *)
Definition setTimeout (cb : callback) (ms : nat) : M state unit :=
  modify (fun st => set_timers (timers st ++ [(cb, ms)]) st).

(** [target.on(event, ...)] and [addEventListener(event, ...)] *)
Definition on (event target : string) : M state unit :=
  modify (fun st => set_listeners (listeners st ++ [(event, target)]) st).

(** [s || dflt] for a string that may be missing. *)
Definition or_string (s : option string) (dflt : string) : string :=
  match s with
  | Some v => if String.eqb v "" then dflt else v
  | None => dflt
  end.

(** [v || 0] for a number that may be missing. *)
Definition or_zero (v : option Q) : Q :=
  match v with
  | Some q => if truthy q then q else 0%Q
  | None => 0%Q
  end.

(** ** charts.js *)

Definition bar_placeholder : list column :=
  [ ("x", []); ("Median Rent", []) ].

Definition line_placeholder : list column :=
  [ ("x", []); ("Rent per Unit", []) ].

Definition donut_columns (g1 g2 g3 g4 g5 g6 : Q) : list column :=
  [ ("< 15%", [CNum g1]); ("15–20%", [CNum g2]); ("20–25%", [CNum g3]);
    ("25–30%", [CNum g4]); ("30–35%", [CNum g5]); ("35%+", [CNum g6]) ].

Definition donut_placeholder : list column :=
  donut_columns 0 0 0 0 0 0.

Definition initCharts : M state unit :=
  modify (set_barChart (Some (c3_generate bar_placeholder))) ;;
  modify (set_lineChart (Some (c3_generate line_placeholder))) ;;
  modify (set_donutChart (Some (c3_generate donut_placeholder))).

(** The body of [data.forEach] in [updateBarChart]:
    [n = d.neighborhood || 'Unknown'; if (!grouped[n]) grouped[n] = [];
     grouped[n].push(d.rent)]. *)
Definition group_key (d : bar_datum) : string :=
  or_string (neighborhood d) "Unknown".

Fixpoint push_to {A} (o : object (list A)) (k : string) (a : A) : object (list A) :=
  match o with
  | [] => []
  | (k', xs) :: o' =>
      if String.eqb k' k then (k', xs ++ [a]) :: o' else (k', xs) :: push_to o' k a
  end.

Definition group_step (grouped : object (list Q)) (d : bar_datum)
  : outcome (object (list Q)) :=
  let n := group_key d in
  match get_property grouped n with
  | Own _ => Done (push_to grouped n (rent d))
  | Undefined => Done (grouped ++ [(n, [rent d])])
  | Inherited => Raise (TypeError "grouped[n].push is not a function")
  end.

Fixpoint group_rents (data : list bar_datum) (grouped : object (list Q))
  : outcome (object (list Q)) :=
  match data with
  | [] => Done grouped
  | d :: data' =>
      match group_step grouped d with
      | Done grouped' => group_rents data' grouped'
      | Raise e => Raise e
      end
  end.

(** [sort((a, b) => b.rent - a.rent)] *)
Definition by_rent_desc (a b : bar) : bool := (mean_rent b <=? mean_rent a)%Z.

(** [Object.entries(grouped).map(...).filter(d => d.rent > 0)
     .sort((a, b) => b.rent - a.rent).slice(0, 8)] *)
Definition top_neighborhoods (grouped : object (list Q)) : list bar :=
  take 8
    (stable_sort by_rent_desc
       (List.filter (fun d => (0 <? mean_rent d)%Z)
          (map (fun e => {| name := fst e;
                            mean_rent := Math_round (average (snd e)) |})
             (Object_entries grouped)))).

Definition bar_columns (sorted : list bar) : list column :=
  [ ("x", strs (map name sorted));
    ("Median Rent", ints (map mean_rent sorted)) ].

Definition updateBarChart (data : list bar_datum) : M state unit :=
  chart <- gets barChart ;;
  match chart, data with
  | None, _ | _, [] => ret tt
  | Some c, _ :: _ =>
      grouped <- lift (group_rents data []) ;;
      let sorted := top_neighborhoods grouped in
      match sorted with
      | [] => ret tt
      | _ :: _ => modify (set_barChart (Some (c3_load (bar_columns sorted) c)))
      end
  end.

(** [d.rent && d.rent > 0] *)
Definition valid_entry (d : ts_entry) : bool :=
  match ts_rent d with
  | Some r => truthy r && gt0 r
  | None => false
  end.

(** [sort((a, b) => a.year - b.year)] *)
Definition by_year (a b : ts_entry) : bool := (ts_year a <=? ts_year b)%Z.

Definition line_columns (valid : list ts_entry) : list column :=
  [ ("x", strs (map (fun d => String_of_Z (ts_year d)) valid));
    ("Rent per Unit", nums (map (fun d => default 0%Q (ts_rent d)) valid)) ].

(** [!v] is false: the value is truthy. *)
Definition truthy_value (v : json) : bool :=
  match v with
  | JNull => false
  | JBool b => b
  | JNumber q => truthy q
  | JString s => negb (String.eqb s "")
  | JArray _ | JObject _ => true
  end.

(** [v.length === 0], for a truthy value: an array has its length, a
    string that is truthy is not empty, an object has the [length] that
    its text gave it, and a number or a boolean has none. *)
Definition length_is_zero (v : json) : bool :=
  match v with
  | JArray [] => true
  | JObject members =>
      match own_property members "length" with
      | Some (JNumber q) => Qeq_bool q 0
      | _ => false
      end
  | _ => false
  end.

(** [timeseries.filter(d => d.rent && d.rent > 0)] on the elements of an
    array: reading [d.rent] of [null] raises. *)
Fixpoint filter_valid (elements : list (option ts_entry)) : outcome (list ts_entry) :=
  match elements with
  | [] => Done []
  | None :: _ => Raise (TypeError "Cannot read properties of null (reading 'rent')")
  | Some d :: elements' =>
      match filter_valid elements' with
      | Done kept => Done (if valid_entry d then d :: kept else kept)
      | Raise e => Raise e
      end
  end.

(** No value of JSON has a method [filter], except an array. *)
Definition updateLineChart (tractName : string) (timeseries : json)
  : M state unit :=
  chart <- gets lineChart ;;
  match chart with
  | None => ret tt
  | Some c =>
      if negb (truthy_value timeseries) || length_is_zero timeseries then ret tt
      else
        match timeseries with
        | JArray elements =>
            kept <- lift (filter_valid elements) ;;
            let valid := stable_sort by_year kept in
            match valid with
            | [] => ret tt
            | _ :: _ =>
                setText "chart2-title" (tractName +:+ " · Rent Over Time") ;;
                modify (set_lineChart (Some (c3_load (line_columns valid) c)))
            end
        | _ => raise (TypeError "timeseries.filter is not a function")
        end
  end.

Definition updateDonutChart (tractName : string) (props : tract) : M state unit :=
  chart <- gets donutChart ;;
  match chart with
  | None => ret tt
  | Some c =>
      let g1 := or_zero (GRAPI_LESS_15 props) in
      let g2 := or_zero (GRAPI_15_20 props) in
      let g3 := or_zero (GRAPI_20_25 props) in
      let g4 := or_zero (GRAPI_25_30 props) in
      let g5 := or_zero (GRAPI_30_35 props) in
      let g6 := or_zero (GRAPI_35_PLUS props) in
      setText "chart3-title" (tractName +:+ " · Rent Burden") ;;
      modify (set_donutChart (Some (c3_load (donut_columns g1 g2 g3 g4 g5 g6) c)))
  end.

Definition resetCharts : M state unit :=
  line <- gets lineChart ;;
  match line with
  | Some c =>
      setText "chart2-title" "Click a tract · Rent Over Time" ;;
      modify (set_lineChart (Some (c3_load line_placeholder c)))
  | None => ret tt
  end ;;
  donut <- gets donutChart ;;
  match donut with
  | Some c =>
      setText "chart3-title" "Click a tract · Rent Burden Breakdown" ;;
      modify (set_donutChart (Some (c3_load donut_placeholder c)))
  | None => ret tt
  end.


(** ** panel.js: legend, stat counter, tooltip *)

Definition LEGEND_CONFIG : object legend_config :=
  [ ("rent",
     {| title := "Median Rent / Unit";
        items := [ {| color := "#1a3a5c"; label := "< $1,000" |};
                   {| color := "#1f6b8a"; label := "$1,000 – $1,500" |};
                   {| color := "#2a9d8f"; label := "$1,500 – $2,000" |};
                   {| color := "#e9c46a"; label := "$2,000 – $2,500" |};
                   {| color := "#e76f51"; label := "> $2,500" |} ] |});
    ("burden",
     {| title := "Renters Paying 35%+ of Income";
        items := [ {| color := "#2d6a4f"; label := "< 20%" |};
                   {| color := "#74c69d"; label := "20 – 35%" |};
                   {| color := "#ffd166"; label := "35 – 50%" |};
                   {| color := "#ef6351"; label := "50 – 65%" |};
                   {| color := "#9b2226"; label := "> 65%" |} ] |});
    ("mha",
     {| title := "MHA Zone Type";
        items := [ {| color := "#4361ee"; label := "M  — Base Requirement" |};
                   {| color := "#7209b7"; label := "M1 — Increased Requirement" |};
                   {| color := "#f72585"; label := "M2 — Highest Requirement" |};
                   {| color := "#555555"; label := "No MHA Requirement" |} ] |}) ].

(** An inherited property is truthy and has neither [title] nor [items]:
    the title is set from [undefined], the rows are cleared, and
    [config.items.forEach] raises. *)
Definition renderLegend (layer : string) : M state unit :=
  match get_property LEGEND_CONFIG layer with
  | Undefined => ret tt
  | Own config =>
      setText "legend-title" (title config) ;;
      modify (set_legend_items []) ;;
      forEach (items config) (fun item =>
        modify (fun st => set_legend_items (legend_items st ++ [item]) st))
  | Inherited =>
      setText "legend-title" "" ;;
      modify (set_legend_items []) ;;
      raise (TypeError "Cannot read properties of undefined (reading 'forEach')")
  end.

Definition updateStat (data : list tract) : M state unit :=
  match data with
  | [] => setText "stat-value" "—"
  | _ :: _ =>
      layer <- gets activeLayer ;;
      if String.eqb layer "rent" then
        let rents :=
          filter_numbers (fun v => truthy v && gt0 v) (map MEDIAN_RENT data) in
        match rents with
        | [] => setText "stat-value" "—"
        | _ :: _ =>
            let avg := Math_round (average rents) in
            setText "stat-label" "Avg. Median Rent · Visible Tracts" ;;
            setText "stat-value" ("$" +:+ toLocaleString avg) ;;
            setText "stat-sub" (String_of_nat (length rents) +:+ " tracts in view")
        end
      else if String.eqb layer "burden" then
        let burdens := filter_numbers (fun _ => true) (map RENT_BURDEN_PCT data) in
        match burdens with
        | [] => setText "stat-value" "—"
        | _ :: _ =>
            let avg := toFixed1 (average burdens) in
            setText "stat-label" "Avg. Rent Burden · Visible Tracts" ;;
            setText "stat-value" (avg +:+ "%") ;;
            setText "stat-sub" "Renters paying 35%+ of income"
        end
      else if String.eqb layer "mha" then
        setText "stat-label" "MHA Zones · Visible Area" ;;
        setText "stat-value" "Policy" ;;
        setText "stat-sub" "Mandatory Housing Affordability overlay"
      else ret tt
  end.

Definition hideTooltip : M state unit :=
  modify (set_tooltip_display "none").

(** ** map.js *)

(** The map library reports an error when a layer that is not in the style
    is styled or read, and when an id is added twice. *)
Definition getLayer (layerId : string) : M state (option layer) :=
  gets (fun st => layers st !! layerId).

Definition setLayoutProperty_visibility (layerId value : string) : M state unit :=
  l <- getLayer layerId ;;
  match l with
  | Some l =>
      modify (fun st =>
        set_layers (<[layerId := {| layer_type := layer_type l;
                                    layer_source := layer_source l;
                                    visibility := Some value;
                                    line_opacity := line_opacity l |}]> (layers st)) st)
  | None => raise (StyleError "The layer does not exist in the map's style")
  end.

Definition getLayoutProperty_visibility (layerId : string) : M state (option string) :=
  l <- getLayer layerId ;;
  match l with
  | Some l => ret (visibility l)
  | None => raise (StyleError "The layer does not exist in the map's style")
  end.

Definition setPaintProperty_line_opacity (layerId : string) (value : Q) : M state unit :=
  l <- getLayer layerId ;;
  match l with
  | Some l =>
      modify (fun st =>
        set_layers (<[layerId := {| layer_type := layer_type l;
                                    layer_source := layer_source l;
                                    visibility := visibility l;
                                    line_opacity := Some value |}]> (layers st)) st)
  | None => raise (StyleError "The layer does not exist in the map's style")
  end.

Definition addSource (id : string) (data : geojson) : M state unit :=
  st <- gets (fun st => st) ;;
  match sources st !! id with
  | Some _ => raise (StyleError "There is already a source with this ID")
  | None => modify (set_sources (<[id := data]> (sources st)))
  end.

Definition addLayer (id : string) (l : layer) : M state unit :=
  st <- gets (fun st => st) ;;
  match layers st !! id with
  | Some _ => raise (StyleError "Layer with this id already exists")
  | None => modify (set_layers (<[id := l]> (layers st)))
  end.

Definition queryRenderedFeatures (layerId : string) : M state (list tract) :=
  gets (fun st => rendered st layerId).

Definition flyTo (v : view) : M state unit := modify (set_camera v).

Definition setLayerVisibility (layerId visibility : string) : M state unit :=
  l <- getLayer layerId ;;
  match l with
  | Some _ => setLayoutProperty_visibility layerId visibility
  | None => ret tt
  end.

Definition isLayerVisible (layerId : string) : M state bool :=
  l <- getLayer layerId ;;
  match l with
  | None => ret false
  | Some _ =>
      v <- getLayoutProperty_visibility layerId ;;
      ret (bool_decide (v = Some "visible"))
  end.

(** The loop of [updateFromMap] that keeps the first feature of each
    [GEOID]: [if (id && !seen.has(id)) { seen.add(id); visible.push(...) }]. *)
Fixpoint dedupe (features : list tract) (seen : gset string) : list tract :=
  match features with
  | [] => []
  | p :: features' =>
      match GEOID p with
      | Some id =>
          if negb (String.eqb id "") && negb (bool_decide (id ∈ seen))
          then p :: dedupe features' ({[id]} ∪ seen)
          else dedupe features' seen
      | None => dedupe features' seen
      end
  end.

(** [visible.filter(p => p.MEDIAN_RENT > 0).map(p => ({ neighborhood:
     p.NEIGHBORHOOD || 'Unknown', rent: p.MEDIAN_RENT }))] *)
Definition barData (visible : list tract) : list bar_datum :=
  omap (fun p =>
          match MEDIAN_RENT p with
          | Some v =>
              if gt0 v
              then Some {| neighborhood := Some (or_string (NEIGHBORHOOD p) "Unknown");
                           rent := v |}
              else None
          | None => None
          end) visible.

Definition updateFromMap : M state unit :=
  rentVisible <- isLayerVisible "rent-fill" ;;
  burdenVisible <- isLayerVisible "burden-fill" ;;
  let visibleLayer := None in
  let visibleLayer := if rentVisible then Some "rent-fill" else visibleLayer in
  let visibleLayer := if burdenVisible then Some "burden-fill" else visibleLayer in
  match visibleLayer with
  | None => updateStat []
  | Some visibleLayer =>
      features <- queryRenderedFeatures visibleLayer ;;
      let visible := dedupe features ∅ in
      updateStat visible ;;
      updateBarChart (barData visible)
  end.

Definition run_callback (cb : callback) : M state unit :=
  match cb with UpdateFromMap => updateFromMap end.

Definition switchMapLayer (layer : string) : M state unit :=
  setLayerVisibility "rent-fill" "none" ;;
  setLayerVisibility "burden-fill" "none" ;;
  setLayerVisibility "mha-fill" "none" ;;
  setLayerVisibility "mha-line" "none" ;;
  (if String.eqb layer "rent" then
     setLayerVisibility "rent-fill" "visible"
   else if String.eqb layer "burden" then
     setLayerVisibility "burden-fill" "visible"
   else if String.eqb layer "mha" then
     setLayerVisibility "mha-fill" "visible" ;;
     setLayerVisibility "mha-line" "visible"
   else ret tt) ;;
  setTimeout UpdateFromMap 300.

Definition resetMap : M state unit :=
  flyTo {| center := ((-122335 # 1000)%Q, (47608 # 1000)%Q); zoom := 11 |} ;;
  switchMapLayer "rent" ;;
  setPaintProperty_line_opacity "housing-hover" 0 ;;
  modify (set_hoveredTractId None).

(** The handler of a click on a tract of [rent-fill] or [burden-fill];
    [features] is [e.features]. *)
Definition tract_click (features : list tract) : M state unit :=
  match features with
  | [] => ret tt
  | props :: _ =>
      let name := or_string (NAME props) "Selected Tract" in
      timeseries <-
        try_catch
          (match JSON_parse (or_string (RENT_TIMESERIES props) "[]") with
           | Some parsed => ret parsed
           | None => raise (SyntaxError "JSON.parse")
           end)
          (fun err => console_warn "Could not parse RENT_TIMESERIES:" ;; ret (JArray [])) ;;
      updateLineChart name timeseries ;;
      updateDonutChart name props
  end.

(** ** panel.js: the controls *)

(** The click handler that [initLayerToggle] gives each toggle button;
    [layer] is [this.dataset.layer].  [switchMapLayer] is a function of
    map.js, so the [typeof] test around its call holds. *)
Definition toggle_click (layer : string) : M state unit :=
  active <- gets activeLayer ;;
  if String.eqb layer active then ret tt
  else
    modify (set_active_buttons []) ;;
    modify (fun st => set_active_buttons (active_buttons st ++ [layer]) st) ;;
    modify (set_activeLayer layer) ;;
    renderLegend layer ;;
    switchMapLayer layer.

Definition initLayerToggle : M state unit :=
  on "click" ".toggle-btn".

(** The click handler that [initResetButton] gives [#reset-btn]. *)
Definition reset_click : M state unit :=
  modify (set_activeLayer "rent") ;;
  modify (set_active_buttons []) ;;
  modify (fun st => set_active_buttons (active_buttons st ++ ["rent"]) st) ;;
  renderLegend "rent" ;;
  setText "stat-label" "Avg. Median Rent · Visible Tracts" ;;
  setText "stat-value" "—" ;;
  setText "stat-sub" "Hover a tract for details" ;;
  resetCharts ;;
  resetMap ;;
  hideTooltip.

Definition initResetButton : M state unit :=
  on "click" "#reset-btn".

Definition initPanel : M state unit :=
  renderLegend "rent" ;;
  initLayerToggle ;;
  initResetButton.

(** ** map.js: loading *)

Definition setupHoverEvents : M state unit :=
  forEach ["rent-fill"; "burden-fill"] (fun layerId =>
    on "mousemove" layerId ;;
    on "mouseleave" layerId) ;;
  on "mousemove" "mha-fill" ;;
  on "mouseleave" "mha-fill" ;;
  on "mousemove" "#map".

Definition setupClickEvents : M state unit :=
  forEach ["rent-fill"; "burden-fill"] (fun layerId => on "click" layerId).

Definition setupIdleEvent : M state unit :=
  on "idle" "map".

(** The chain [fetch(MHA_DATA).then(r => r.json()).then(...).catch(...)]. *)
Definition load_mha (response : fetched geojson) : M state unit :=
  match response with
  | Fulfilled mhaGeoJSON =>
      try_catch
        (addSource "mha" mhaGeoJSON ;;
         addLayer "mha-fill"
           {| layer_type := "fill"; layer_source := "mha";
              visibility := Some "none"; line_opacity := None |} ;;
         addLayer "mha-line"
           {| layer_type := "line"; layer_source := "mha";
              visibility := Some "none"; line_opacity := Some (3 # 10) |})
        (fun err => console_error "MHA load error:")
  | Rejected => console_error "MHA load error:"
  end.

(** The chain [fetch(HOUSING_DATA).then(r => r.json()).then(...).catch(...)]. *)
Definition load_housing (response : fetched geojson) : M state unit :=
  match response with
  | Fulfilled housingGeoJSON =>
      try_catch
        (addSource "housing" housingGeoJSON ;;
         addLayer "rent-fill"
           {| layer_type := "fill"; layer_source := "housing";
              visibility := Some "visible"; line_opacity := None |} ;;
         addLayer "burden-fill"
           {| layer_type := "fill"; layer_source := "housing";
              visibility := Some "none"; line_opacity := None |} ;;
         addLayer "housing-line"
           {| layer_type := "line"; layer_source := "housing";
              visibility := None; line_opacity := Some (25 # 100) |} ;;
         addLayer "housing-hover"
           {| layer_type := "line"; layer_source := "housing";
              visibility := None; line_opacity := Some 0%Q |} ;;
         setupHoverEvents ;;
         setupClickEvents ;;
         setupIdleEvent ;;
         initCharts ;;
         initPanel ;;
         setTimeout UpdateFromMap 800)
        (fun err => console_error "Housing data load error:")
  | Rejected => console_error "Housing data load error:"
  end.

(** The two chains of [map.on('load', ...)] are started together and each
    settles on its own; [mha_first] says which one settles first. *)
Definition map_on_load (mha_first : bool) (mha housing : fetched geojson)
  : M state unit :=
  if mha_first then load_mha mha ;; load_housing housing
  else load_housing housing ;; load_mha mha.

(** The globals and the map before [load]: nothing initialised.  The
    markup of the page is not part of the scripts; its texts start empty. *)
Definition initial_state (viewport : string -> list tract) : state :=
  {| activeLayer := "rent"; hoveredTractId := None;
     barChart := None; lineChart := None; donutChart := None;
     text := ∅; legend_items := []; active_buttons := [];
     tooltip_display := "none";
     sources := ∅; layers := ∅; rendered := viewport;
     camera := {| center := ((-122335 # 1000)%Q, (47608 # 1000)%Q); zoom := 11 |};
     listeners := []; timers := []; console := [] |}.

End Scripts.

End Housing.

(** * The rent-burden trend dashboard *)

Module Trends.

(** ** Data *)

(** The properties of a feature of the three datasets: a row of the
    burden datasets has [YEAR], [TENURE], [RACE], [AGE] and the rate
    [All_]; a row of the income dataset has [YEAR] and the five brackets. *)
Record properties : Type := {
  YEAR : Z;
  TENURE : string;
  RACE : string;
  AGE : string;
  All_ : Q;
  F0___30_ : Q;
  F30___50_ : Q;
  F50___80_ : Q;
  F80___120_ : Q;
  Above_120_ : Q
}.

(** A feature collection, by the properties of its features. *)
Definition geojson : Type := list properties.

Record state : Type := {
  (** [let currentYear], [let currentThreshold] of panel.js *)
  currentYear : Z;
  currentThreshold : Z;
  (** [window.dashData] *)
  burden50 : list properties;
  burden30 : list properties;
  income : list properties;
  (** the chart instances of charts.js, [undefined] before [initCharts] *)
  trendChart : option chart;
  raceChart : option chart;
  incomeChart : option chart;
  (** [textContent] of the elements, by id *)
  text : gmap string string;
  (** [data-threshold] of the toggle buttons that carry the class [active] *)
  active_buttons : list Z;
  (** what [console.error] printed *)
  console : list string
}.

Definition set_currentYear (v : Z) (st : state) : state :=
  {| currentYear := v; currentThreshold := currentThreshold st;
     burden50 := burden50 st; burden30 := burden30 st; income := income st;
     trendChart := trendChart st; raceChart := raceChart st;
     incomeChart := incomeChart st; text := text st;
     active_buttons := active_buttons st; console := console st |}.
Definition set_currentThreshold (v : Z) (st : state) : state :=
  {| currentYear := currentYear st; currentThreshold := v;
     burden50 := burden50 st; burden30 := burden30 st; income := income st;
     trendChart := trendChart st; raceChart := raceChart st;
     incomeChart := incomeChart st; text := text st;
     active_buttons := active_buttons st; console := console st |}.
Definition set_burden50 (v : list properties) (st : state) : state :=
  {| currentYear := currentYear st;
     currentThreshold := currentThreshold st; burden50 := v;
     burden30 := burden30 st; income := income st;
     trendChart := trendChart st; raceChart := raceChart st;
     incomeChart := incomeChart st; text := text st;
     active_buttons := active_buttons st; console := console st |}.
Definition set_burden30 (v : list properties) (st : state) : state :=
  {| currentYear := currentYear st;
     currentThreshold := currentThreshold st; burden50 := burden50 st;
     burden30 := v; income := income st; trendChart := trendChart st;
     raceChart := raceChart st; incomeChart := incomeChart st;
     text := text st; active_buttons := active_buttons st;
     console := console st |}.
Definition set_income (v : list properties) (st : state) : state :=
  {| currentYear := currentYear st;
     currentThreshold := currentThreshold st; burden50 := burden50 st;
     burden30 := burden30 st; income := v; trendChart := trendChart st;
     raceChart := raceChart st; incomeChart := incomeChart st;
     text := text st; active_buttons := active_buttons st;
     console := console st |}.
Definition set_trendChart (v : option chart) (st : state) : state :=
  {| currentYear := currentYear st;
     currentThreshold := currentThreshold st; burden50 := burden50 st;
     burden30 := burden30 st; income := income st; trendChart := v;
     raceChart := raceChart st; incomeChart := incomeChart st;
     text := text st; active_buttons := active_buttons st;
     console := console st |}.
Definition set_raceChart (v : option chart) (st : state) : state :=
  {| currentYear := currentYear st;
     currentThreshold := currentThreshold st; burden50 := burden50 st;
     burden30 := burden30 st; income := income st;
     trendChart := trendChart st; raceChart := v;
     incomeChart := incomeChart st; text := text st;
     active_buttons := active_buttons st; console := console st |}.
Definition set_incomeChart (v : option chart) (st : state) : state :=
  {| currentYear := currentYear st;
     currentThreshold := currentThreshold st; burden50 := burden50 st;
     burden30 := burden30 st; income := income st;
     trendChart := trendChart st; raceChart := raceChart st;
     incomeChart := v; text := text st;
     active_buttons := active_buttons st; console := console st |}.
Definition set_text (v : gmap string string) (st : state) : state :=
  {| currentYear := currentYear st;
     currentThreshold := currentThreshold st; burden50 := burden50 st;
     burden30 := burden30 st; income := income st;
     trendChart := trendChart st; raceChart := raceChart st;
     incomeChart := incomeChart st; text := v;
     active_buttons := active_buttons st; console := console st |}.
Definition set_active_buttons (v : list Z) (st : state) : state :=
  {| currentYear := currentYear st;
     currentThreshold := currentThreshold st; burden50 := burden50 st;
     burden30 := burden30 st; income := income st;
     trendChart := trendChart st; raceChart := raceChart st;
     incomeChart := incomeChart st; text := text st; active_buttons := v;
     console := console st |}.
Definition set_console (v : list string) (st : state) : state :=
  {| currentYear := currentYear st;
     currentThreshold := currentThreshold st; burden50 := burden50 st;
     burden30 := burden30 st; income := income st;
     trendChart := trendChart st; raceChart := raceChart st;
     incomeChart := incomeChart st; text := text st;
     active_buttons := active_buttons st; console := v |}.

Section Scripts.
Context `{Runtime}.
Local Open Scope js_scope.

Definition setText (id s : string) : M state unit :=
  modify (fun st => set_text (<[id := s]> (text st)) st).

Definition console_error (msg : string) : M state unit :=
  modify (fun st => set_console (console st ++ [msg]) st).

(** ** js/charts.js *)

Definition races : list string := ["White"; "Black"; "Asian"; "Hispanic"; "Native"].

Definition brackets : list string :=
  ["<30% AMI"; "30–50%"; "50–80%"; "80–120%"; ">120%"].

Definition trend_placeholder : list column :=
  [ ("x", []); ("Renters", []) ].

Definition race_placeholder : list column :=
  [ ("x", strs races); ("Burden", nums [0; 0; 0; 0; 0]%Q) ].

Definition income_placeholder : list column :=
  [ ("x", strs brackets); ("Households", nums [0; 0; 0; 0; 0]%Q) ].

Definition initCharts : M state unit :=
  modify (set_trendChart (Some (c3_generate trend_placeholder))) ;;
  modify (set_raceChart (Some (c3_generate race_placeholder))) ;;
  modify (set_incomeChart (Some (c3_generate income_placeholder))).

(** [chart.load(...)] on a chart variable; a [TypeError] while the variable
    is [undefined]. *)
Definition load_chart (get : state -> option chart)
    (set : option chart -> state -> state) (columns : list column) : M state unit :=
  chart <- gets get ;;
  match chart with
  | Some c => modify (set (Some (c3_load columns c)))
  | None => raise (TypeError "Cannot read properties of undefined (reading 'load')")
  end.

(** [threshold === 50 ? window.dashData.burden50 : window.dashData.burden30] *)
Definition dataset_for (threshold : Z) (st : state) : list properties :=
  if (threshold =? 50)%Z then burden50 st else burden30 st.

(** [sort((a, b) => a.YEAR - b.YEAR)] *)
Definition by_YEAR (a b : properties) : bool := (YEAR a <=? YEAR b)%Z.

Definition updateTrendChart (threshold : Z) : M state unit :=
  dataset <- gets (dataset_for threshold) ;;
  let rows :=
    stable_sort by_YEAR
      (List.filter (fun f => String.eqb (TENURE f) "Renters"
                             && String.eqb (RACE f) "All"
                             && String.eqb (AGE f) "All") dataset) in
  match rows with
  | [] => ret tt
  | _ :: _ =>
      let years := map (fun r => String_of_Z (YEAR r)) rows in
      let burdens := map All_ rows in
      load_chart trendChart set_trendChart
        [ ("x", strs years); ("Renters", nums burdens) ]
  end.

Definition updateYearCharts (year threshold : Z) : M state unit :=
  dataset <- gets (dataset_for threshold) ;;
  let raceValues :=
    map (fun race =>
           match List.find (fun f => (YEAR f =? year)%Z
                                     && String.eqb (TENURE f) "Renters"
                                     && String.eqb (RACE f) race
                                     && String.eqb (AGE f) "All") dataset with
           | Some row => All_ row
           | None => 0%Q
           end) races in
  load_chart raceChart set_raceChart
    [ ("x", strs races); ("Burden", nums raceValues) ] ;;
  setText "race-year" ("(" +:+ String_of_Z year +:+ ")") ;;
  income <- gets income ;;
  match List.find (fun f => (YEAR f =? year)%Z) income with
  | Some incRow =>
      load_chart incomeChart set_incomeChart
        [ ("x", strs brackets);
          ("Households", nums [ F0___30_ incRow; F30___50_ incRow;
                                F50___80_ incRow; F80___120_ incRow;
                                Above_120_ incRow ]) ] ;;
      setText "income-year" ("(" +:+ String_of_Z year +:+ ")")
  | None => ret tt
  end ;;
  match List.find (fun f => (YEAR f =? year)%Z
                            && String.eqb (TENURE f) "Renters"
                            && String.eqb (RACE f) "All"
                            && String.eqb (AGE f) "All") dataset with
  | Some statRow =>
      let pct := toFixed1 (binary64 (All_ statRow * 100)) +:+ "%" in
      setText "burden-stat" pct
  | None => ret tt
  end.

(** ** panel.js *)

(** [Promise.all([...]).then(...).catch(...)]: the handler of [then] runs
    when the three fetches are fulfilled; a rejection, or an exception of
    the handler, goes to the handler of [catch]. *)
Definition load_data (r50 r30 rincome : fetched geojson) : M state unit :=
  match r50, r30, rincome with
  | Fulfilled b50, Fulfilled b30, Fulfilled inc =>
      try_catch
        (modify (set_burden50 b50) ;;
         modify (set_burden30 b30) ;;
         modify (set_income inc) ;;
         initCharts ;;
         threshold <- gets currentThreshold ;;
         updateTrendChart threshold ;;
         year <- gets currentYear ;;
         threshold <- gets currentThreshold ;;
         updateYearCharts year threshold)
        (fun err => console_error "Data load error:")
  | _, _, _ => console_error "Data load error:"
  end.

(** The [input] handler of the year slider; [value] is
    [parseInt(this.value)]. *)
Definition slider_input (value : Z) : M state unit :=
  modify (set_currentYear value) ;;
  setText "year-display" (String_of_Z value) ;;
  year <- gets currentYear ;;
  threshold <- gets currentThreshold ;;
  updateYearCharts year threshold.

(** The [click] handler of a threshold button; [threshold] is
    [parseInt(this.dataset.threshold)]. *)
Definition threshold_click (threshold : Z) : M state unit :=
  modify (set_active_buttons []) ;;
  modify (fun st => set_active_buttons (active_buttons st ++ [threshold]) st) ;;
  modify (set_currentThreshold threshold) ;;
  threshold <- gets currentThreshold ;;
  updateTrendChart threshold ;;
  year <- gets currentYear ;;
  updateYearCharts year threshold.

(** The globals when the scripts have run and nothing is loaded yet. *)
Definition initial_state : state :=
  {| currentYear := 2022; currentThreshold := 50;
     burden50 := []; burden30 := []; income := [];
     trendChart := None; raceChart := None; incomeChart := None;
     text := ∅; active_buttons := []; console := [] |}.

End Scripts.

End Trends.

(** * What the views are to show

    The notions in which the properties of the projections are stated. *)

Module HousingSpec.
Import Housing.

(** The [MEDIAN_RENT] values of the records whose [MEDIAN_RENT] is a
    positive number, in the order of the records. *)
Definition positive_rents (data : list tract) : list Q :=
  flat_map (fun p => match MEDIAN_RENT p with
                     | Some v => if Qlt_le_dec 0 v then [v] else []
                     | None => []
                     end) data.

(** The [RENT_BURDEN_PCT] values of the records that have one. *)
Definition known_burdens (data : list tract) : list Q :=
  flat_map (fun p => match RENT_BURDEN_PCT p with
                     | Some v => [v]
                     | None => []
                     end) data.

(** The arithmetic mean: the sum of the values over their number. *)
Definition arithmetic_mean (xs : list Q) : Q :=
  (fold_right Qplus 0 xs / inject_Z (Z.of_nat (length xs)))%Q.

(** The state after the three texts of the stat block are set. *)
Definition with_stat (label value sub : string) (st : state) : state :=
  set_text (<["stat-sub" := sub]>
              (<["stat-value" := value]> (<["stat-label" := label]> (text st)))) st.

(** A tract with a [GEOID], a [NEIGHBORHOOD] and a [MEDIAN_RENT], and no
    other property. *)
Definition tract_with (id hood : option string) (median_rent : option Q) : tract :=
  {| GEOID := id; NAME := None; NEIGHBORHOOD := hood;
     MEDIAN_RENT := median_rent; RENT_BURDEN_PCT := None;
     RENT_TIMESERIES := None;
     GRAPI_LESS_15 := None; GRAPI_15_20 := None; GRAPI_20_25 := None;
     GRAPI_25_30 := None; GRAPI_30_35 := None; GRAPI_35_PLUS := None |}.

(** The rents of the records of a neighborhood, in the order of the records;
    a record without a neighborhood belongs to [Unknown]. *)
Definition rents_of (n : string) (data : list bar_datum) : list Q :=
  map rent (List.filter (fun d => String.eqb (group_key d) n) data).

(** The mean rent of a neighborhood, as the code computes it in double
    precision, rounded to the nearest integer. *)
Definition rounded_mean (n : string) (data : list bar_datum) : Z :=
  Math_round (average (rents_of n data)).

(** A neighborhood of the data whose rounded mean rent is positive. *)
Definition ranked (data : list bar_datum) (n : string) : Prop :=
  n ∈ map group_key data /\ (0 < rounded_mean n data)%Z.

(** No record is filed under the name of a member of [Object.prototype]. *)
Definition plain_keys (data : list bar_datum) : Prop :=
  Forall (fun d => inherited (group_key d) = false) data.

(** [grouped] holds, for each neighborhood of the records read so far, its
    rents, under distinct keys. *)
Definition groups_of (pre : list bar_datum) (grouped : object (list Q)) : Prop :=
  NoDup (map fst grouped)
  /\ forall n, own_property grouped n
               = match rents_of n pre with [] => None | rs => Some rs end.

(** A name shows in the records before another one does. *)
Definition seen_before (keys : list string) (a b : string) : Prop :=
  a <> b /\ exists l1 l2, keys = l1 ++ a :: l2 /\ b ∉ l1.

(** The order in which [Object.entries] lists two neighborhoods of the
    data: the names that are array indices come first, in ascending order,
    then the other names in the order in which the records first show
    them. *)
Definition entry_before (data : list bar_datum) (a b : string) : Prop :=
  match array_index a, array_index b with
  | Some i, Some j => (i < j)%N
  | Some _, None => True
  | None, Some _ => False
  | None, None => seen_before (map group_key data) a b
  end.

(** A neighborhood stands before another in the ranking: its rounded mean
    is larger, or the means are equal and [Object.entries] lists it
    first. *)
Definition outranks (data : list bar_datum) (a b : string) : Prop :=
  (rounded_mean b data < rounded_mean a data)%Z
  \/ (rounded_mean a data = rounded_mean b data /\ entry_before data a b).

(** [series] is the ranking of the neighborhoods of [data]: at most eight
    bars, in descending order of rounded mean rent, bars of equal mean in
    the order of [Object.entries]; one bar per neighborhood, each a ranked
    neighborhood with its rounded mean; a ranked neighborhood is left out
    only when the eight bars that are in all stand before it in the
    ranking, and eight ranked neighborhoods or more fill the eight bars. *)
Definition top_ranked (data : list bar_datum) (series : list bar) : Prop :=
  length series <= 8
  /\ StronglySorted (fun a b => (mean_rent b <= mean_rent a)%Z) series
  /\ StronglySorted (fun a b => outranks data (name a) (name b)) series
  /\ NoDup (map name series)
  /\ (forall b, b ∈ series ->
        ranked data (name b) /\ mean_rent b = rounded_mean (name b) data)
  /\ (forall n, ranked data n ->
        n ∈ map name series
        \/ (length series = 8
            /\ Forall (fun b => (rounded_mean n data <= mean_rent b)%Z
                                /\ outranks data (name b) n) series))
  /\ (forall ns, NoDup ns -> 8 <= length ns -> Forall (ranked data) ns ->
        length series = 8).

(** The state after the bar chart is given a series; an empty series leaves
    the chart as it is. *)
Definition with_bars (series : list bar) (st : state) : state :=
  match series with
  | [] => st
  | _ :: _ => set_barChart (Some (bar_columns series)) st
  end.

(** Records with one rent each, for the named neighborhoods. *)
Definition one_rent_each (rent : Q) (hoods : list string) : list bar_datum :=
  map (fun n => {| neighborhood := Some n; rent := rent |}) hoods.

(** A layer is shown when it is in the style with the visibility [visible]. *)
Definition shown (layerId : string) (st : state) : bool :=
  match layers st !! layerId with
  | Some l => bool_decide (visibility l = Some "visible")
  | None => false
  end.

(** The choropleth layer whose features are the visible set: the burden
    layer when it is shown, else the rent layer when it is shown. *)
Definition visible_layer (st : state) : option string :=
  if shown "burden-fill" st then Some "burden-fill"
  else if shown "rent-fill" st then Some "rent-fill"
  else None.

(** The visible set: the tracts rendered on that layer, each [GEOID] once;
    empty when no choropleth layer is shown. *)
Definition visible_set (st : state) : list tract :=
  match visible_layer st with
  | Some layerId => dedupe (rendered st layerId) ∅
  | None => []
  end.

(** A layer with its visibility, or its line opacity, set. *)
Definition with_visibility (v : string) (l : layer) : layer :=
  {| layer_type := layer_type l; layer_source := layer_source l;
     visibility := Some v; line_opacity := line_opacity l |}.

Definition with_line_opacity (v : Q) (l : layer) : layer :=
  {| layer_type := layer_type l; layer_source := layer_source l;
     visibility := visibility l; line_opacity := Some v |}.

(** The thematic layers of the map, and those that show a layer of the
    panel. *)
Definition thematic : list string :=
  ["rent-fill"; "burden-fill"; "mha-fill"; "mha-line"].

Definition layers_of (layer : string) : list string :=
  if String.eqb layer "rent" then ["rent-fill"]
  else if String.eqb layer "burden" then ["burden-fill"]
  else if String.eqb layer "mha" then ["mha-fill"; "mha-line"]
  else [].

(** The style once the thematic layers are hidden and those of [layer] are
    shown: a thematic layer that is in the style has the visibility
    [visible] if it shows [layer] and [none] if not; every other entry of
    the style, and every absence, is as before. *)
Definition switched (layer : string) (style : gmap string Housing.layer)
  : gmap string Housing.layer :=
  map_imap (fun id l =>
              if bool_decide (id ∈ layers_of layer) then Some (with_visibility "visible" l)
              else if bool_decide (id ∈ thematic) then Some (with_visibility "none" l)
              else Some l) style.

(** The state after [switchMapLayer]. *)
Definition after_switch (layer : string) (st : state) : state :=
  set_timers (timers st ++ [(UpdateFromMap, 300)])
    (set_layers (switched layer (layers st)) st).



(** What a click on the reset button makes of [st]. *)
Definition reset_from (st st' : state) : Prop :=
  activeLayer st' = "rent"
  /\ active_buttons st' = ["rent"]
  /\ hoveredTractId st' = None
  /\ tooltip_display st' = "none"
  /\ text st' !! "stat-label" = Some "Avg. Median Rent · Visible Tracts"
  /\ text st' !! "stat-value" = Some "—"
  /\ text st' !! "stat-sub" = Some "Hover a tract for details"
  /\ text st' !! "legend-title" = Some "Median Rent / Unit"
  /\ own_property LEGEND_CONFIG "rent"
     = Some {| title := "Median Rent / Unit"; items := legend_items st' |}
  /\ lineChart st' = (fun _ => line_placeholder) <$> lineChart st
  /\ donutChart st' = (fun _ => donut_placeholder) <$> donutChart st
  /\ barChart st' = barChart st
  /\ (forall id, id ∈ thematic ->
        layers st' !! id
        = with_visibility (if bool_decide (id = "rent-fill")
                           then "visible" else "none") <$> layers st !! id)
  /\ timers st' = timers st ++ [(UpdateFromMap, 300)].

(** The records of an array without a [null] element. *)
Fixpoint records_of (elements : list (option ts_entry)) : option (list ts_entry) :=
  match elements with
  | [] => Some []
  | None :: _ => None
  | Some d :: elements' => (fun ds => d :: ds) <$> records_of elements'
  end.

(** The time series that a parsed value holds: none for a value that is
    falsy or has the length 0, the records of an array.  A value that is
    not an array, such as [{}] or [5], and an array with a [null] element
    hold no time series. *)
Definition series_of (v : json) : option (list ts_entry) :=
  match v with
  | JNull | JBool false => Some []
  | JBool true => None
  | JNumber q => if Qeq_bool q 0 then Some [] else None
  | JString s => if String.eqb s "" then Some [] else None
  | JArray elements => records_of elements
  | JObject members =>
      match own_property members "length" with
      | Some (JNumber q) => if Qeq_bool q 0 then Some [] else None
      | _ => None
      end
  end.

(** The state after [stat-value] is set to the no-data marker. *)
Definition no_data (st : state) : state :=
  set_text (<["stat-value" := "—"]> (text st)) st.

End HousingSpec.

(** Whether a fetch was fulfilled. *)
Definition fulfilled {A} (r : fetched A) : bool :=
  match r with Fulfilled _ => true | Rejected => false end.

(** What [map.on('load')] of map.js makes of the fresh map [st0], for the
    outcomes of its two fetches: each chain does its own work, whatever the
    other does.  The source and the layers of the zones are there exactly
    when the zones were fetched; the source and the layers of the tracts,
    the charts, the legend, the handlers and the timer of the first pass are
    there exactly when the tracts were fetched; each rejected fetch leaves
    its own message on the console and nothing in the page. *)
Definition loaded_separately (mha housing : fetched Housing.geojson)
    (st0 st' : Housing.state) : Prop :=
  (forall id, id ∈ ["mha-fill"; "mha-line"] ->
     bool_decide (is_Some (Housing.layers st' !! id)) = fulfilled mha)
  /\ bool_decide (is_Some (Housing.sources st' !! "mha")) = fulfilled mha
  /\ (forall id, id ∈ ["rent-fill"; "burden-fill"; "housing-line"; "housing-hover"] ->
       bool_decide (is_Some (Housing.layers st' !! id)) = fulfilled housing)
  /\ bool_decide (is_Some (Housing.sources st' !! "housing")) = fulfilled housing
  /\ Housing.barChart st'
     = (if fulfilled housing then Some Housing.bar_placeholder else None)
  /\ Housing.lineChart st'
     = (if fulfilled housing then Some Housing.line_placeholder else None)
  /\ Housing.donutChart st'
     = (if fulfilled housing then Some Housing.donut_placeholder else None)
  /\ bool_decide (Housing.legend_items st' = []) = negb (fulfilled housing)
  /\ bool_decide (Housing.listeners st' = []) = negb (fulfilled housing)
  /\ Housing.timers st'
     = (if fulfilled housing then [(Housing.UpdateFromMap, 800)] else [])
  /\ bool_decide ("MHA load error:" ∈ Housing.console st') = negb (fulfilled mha)
  /\ bool_decide ("Housing data load error:" ∈ Housing.console st')
     = negb (fulfilled housing)
  /\ length (Housing.console st')
     = (if fulfilled mha then 0 else 1) + (if fulfilled housing then 0 else 1)
  /\ Housing.text st'
     = (if fulfilled housing
        then <["legend-title" := "Median Rent / Unit"]> (Housing.text st0)
        else Housing.text st0).

Module TrendsSpec.
Import Trends.

(** What [updateYearCharts] makes of [st] for a year that has no row in the
    burden dataset of the threshold: the race chart shows zero for every
    race and the label of the race chart shows the year; the income chart is
    loaded with the row of the year in the income dataset when there is
    one, and otherwise keeps its columns and its label; the burden stat
    keeps its text. *)
Definition absent_year_views (year : Z) (st st' : state) : Prop :=
  raceChart st' = Some [ ("x", strs races); ("Burden", nums [0; 0; 0; 0; 0]%Q) ]
  /\ text st' !! "race-year" = Some ("(" +:+ String_of_Z year +:+ ")")
  /\ text st' !! "burden-stat" = text st !! "burden-stat"
  /\ match List.find (fun f => (YEAR f =? year)%Z) (income st) with
     | Some incRow =>
         incomeChart st'
         = Some [ ("x", strs brackets);
                  ("Households", nums [ F0___30_ incRow; F30___50_ incRow;
                                        F50___80_ incRow; F80___120_ incRow;
                                        Above_120_ incRow ]) ]
         /\ text st' !! "income-year" = Some ("(" +:+ String_of_Z year +:+ ")")
     | None =>
         incomeChart st' = incomeChart st
         /\ text st' !! "income-year" = text st !! "income-year"
     end.

(** A row of the income dataset. *)
Definition income_row (year : Z) (b1 b2 b3 b4 b5 : Q) : properties :=
  {| YEAR := year; TENURE := ""; RACE := ""; AGE := ""; All_ := 0;
     F0___30_ := b1; F30___50_ := b2; F50___80_ := b3; F80___120_ := b4;
     Above_120_ := b5 |}.

(** A row of a burden dataset. *)
Definition burden_row (year : Z) (tenure race age : string) (rate : Q) : properties :=
  {| YEAR := year; TENURE := tenure; RACE := race; AGE := age; All_ := rate;
     F0___30_ := 0; F30___50_ := 0; F50___80_ := 0; F80___120_ := 0;
     Above_120_ := 0 |}.

End TrendsSpec.

(** What the two updates of the charts make of a state in which the charts
    exist, as functions of the state. *)
Module TrendsViews.
Import Trends.

Section Views.
Context `{Runtime}.

(** The state after [updateTrendChart threshold]. *)
Definition trend_view (threshold : Z) (st : state) : state :=
  match stable_sort by_YEAR
          (List.filter (fun f => String.eqb (TENURE f) "Renters"
                                 && String.eqb (RACE f) "All"
                                 && String.eqb (AGE f) "All")
             (dataset_for threshold st)) with
  | [] => st
  | r :: rows =>
      set_trendChart
        (Some [ ("x", strs (map (fun r => String_of_Z (YEAR r)) (r :: rows)));
                ("Renters", nums (map All_ (r :: rows))) ]) st
  end.

(** The columns of the race chart for a year and a threshold. *)
Definition race_columns (year threshold : Z) (st : state) : list column :=
  [ ("x", strs races);
    ("Burden",
     nums (map (fun race =>
                  match List.find (fun f => (YEAR f =? year)%Z
                                            && String.eqb (TENURE f) "Renters"
                                            && String.eqb (RACE f) race
                                            && String.eqb (AGE f) "All")
                          (dataset_for threshold st) with
                  | Some row => All_ row
                  | None => 0%Q
                  end) races)) ].

(** The columns of the income chart for a row of the income dataset. *)
Definition income_columns (incRow : properties) : list column :=
  [ ("x", strs brackets);
    ("Households", nums [ F0___30_ incRow; F30___50_ incRow; F50___80_ incRow;
                          F80___120_ incRow; Above_120_ incRow ]) ].

Definition year_label (year : Z) : string := "(" +:+ String_of_Z year +:+ ")".

(** The state after [updateYearCharts year threshold]. *)
Definition year_views (year threshold : Z) (st : state) : state :=
  let texts := <["race-year" := year_label year]> (text st) in
  let inc :=
    match List.find (fun f => (YEAR f =? year)%Z) (income st) with
    | Some incRow => Some (income_columns incRow)
    | None => incomeChart st
    end in
  let texts :=
    match List.find (fun f => (YEAR f =? year)%Z) (income st) with
    | Some _ => <["income-year" := year_label year]> texts
    | None => texts
    end in
  let texts :=
    match List.find (fun f => (YEAR f =? year)%Z
                              && String.eqb (TENURE f) "Renters"
                              && String.eqb (RACE f) "All"
                              && String.eqb (AGE f) "All")
            (dataset_for threshold st) with
    | Some statRow =>
        <["burden-stat" := toFixed1 (binary64 (All_ statRow * 100)) +:+ "%"]> texts
    | None => texts
    end in
  set_text texts
    (set_incomeChart inc
       (set_raceChart (Some (race_columns year threshold st)) st)).

End Views.

End TrendsViews.

(** * The housing dashboard: a session

    What happens on the page once the map is loaded: clicks on the toggle
    buttons, on the reset button and on tracts, passes of [updateFromMap]
    when the map goes idle or a timer fires, and moves of the map, which
    change the tracts that are rendered. *)

Module HousingSession.
Import Housing HousingSpec.

Inductive action : Type :=
  | Toggle (layer : string)
  | Reset
  | Click (features : list tract)
  | Idle
  | Pan (viewport : string -> list tract).

Section Session.
Context `{Runtime}.

Definition act (a : action) : M state unit :=
  match a with
  | Toggle layer => toggle_click layer
  | Reset => reset_click
  | Click features => tract_click features
  | Idle => updateFromMap
  | Pan viewport => modify (set_rendered viewport)
  end.

(** The handlers run one after the other; what a handler wrote before an
    exception stays written. *)
Fixpoint session (acts : list action) (st : state) : state :=
  match acts with
  | [] => st
  | a :: acts' => session acts' (snd (act a st))
  end.

End Session.

(** The toggle buttons of the page carry the names of layers, none of which
    is a member of [Object.prototype]. *)
Definition plain_toggle (a : action) : Prop :=
  match a with
  | Toggle layer => inherited layer = false
  | _ => True
  end.

(** The map shows the choropleth of the active layer and no other thematic
    layer. *)
Definition in_sync (st : state) : Prop :=
  is_Some (layers st !! "rent-fill")
  /\ is_Some (layers st !! "burden-fill")
  /\ is_Some (layers st !! "housing-hover")
  /\ shown "rent-fill" st = bool_decide (activeLayer st = "rent")
  /\ shown "burden-fill" st = bool_decide (activeLayer st = "burden")
  /\ (shown "mha-fill" st = true \/ shown "mha-line" st = true ->
      activeLayer st = "mha").

End HousingSession.

(** * The tooltip of the housing dashboard: placement

    [positionTooltip] of panel.js reads the size of the tooltip, the size of
    the window and the position of the pointer, and writes the [left] and
    [top] of the tooltip, in pixels. *)

Module Tooltip.

Record pointer : Type := { clientX : Q; clientY : Q }.

(** What [positionTooltip] is called with: an event of the map, which
    carries the pointer event in [originalEvent], or a pointer event of the
    page. *)
Inductive event : Type :=
  | MapEvent (originalEvent : pointer)
  | PointerEvent (e : pointer).

(** [e.originalEvent ? e.originalEvent.clientX : e.clientX], and the same for
    [clientY]. *)
Definition pointer_of (e : event) : pointer :=
  match e with
  | MapEvent originalEvent => originalEvent
  | PointerEvent p => p
  end.

(** The numbers written to [tooltip.style.left] and [tooltip.style.top]. *)
Definition positionTooltip (offsetWidth offsetHeight innerWidth innerHeight : Q)
    (e : event) : Q * Q :=
  let offset := 16%Q in
  let w := offsetWidth in
  let h := offsetHeight in
  let x := clientX (pointer_of e) in
  let y := clientY (pointer_of e) in
  let x := if negb (Qle_bool (x + w + offset) innerWidth)
           then (x - w - offset)%Q else (x + offset)%Q in
  let y := if negb (Qle_bool (y + h + offset) innerHeight)
           then (y - h - offset)%Q else (y + offset)%Q in
  (x, y).

End Tooltip.

(** * The zoning map: hover

    The handlers that the older [map.js] gives the layer [mha-fill]: the
    zone under the pointer is marked in the feature state of the source, and
    a popup describes it. *)

Module Zones.

(** The properties of a zone that the popup reads. *)
Record zone : Type := {
  ZONING : option string;
  ZONING_DESC : option string;
  ZONELUT_DESC : option string;
  CLASS_DESC : option string;
  MHA_VALUE : option string
}.

(** A pointer event on the layer: [e.features[0].id],
    [e.features[0].properties] and [e.lngLat]. *)
Record event : Type := { feature_id : Z; properties : zone; lngLat : Q * Q }.

Record state : Type := {
  (** [let hoveredId] *)
  hoveredId : option Z;
  (** the [hovered] flag of the feature state of the source [mha], by id *)
  featureState : gmap Z bool;
  (** [map.getCanvas().style.cursor] *)
  cursor : string;
  (** the popup while it is on the map: where, and its HTML *)
  popup : option (Q * Q * string)
}.

Definition set_hoveredId (v : option Z) (st : state) : state :=
  {| hoveredId := v; featureState := featureState st; cursor := cursor st;
     popup := popup st |}.
Definition set_featureState (v : gmap Z bool) (st : state) : state :=
  {| hoveredId := hoveredId st; featureState := v; cursor := cursor st;
     popup := popup st |}.
Definition set_cursor (v : string) (st : state) : state :=
  {| hoveredId := hoveredId st; featureState := featureState st; cursor := v;
     popup := popup st |}.
Definition set_popup (v : option (Q * Q * string)) (st : state) : state :=
  {| hoveredId := hoveredId st; featureState := featureState st;
     cursor := cursor st; popup := v |}.

Section Handlers.
(** The text that an inherited member of the object of labels gives when it
    is concatenated. *)
Variable member_text : string -> string.
Local Open Scope js_scope.

(** [map.setFeatureState({ source: 'mha', id }, { hovered })] *)
Definition setFeatureState (id : Z) (hovered : bool) : M state unit :=
  modify (fun st => set_featureState (<[id := hovered]> (featureState st)) st).

Definition MHA_LABELS : object string :=
  [ ("M", "M — Base Performance");
    ("M1", "M1 — Higher Performance");
    ("M2", "M2 — Highest Performance") ].

(** [{...}[p.MHA_VALUE] || 'No MHA Tier']; a missing value looks up the key
    [undefined]. *)
Definition mhaLabel (p : zone) : string :=
  match get_property MHA_LABELS (default "undefined" (MHA_VALUE p)) with
  | Own l => l
  | Inherited => member_text (default "undefined" (MHA_VALUE p))
  | Undefined => "No MHA Tier"
  end.

(** An attribute value between double quotes. *)
Definition quoted (value : string) : string :=
  String (Ascii.ascii_of_nat 34) value +:+ String (Ascii.ascii_of_nat 34) "".

Definition popup_html (p : zone) : string :=
  let zoneDesc :=
    Housing.or_string (ZONING_DESC p) (Housing.or_string (ZONELUT_DESC p) "Unknown") in
  let classDesc := Housing.or_string (CLASS_DESC p) "" in
  "<strong>" +:+ Housing.or_string (ZONING p) "Zone" +:+ "</strong>" +:+
  "<div style=" +:+ quoted "color:#94a3b8;font-size:0.76rem;margin-top:4px" +:+ ">"
    +:+ zoneDesc +:+ "</div>" +:+
  "<div style=" +:+ quoted "margin-top:8px;font-size:0.76rem" +:+ "><span style="
    +:+ quoted "color:#f97316" +:+ ">MHA: </span>" +:+ mhaLabel p +:+ "</div>" +:+
  (if String.eqb classDesc "" then ""
   else "<div style=" +:+ quoted "color:#64748b;font-size:0.72rem;margin-top:2px" +:+ ">"
          +:+ classDesc +:+ "</div>").

(** [map.on('mousemove', 'mha-fill', ...)] *)
Definition mousemove (e : event) : M state unit :=
  modify (set_cursor "pointer") ;;
  hovered <- gets hoveredId ;;
  match hovered with
  | Some id => setFeatureState id false
  | None => ret tt
  end ;;
  let id := feature_id e in
  modify (set_hoveredId (Some id)) ;;
  setFeatureState id true ;;
  modify (set_popup (Some (lngLat e, popup_html (properties e)))).

(** [map.on('mouseleave', 'mha-fill', ...)] *)
Definition mouseleave : M state unit :=
  modify (set_cursor "") ;;
  hovered <- gets hoveredId ;;
  match hovered with
  | Some id => setFeatureState id false
  | None => ret tt
  end ;;
  modify (set_hoveredId None) ;;
  modify (set_popup None).

(** What the pointer does over the layer. *)
Inductive pointer_event : Type :=
  | Move (e : event)
  | Leave.

Definition handle (ev : pointer_event) : M state unit :=
  match ev with
  | Move e => mousemove e
  | Leave => mouseleave
  end.

(** The handlers run one after the other, each to its end. *)
Fixpoint handle_all (evs : list pointer_event) (st : state) : state :=
  match evs with
  | [] => st
  | ev :: evs' => handle_all evs' (snd (handle ev st))
  end.

End Handlers.

(** The map when its layers have just been added: no zone is marked. *)
Definition initial_state : state :=
  {| hoveredId := None; featureState := ∅; cursor := ""; popup := None |}.

End Zones.

(** * Facts *)

(** ** Numbers *)

Lemma gt0_spec (v : Q) : gt0 v = true <-> (0 < v)%Q.
Proof.
  unfold gt0. rewrite negb_true_iff. split.
  - intros Hle. apply Qnot_le_lt. intros Hv.
    apply Qle_bool_iff in Hv. congruence.
  - intros Hlt. destruct (Qle_bool v 0) eqn:Hle; [|reflexivity].
    apply Qle_bool_iff in Hle. exfalso. exact (Qlt_not_le _ _ Hlt Hle).
Qed.

Lemma truthy_spec (v : Q) : truthy v = true <-> ~ (v == 0)%Q.
Proof.
  unfold truthy. rewrite negb_true_iff. split.
  - intros Hne Heq. apply Qeq_bool_iff in Heq. congruence.
  - intros Hne. destruct (Qeq_bool v 0) eqn:Heq; [|reflexivity].
    apply Qeq_bool_iff in Heq. contradiction.
Qed.

(** [v && v > 0] holds exactly of the positive numbers. *)
Lemma truthy_gt0 (v : Q) : truthy v && gt0 v = true <-> (0 < v)%Q.
Proof.
  rewrite andb_true_iff, truthy_spec, gt0_spec. split.
  - intros [_ Hpos]. exact Hpos.
  - intros Hpos. split; [|exact Hpos].
    intros Heq. rewrite Heq in Hpos. exact (Qlt_irrefl _ Hpos).
Qed.

(** [Math.round] is within a half of its argument. *)
Lemma Math_round_bounds (x : Q) :
  (x - (1 # 2) < inject_Z (Math_round x) /\ inject_Z (Math_round x) <= x + (1 # 2))%Q.
Proof.
  unfold Math_round.
  pose proof (Qlt_floor (x + (1 # 2))) as Hlt.
  pose proof (Qfloor_le (x + (1 # 2))) as Hle.
  rewrite inject_Z_plus in Hlt. change (inject_Z 1) with 1%Q in Hlt.
  split; lra.
Qed.

(** *** Double precision *)

Section Binary64.
Local Open Scope Q_scope.

Lemma pow2_pos (e : Z) : 0 < 2 ^ e.
Proof. apply Qpower_0_lt. reflexivity. Qed.

Lemma pow2_add (a b : Z) : 2 ^ (a + b) == 2 ^ a * 2 ^ b.
Proof. apply Qpower_plus. discriminate. Qed.

Lemma pow2_Z (k : Z) : (0 <= k)%Z -> 2 ^ k == inject_Z (2 ^ k).
Proof. intros Hk. rewrite (Zpower_Qpower 2 k Hk). reflexivity. Qed.

Lemma pow2_le (a b : Z) : (a <= b)%Z -> 2 ^ a <= 2 ^ b.
Proof. intros Hab. apply Qpower_le_compat_l; [exact Hab|discriminate]. Qed.

Lemma pow2_lt (a b : Z) : (a < b)%Z -> 2 ^ a < 2 ^ b.
Proof. intros Hab. apply Qpower_lt_compat_l; [exact Hab|reflexivity]. Qed.

Lemma pow2_succ (a : Z) : 2 ^ (a + 1) == 2 * 2 ^ a.
Proof. rewrite pow2_add. change (2 ^ 1) with 2. ring. Qed.

Lemma le_div (a q p : Q) : 0 < p -> a <= q / p <-> a * p <= q.
Proof.
  intros Hp. split; [|apply Qle_shift_div_l; exact Hp].
  intros Hle. apply (Qmult_le_compat_r _ _ p) in Hle; [|lra].
  assert (Heq : q / p * p == q) by (field; lra). rewrite Heq in Hle. exact Hle.
Qed.

Lemma div_lt (a q p : Q) : 0 < p -> q / p < a <-> q < a * p.
Proof.
  intros Hp. split; [|apply Qlt_shift_div_r; exact Hp].
  intros Hlt. apply (Qmult_lt_compat_r _ _ p) in Hlt; [|exact Hp].
  assert (Heq : q / p * p == q) by (field; lra). rewrite Heq in Hlt. exact Hlt.
Qed.

(** The exponent of a positive rational: its quotient by the power of two
    is below [2^53], and at least [2^52] unless the number is subnormal. *)
Lemma exponent_spec (q : Q) :
  0 < q ->
  q / 2 ^ exponent q < 2 ^ 53
  /\ (2 ^ 52 <= q / 2 ^ exponent q \/ exponent q = (-1074)%Z).
Proof.
  intros Hq. unfold exponent.
  set (a := Z.log2 (Qnum q)). set (b := Z.log2 (Z.pos (Qden q))).
  set (e0 := (a - b - 53)%Z).
  assert (Hn : (0 < Qnum q)%Z).
  { destruct q as [n d]. unfold Qlt in Hq. simpl in *. lia. }
  destruct (Z.log2_spec (Qnum q) Hn) as [Hn1 Hn2]. fold a in Hn1, Hn2.
  destruct (Z.log2_spec (Z.pos (Qden q)) eq_refl) as [Hd1 Hd2]. fold b in Hd1, Hd2.
  assert (Ha : (0 <= a)%Z) by apply Z.log2_nonneg.
  assert (Hb : (0 <= b)%Z) by apply Z.log2_nonneg.
  set (n := inject_Z (Qnum q)). set (d := inject_Z (Z.pos (Qden q))).
  assert (Hqd : q * d == n).
  { unfold n, d. rewrite (Qmake_Qdiv (Qnum q) (Qden q)) at 1 || idtac.
    destruct q as [qn qd]. simpl. rewrite (Qmake_Qdiv qn qd). field.
    discriminate. }
  assert (Hd : 0 < d) by (unfold d; reflexivity).
  assert (HA : 2 ^ a <= n /\ n < 2 * 2 ^ a).
  { unfold n. rewrite <- pow2_succ, !pow2_Z by lia. rewrite <- Zle_Qle, <- Zlt_Qlt.
    split; [exact Hn1|]. replace (a + 1)%Z with (Z.succ a) by lia. exact Hn2. }
  assert (HB : 2 ^ b <= d /\ d < 2 * 2 ^ b).
  { unfold d. rewrite <- pow2_succ, !pow2_Z by lia. rewrite <- Zle_Qle, <- Zlt_Qlt.
    split; [exact Hd1|]. replace (b + 1)%Z with (Z.succ b) by lia. exact Hd2. }
  assert (Hab : 2 ^ a == 2 ^ 53 * 2 ^ e0 * 2 ^ b).
  { rewrite <- !pow2_add. apply Qpower_comp; [reflexivity|]. unfold e0. lia. }
  pose proof (pow2_pos e0) as Hp. pose proof (pow2_pos b) as Hpb.
  pose proof (pow2_pos 52) as Hp52.
  assert (H53 : 2 ^ 53 == 2 * 2 ^ 52) by (rewrite <- pow2_succ; reflexivity).
  assert (Hlow : 2 ^ 52 * 2 ^ e0 < q /\ q < 2 * 2 ^ 53 * 2 ^ e0).
  { destruct HA as [HA1 HA2], HB as [HB1 HB2].
    rewrite Hab in HA1, HA2. rewrite H53 in *.
    set (P := 2 ^ e0) in *. set (B := 2 ^ b) in *. set (C := 2 ^ 52) in *.
    split; nra. }
  assert (Hgoal : forall e : Z,
            q / 2 ^ e < 2 ^ 53 -> 2 ^ 52 <= q / 2 ^ e ->
            q / 2 ^ Z.max e (-1074) < 2 ^ 53
            /\ (2 ^ 52 <= q / 2 ^ Z.max e (-1074) \/ Z.max e (-1074) = (-1074)%Z)).
  { intros e Hup Hdown. destruct (Z.max_spec e (-1074)) as [[Hlt ->]|[Hge ->]].
    - split; [|right; reflexivity].
      pose proof (pow2_pos e) as Hpe. pose proof (pow2_pos (-1074)) as Hpm.
      pose proof (pow2_le e (-1074) ltac:(lia)) as Hle.
      apply (proj1 (div_lt _ _ _ Hpe)) in Hup. apply (proj2 (div_lt _ _ _ Hpm)).
      set (X := 2 ^ e) in *. set (Y := 2 ^ (-1074)) in *. set (C := 2 ^ 53) in *.
      assert (0 < C) by apply pow2_pos. nra.
    - split; [exact Hup|left; exact Hdown]. }
  destruct (Qlt_le_dec (q / 2 ^ e0) (2 ^ 53)) as [Hfit|Hbig].
  - apply Hgoal; [exact Hfit|].
    apply (proj2 (le_div _ _ _ Hp)). apply Qlt_le_weak. apply Hlow.
  - apply Hgoal.
    + apply (proj2 (div_lt _ _ _ (pow2_pos _))). rewrite pow2_succ.
      destruct Hlow as [_ Hlow]. lra.
    + apply (proj2 (le_div _ _ _ (pow2_pos _))). rewrite pow2_succ.
      apply (proj1 (le_div _ _ _ Hp)) in Hbig. lra.
Qed.

Lemma Qfloor_unique (y : Q) (a : Z) : inject_Z a <= y -> y < inject_Z a + 1 -> Qfloor y = a.
Proof.
  intros Hlow Hup.
  pose proof (Qfloor_resp_le _ _ Hlow) as H1. rewrite Qfloor_Z in H1.
  pose proof (Qfloor_le y) as H2.
  assert (H3 : inject_Z (Qfloor y) < inject_Z (a + 1)).
  { rewrite inject_Z_plus. change (inject_Z 1) with 1. lra. }
  rewrite <- Zlt_Qlt in H3. lia.
Qed.

Lemma round_half_even_ge (x : Q) (M : Z) :
  inject_Z M <= x -> (M <= round_half_even x)%Z.
Proof.
  intros Hx. pose proof (Qfloor_resp_le _ _ Hx) as Hf. rewrite Qfloor_Z in Hf.
  unfold round_half_even.
  destruct (Qcompare (x - inject_Z (Qfloor x)) (1 # 2)); [destruct (Z.even _)| |]; lia.
Qed.

Lemma round_half_even_lt (x : Q) (M : Z) :
  x < inject_Z M - (1 # 2) -> (round_half_even x < M)%Z.
Proof.
  intros Hx. pose proof (Qfloor_le x) as Hf.
  assert (Hlt : (Qfloor x < M)%Z) by (rewrite (Zlt_Qlt (Qfloor x) M); lra).
  unfold round_half_even.
  destruct (Qcompare_spec (x - inject_Z (Qfloor x)) (1 # 2)) as [Heq|Hlt'|Hgt].
  - assert (Hlt2 : (Qfloor x + 1 < M)%Z).
    { rewrite (Zlt_Qlt (Qfloor x + 1) M), inject_Z_plus. change (inject_Z 1) with 1. lra. }
    destruct (Z.even _); lia.
  - exact Hlt.
  - rewrite (Zlt_Qlt (Qfloor x + 1) M), inject_Z_plus. change (inject_Z 1) with 1. lra.
Qed.

Lemma round_half_even_Z (x : Q) (z : Z) : x == inject_Z z -> round_half_even x = z.
Proof.
  intros Hx. unfold round_half_even.
  assert (Hf : Qfloor x = z) by (rewrite (Qfloor_comp _ _ Hx); apply Qfloor_Z).
  rewrite Hf.
  destruct (Qcompare_spec (x - inject_Z z) (1 # 2)) as [Heq|Hlt|Hgt]; [lra|reflexivity|lra].
Qed.

Lemma whole_Z (z : Z) : whole (inject_Z z).
Proof. unfold whole. rewrite Qfloor_Z. reflexivity. Qed.

Lemma whole_comp (x y : Q) : x == y -> whole x -> whole y.
Proof.
  unfold whole. intros Heq Hx. rewrite <- (Qfloor_comp x y Heq), Hx. exact Heq.
Qed.

Lemma whole_plus (x y : Q) : whole x -> whole y -> whole (x + y).
Proof.
  unfold whole. intros Hx Hy.
  assert (Heq : x + y == inject_Z (Qfloor x + Qfloor y))
    by (rewrite inject_Z_plus, Hx, Hy; reflexivity).
  rewrite (Qfloor_comp _ _ Heq), Qfloor_Z. symmetry. exact Heq.
Qed.

Lemma binary64_comp (x y : Q) : x == y -> binary64 x = binary64 y.
Proof. intros Heq. unfold binary64. rewrite (Qred_complete x y Heq). reflexivity. Qed.

Lemma binary64_pos (q : Q) : 0 < q -> binary64 q = round_positive (Qred q).
Proof.
  intros Hq. unfold binary64.
  assert (Hgt : (Qred q ?= 0) = Gt) by (apply Qgt_alt; rewrite Qred_correct; exact Hq).
  rewrite Hgt. reflexivity.
Qed.

Lemma binary64_neg (q : Q) : q < 0 -> binary64 q == - binary64 (- q).
Proof.
  intros Hq. rewrite (binary64_pos (- q)) by lra. unfold binary64.
  assert (Hlt : (Qred q ?= 0) = Lt) by (apply Qlt_alt; rewrite Qred_correct; exact Hq).
  rewrite Hlt.
  rewrite (Qred_complete (- Qred q) (- q)) by (rewrite Qred_correct; reflexivity).
  reflexivity.
Qed.

Lemma binary64_0 (q : Q) : q == 0 -> binary64 q == 0.
Proof.
  intros Hq. unfold binary64.
  assert (Heq : (Qred q ?= 0) = Eq) by (apply Qeq_alt; rewrite Qred_correct; exact Hq).
  rewrite Heq. reflexivity.
Qed.

Lemma pow2_neg (e : Z) : (e <= 0)%Z -> 2 ^ e == / inject_Z (2 ^ (- e)).
Proof.
  intros He. rewrite <- pow2_Z by lia. rewrite <- Qpower_opp.
  apply Qpower_comp; [reflexivity|lia].
Qed.

Lemma round_positive_whole (q : Q) :
  0 < q -> whole q -> q < 2 ^ 53 -> round_positive q == q.
Proof.
  intros Hq Hwhole Hsmall. unfold round_positive. unfold whole in Hwhole.
  destruct (exponent_spec q Hq) as [Hup Hdown].
  set (e := exponent q) in *.
  pose proof (pow2_pos e) as Hpe.
  assert (He : (e <= 0)%Z).
  { destruct Hdown as [Hdown| ->]; [|lia].
    apply (proj1 (le_div _ _ _ Hpe)) in Hdown.
    assert (Hlt : 2 ^ e < 2 ^ 1).
    { change (2 ^ 1) with 2.
      assert (H53 : 2 ^ 53 == 2 * 2 ^ 52) by (rewrite <- pow2_succ; reflexivity).
      pose proof (pow2_pos 52) as Hp52. rewrite H53 in Hsmall.
      set (C := 2 ^ 52) in *. set (P := 2 ^ e) in *. nra. }
    apply Qpower_lt_compat_l_inv in Hlt; [lia|reflexivity]. }
  assert (HT : (0 < 2 ^ (- e))%Z) by (apply Z.pow_pos_nonneg; lia).
  assert (HTq : 0 < inject_Z (2 ^ (- e))) by (rewrite (Zlt_Qlt 0 (2 ^ (- e))) in HT; exact HT).
  assert (Hx : q / 2 ^ e == inject_Z (Qfloor q * 2 ^ (- e))).
  { rewrite inject_Z_mult, Hwhole, (pow2_neg e He). field. lra. }
  rewrite (round_half_even_Z _ _ Hx).
  rewrite inject_Z_mult, Hwhole, (pow2_neg e He). field. lra.
Qed.

Lemma whole_opp (q : Q) : whole q -> whole (- q).
Proof.
  unfold whole. intros Hq.
  assert (Heq : - q == inject_Z (- Qfloor q)) by (rewrite inject_Z_opp, Hq; reflexivity).
  rewrite (Qfloor_comp _ _ Heq), Qfloor_Z. symmetry. exact Heq.
Qed.

(** Whole numbers below [2^53] are doubles. *)
Lemma binary64_whole (q : Q) : whole q -> Qabs q < 2 ^ 53 -> binary64 q == q.
Proof.
  intros Hwhole Hsmall.
  destruct (Q_dec q 0) as [[Hneg|Hpos]|Hzero].
  - rewrite (binary64_neg q Hneg), (binary64_pos (- q)) by lra.
    rewrite round_positive_whole.
    + rewrite Qred_correct. ring.
    + rewrite Qred_correct. lra.
    + apply (whole_comp (- q)); [symmetry; apply Qred_correct|apply whole_opp, Hwhole].
    + rewrite Qred_correct. rewrite Qabs_neg in Hsmall by lra. exact Hsmall.
  - rewrite (binary64_pos q Hpos), round_positive_whole.
    + apply Qred_correct.
    + rewrite Qred_correct. exact Hpos.
    + apply (whole_comp q); [symmetry; apply Qred_correct|exact Hwhole].
    + rewrite Qred_correct. rewrite Qabs_pos in Hsmall by lra. exact Hsmall.
  - rewrite (binary64_0 q Hzero). symmetry. exact Hzero.
Qed.

Lemma sum_whole_from (xs : list Q) (acc : Q) :
  whole acc -> Forall whole xs ->
  Qabs acc + fold_right Qplus 0 (map Qabs xs) < 2 ^ 53 ->
  fold_left (fun a b => binary64 (a + b)) xs acc == acc + fold_right Qplus 0 xs.
Proof.
  revert acc. induction xs as [|x xs IH]; intros acc Hacc Hxs Hsmall; simpl.
  - ring.
  - inversion Hxs as [|x' xs' Hx Hxs']; subst. simpl in Hsmall.
    assert (Hnonneg : 0 <= fold_right Qplus 0 (map Qabs xs)).
    { clear. induction xs as [|y ys IH]; simpl; [lra|].
      pose proof (Qabs_nonneg y). lra. }
    pose proof (Qabs_nonneg x) as Hx0.
    pose proof (Qabs_triangle acc x) as Htri.
    assert (Hstep : binary64 (acc + x) == acc + x).
    { apply binary64_whole; [apply whole_plus; assumption|lra]. }
    rewrite IH.
    + rewrite Hstep. ring.
    + apply (whole_comp (acc + x)); [symmetry; exact Hstep|apply whole_plus; assumption].
    + exact Hxs'.
    + rewrite Hstep. lra.
Qed.

(** The sum of whole numbers is exact while the magnitudes add up to less
    than [2^53]. *)
Lemma sum_whole (xs : list Q) :
  Forall whole xs -> fold_right Qplus 0 (map Qabs xs) < 2 ^ 53 -> sum xs == fold_right Qplus 0 xs.
Proof.
  intros Hxs Hsmall. unfold sum. rewrite sum_whole_from.
  - ring.
  - apply (whole_Z 0).
  - exact Hxs.
  - change (Qabs 0) with 0. lra.
Qed.

Ltac push_inject :=
  unfold Z.sub;
  repeat first [ rewrite inject_Z_plus | rewrite inject_Z_mult | rewrite inject_Z_opp ];
  change (inject_Z 2) with 2; change (inject_Z 1) with 1.

Ltac push_inject_in H :=
  unfold Z.sub in H;
  repeat first [ rewrite inject_Z_plus in H | rewrite inject_Z_mult in H
               | rewrite inject_Z_opp in H ];
  change (inject_Z 2) with 2 in H; change (inject_Z 1) with 1 in H.

(** Rounding the quotient of a whole number below [2^52] by a smaller
    positive integer does not move it across a half: [Math.round] of the
    double is [Math.round] of the exact quotient. *)
Lemma Math_round_quotient (s : Q) (n : positive) :
  whole s -> inject_Z (Z.pos n) <= s -> s < 2 ^ 52 ->
  Math_round (binary64 (s / inject_Z (Z.pos n)))
  = Math_round (s / inject_Z (Z.pos n)).
Proof.
  intros Hwhole Hlow Hsmall. unfold whole in Hwhole.
  set (N := inject_Z (Z.pos n)) in *.
  assert (HN : 1 <= N).
  { unfold N. change 1 with (inject_Z 1). rewrite <- Zle_Qle. lia. }
  set (q := s / N).
  assert (Hqs : q * N == s) by (unfold q; field; lra).
  assert (Hq : 0 < q) by (unfold q; apply Qlt_shift_div_l; lra).
  rewrite (binary64_pos q Hq). unfold round_positive.
  assert (Hq' : 0 < Qred q) by (rewrite Qred_correct; exact Hq).
  destruct (exponent_spec (Qred q) Hq') as [Hup Hdown].
  set (e := exponent (Qred q)) in *. rewrite Qred_correct in Hup, Hdown.
  pose proof (pow2_pos e) as Hpe.
  assert (Hfine : N * 2 ^ e < 1).
  { destruct Hdown as [Hdown|He].
    - apply (proj1 (le_div _ _ _ Hpe)) in Hdown.
      pose proof (pow2_pos 52) as Hp52.
      set (C := 2 ^ 52) in *. set (P := 2 ^ e) in *. nra.
    - rewrite He.
      assert (Hmin : 2 ^ 52 * 2 ^ (-1074) < 1).
      { rewrite <- pow2_add. change 1 with (2 ^ 0). apply pow2_lt. lia. }
      pose proof (pow2_pos (-1074)) as Hpm. set (P := 2 ^ (-1074)) in *.
      set (C := 2 ^ 52) in *. nra. }
  assert (He : (e < 0)%Z).
  { assert (Hlt : 2 ^ e < 2 ^ 0) by (change (2 ^ 0) with 1; nra).
    apply Qpower_lt_compat_l_inv in Hlt; [exact Hlt|reflexivity]. }
  set (h := (2 ^ (- e - 1))%Z).
  assert (Hh : (0 < h)%Z) by (apply Z.pow_pos_nonneg; lia).
  assert (Hpow : 2 ^ e == / (2 * inject_Z h)).
  { rewrite (pow2_neg e) by lia. replace (- e)%Z with ((- e - 1) + 1)%Z by lia.
    rewrite Z.pow_add_r, inject_Z_mult by lia. fold h.
    change (inject_Z (2 ^ 1)) with 2. rewrite (Qmult_comm (inject_Z h)). reflexivity. }
  assert (Hhq : 0 < inject_Z h) by (rewrite (Zlt_Qlt 0 h) in Hh; exact Hh).
  set (H := inject_Z h) in *.
  assert (HNh : N < 2 * H).
  { rewrite Hpow in Hfine.
    assert (Hinv : 2 * H * / (2 * H) == 1) by (field; lra).
    assert (Hipos : 0 < / (2 * H)) by (apply Qinv_lt_0_compat; lra).
    set (I := / (2 * H)) in *. nra. }
  set (R := Math_round q). unfold Math_round in R.
  pose proof (Qfloor_le (q + (1 # 2))) as HR1.
  pose proof (Qlt_floor (q + (1 # 2))) as HR2.
  fold R in HR1, HR2. rewrite inject_Z_plus in HR2. change (inject_Z 1) with 1 in HR2.
  set (Rq := inject_Z R) in *.
  assert (Hx : Qred q / 2 ^ e == q * (2 * H)).
  { rewrite Qred_correct, Hpow. field. lra. }
  set (m := round_half_even (Qred q / 2 ^ e)).
  assert (Hm1 : ((2 * R - 1) * h <= m)%Z).
  { apply round_half_even_ge. rewrite Hx.
    push_inject. fold Rq H. nra. }
  assert (Hm2 : (m < (2 * R + 1) * h)%Z).
  { apply round_half_even_lt. rewrite Hx.
    push_inject. fold Rq H.
    assert (Hint : 2 * s + 1 <= (2 * Rq + 1) * N).
    { assert (Hz : (2 * Qfloor s + 1 <= (2 * R + 1) * Z.pos n)%Z).
      { assert (Hlt : (2 * Qfloor s < (2 * R + 1) * Z.pos n)%Z).
        { rewrite (Zlt_Qlt (2 * Qfloor s) ((2 * R + 1) * Z.pos n)).
          push_inject. fold Rq N. rewrite Hwhole. nra. }
        lia. }
      rewrite (Zle_Qle (2 * Qfloor s + 1) ((2 * R + 1) * Z.pos n)) in Hz.
      push_inject_in Hz. fold Rq N in Hz. rewrite Hwhole in Hz. exact Hz. }
    assert (Hgoal : q * (2 * H) * N < ((2 * Rq + 1) * H - (1 # 2)) * N).
    { rewrite <- Qmult_assoc, (Qmult_comm (2 * H) N), Qmult_assoc, Hqs. nra. }
    apply (Qmult_lt_r _ _ N); [lra|exact Hgoal]. }
  unfold Math_round. apply Qfloor_unique.
  - fold m. rewrite Hpow.
    assert (Hm1q : ((2 * Rq - 1) * H <= inject_Z m)).
    { rewrite (Zle_Qle ((2 * R - 1) * h) m) in Hm1.
      push_inject_in Hm1. fold Rq H in Hm1. lra. }
    fold Rq. apply (Qmult_le_r _ _ (2 * H)); [lra|].
    assert (Heq : (inject_Z m * / (2 * H) + (1 # 2)) * (2 * H) == inject_Z m + H)
      by (field; lra).
    rewrite Heq. nra.
  - fold m. rewrite Hpow.
    assert (Hm2q : inject_Z m + 1 <= (2 * Rq + 1) * H).
    { assert (Hz : (m + 1 <= (2 * R + 1) * h)%Z) by lia.
      rewrite (Zle_Qle (m + 1) ((2 * R + 1) * h)) in Hz.
      push_inject_in Hz. fold Rq H in Hz. exact Hz. }
    fold Rq. apply (Qmult_lt_r _ _ (2 * H)); [lra|].
    assert (Heq : (inject_Z m * / (2 * H) + (1 # 2)) * (2 * H) == inject_Z m + H)
      by (field; lra).
    rewrite Heq. nra.
Qed.

End Binary64.

(** ** The built-ins used for evaluation *)

Example toLocaleString_enUS_1501 : toLocaleString_enUS 1501 = "1,501".
Proof. reflexivity. Qed.

Example toLocaleString_enUS_million : toLocaleString_enUS (-1234567) = "-1,234,567".
Proof. reflexivity. Qed.

Example toFixed1_exact_ex : toFixed1_exact (4125 # 100) = "41.3".
Proof. reflexivity. Qed.

Example array_index_ex :
  array_index "42" = Some 42%N /\ array_index "042" = None
  /\ array_index "" = None /\ array_index "Ballard" = None
  /\ array_index "4294967295" = None.
Proof. repeat split; reflexivity. Qed.

Example Object_entries_order :
  map fst (Object_entries [("Ballard", 1); ("7", 2); ("Fremont", 3); ("10", 4); ("2", 5)])
  = ["2"; "7"; "10"; "Ballard"; "Fremont"].
Proof. reflexivity. Qed.

(** ** Stable sorting *)

Section SortFacts.
Context {A : Type} (leb : A -> A -> bool).

Lemma insert_sorted_perm (x : A) (l : list A) : insert_sorted leb x l ≡ₚ x :: l.
Proof.
  induction l as [|y l IH]; simpl; [reflexivity|].
  destruct (leb x y); [reflexivity|].
  rewrite IH. apply Permutation_swap.
Qed.

Lemma stable_sort_perm (l : list A) : stable_sort leb l ≡ₚ l.
Proof.
  induction l as [|x l IH]; simpl; [reflexivity|].
  rewrite insert_sorted_perm, IH. reflexivity.
Qed.

Hypothesis leb_total : forall a b, leb a b = true \/ leb b a = true.
Hypothesis leb_trans : forall a b c, leb a b = true -> leb b c = true -> leb a c = true.

Lemma insert_sorted_sorted (x : A) (l : list A) :
  StronglySorted (fun a b => leb a b = true) l ->
  StronglySorted (fun a b => leb a b = true) (insert_sorted leb x l).
Proof.
  induction 1 as [|y l Hsorted IH Hall]; simpl.
  - repeat constructor.
  - destruct (leb x y) eqn:Hxy.
    + constructor; [constructor; assumption|].
      constructor; [exact Hxy|].
      eapply Forall_impl; [exact Hall|]. intros z Hyz. eauto.
    + constructor; [exact IH|].
      rewrite (insert_sorted_perm x l). constructor; [|exact Hall].
      destruct (leb_total x y); congruence.
Qed.

Lemma stable_sort_sorted (l : list A) :
  StronglySorted (fun a b => leb a b = true) (stable_sort leb l).
Proof.
  induction l as [|x l IH]; simpl; [constructor|].
  apply insert_sorted_sorted, IH.
Qed.
End SortFacts.

(** The sort is stable: elements that the comparator does not separate keep
    the order they had. *)
Section Stable.
Context {A : Type} (leb : A -> A -> bool) (P : A -> Prop) (R : A -> A -> Prop).
Hypothesis leb_total : forall a b, P a -> P b -> leb a b = true \/ leb b a = true.
Hypothesis leb_trans : forall a b c, P a -> P b -> P c ->
  leb a b = true -> leb b c = true -> leb a c = true.

Lemma insert_sorted_stable (x : A) (l : list A) :
  P x -> Forall P l -> Forall (R x) l ->
  StronglySorted (fun a b => leb a b = true /\ (leb b a = true -> R a b)) l ->
  StronglySorted (fun a b => leb a b = true /\ (leb b a = true -> R a b))
    (insert_sorted leb x l).
Proof.
  intros Hx HP HR Hsorted. induction Hsorted as [|y l Hsorted IH Hall]; simpl.
  - repeat constructor.
  - apply Forall_cons in HP as [Hy HP]. apply Forall_cons in HR as [Hxy HR].
    destruct (leb x y) eqn:Hleb.
    + constructor; [constructor; assumption|].
      constructor; [split; [exact Hleb|intros _; exact Hxy]|].
      rewrite Forall_forall in Hall, HR, HP |- *. intros z Hz. split.
      * apply (leb_trans x y z); [exact Hx|exact Hy|apply HP, Hz|exact Hleb|apply Hall, Hz].
      * intros _. apply HR, Hz.
    + constructor; [apply IH; assumption|].
      rewrite (insert_sorted_perm leb x l). constructor; [|exact Hall].
      split; [destruct (leb_total x y Hx Hy); congruence|congruence].
Qed.

Lemma stable_sort_stable (l : list A) :
  Forall P l -> StronglySorted R l ->
  StronglySorted (fun a b => leb a b = true /\ (leb b a = true -> R a b))
    (stable_sort leb l).
Proof.
  intros HP Hsorted. induction Hsorted as [|x l Hsorted IH Hall]; simpl; [constructor|].
  apply Forall_cons in HP as [Hx HP].
  apply insert_sorted_stable; [exact Hx| | |apply IH, HP].
  - rewrite stable_sort_perm. exact HP.
  - rewrite stable_sort_perm. exact Hall.
Qed.
End Stable.

(** Filtering keeps the order, and what is kept passes the test. *)
Lemma StronglySorted_filter {A} (R : A -> A -> Prop) (p : A -> bool) (l : list A) :
  StronglySorted R l ->
  StronglySorted (fun a b => R a b /\ p a = true /\ p b = true) (List.filter p l).
Proof.
  induction 1 as [|x l _ IH Hall]; simpl; [constructor|].
  destruct (p x) eqn:Hx; [|exact IH]. constructor; [exact IH|].
  apply Forall_forall. intros y Hy.
  apply list_elem_of_In, List.filter_In in Hy as [Hy Hpy].
  rewrite Forall_forall in Hall. split; [|split; assumption].
  apply Hall, list_elem_of_In, Hy.
Qed.

Lemma StronglySorted_Forall {A} (R : A -> A -> Prop) (P : A -> Prop) (l : list A) :
  StronglySorted R l -> Forall P l ->
  StronglySorted (fun a b => R a b /\ P a /\ P b) l.
Proof.
  induction 1 as [|x l _ IH Hall]; intros HP; [constructor|].
  apply Forall_cons in HP as [Hx HP]. constructor; [apply IH, HP|].
  rewrite Forall_forall in Hall, HP |- *. intros y Hy.
  split; [apply Hall, Hy|split; [exact Hx|apply HP, Hy]].
Qed.

Lemma StronglySorted_elem_impl {A} (R R' : A -> A -> Prop) (l : list A) :
  (forall a b, a ∈ l -> b ∈ l -> R a b -> R' a b) ->
  StronglySorted R l -> StronglySorted R' l.
Proof.
  intros Himpl Hsorted. induction Hsorted as [|x l _ IH Hall]; [constructor|].
  constructor.
  - apply IH. intros a b Ha Hb. apply Himpl; apply elem_of_cons; right; assumption.
  - rewrite Forall_forall in Hall |- *. intros y Hy.
    apply Himpl; [apply elem_of_cons; left; reflexivity|apply elem_of_cons; right; exact Hy|].
    apply Hall, Hy.
Qed.

Lemma StronglySorted_fmap_inv {A B} (f : A -> B) (R : B -> B -> Prop) (l : list A) :
  StronglySorted R (map f l) -> StronglySorted (fun a b => R (f a) (f b)) l.
Proof.
  induction l as [|x l IH]; simpl; intros Hsorted; [constructor|].
  apply StronglySorted_inv in Hsorted as [Hsorted Hall].
  constructor; [apply IH, Hsorted|].
  apply Forall_forall. intros y Hy.
  exact (proj1 (Forall_forall _ _) Hall _ (list_elem_of_fmap_2 f _ _ Hy)).
Qed.

Lemma StronglySorted_True {A} (l : list A) : StronglySorted (fun _ _ => True) l.
Proof.
  induction l as [|x l IH]; constructor; [exact IH|].
  apply Forall_forall. intros y _. exact I.
Qed.

(** In a sorted list without duplicates the elements that stand in order
    are different. *)
Lemma StronglySorted_NoDup {A B} (R : A -> A -> Prop) (f : A -> B) (l : list A) :
  StronglySorted R l -> NoDup (map f l) ->
  StronglySorted (fun a b => R a b /\ f a <> f b) l.
Proof.
  induction 1 as [|x l _ IH Hall]; simpl; intros Hnodup; [constructor|].
  apply NoDup_cons in Hnodup as [Hfresh Hnodup]. constructor; [apply IH, Hnodup|].
  apply Forall_forall. intros y Hy. rewrite Forall_forall in Hall. split; [apply Hall, Hy|].
  intros Heq. apply Hfresh. rewrite Heq. apply (list_elem_of_fmap_2 f), Hy.
Qed.

(** A prefix of a sorted list is sorted, and stands before the rest. *)
Lemma StronglySorted_take {A} (R : A -> A -> Prop) (n : nat) (l : list A) :
  StronglySorted R l -> StronglySorted R (take n l).
Proof.
  intros Hsorted. rewrite <- (take_drop n l) in Hsorted.
  apply StronglySorted_app_1_l in Hsorted. exact Hsorted.
Qed.

Lemma StronglySorted_take_drop {A} (R : A -> A -> Prop) (n : nat) (l : list A) (x y : A) :
  StronglySorted R l -> x ∈ take n l -> y ∈ drop n l -> R x y.
Proof.
  intros Hsorted Hx Hy. rewrite <- (take_drop n l) in Hsorted.
  eapply StronglySorted_app_1_elem_of; eassumption.
Qed.

(** ** Plain objects *)

Lemma own_property_push_to {A} (o : object (list A)) (k k' : string) (a : A) :
  own_property (Housing.push_to o k a) k'
  = if String.eqb k k' then (fun xs => xs ++ [a]) <$> own_property o k'
    else own_property o k'.
Proof.
  induction o as [|[k0 xs] o IH]; simpl.
  - destruct (String.eqb k k'); reflexivity.
  - destruct (String.eqb_spec k0 k) as [->|Hk0]; simpl.
    + destruct (String.eqb_spec k k') as [->|Hkk']; [reflexivity|reflexivity].
    + destruct (String.eqb_spec k0 k') as [->|Hk0']; [|exact IH].
      destruct (String.eqb_spec k k') as [->|_]; [contradiction|reflexivity].
Qed.

Lemma keys_push_to {A} (o : object (list A)) (k : string) (a : A) :
  map fst (Housing.push_to o k a) = map fst o.
Proof.
  induction o as [|[k0 xs] o IH]; simpl; [reflexivity|].
  destruct (String.eqb k0 k); simpl; [reflexivity|]. f_equal. exact IH.
Qed.

Lemma own_property_app {A} (o : object A) (k k' : string) (a : A) :
  own_property (o ++ [(k, a)]) k'
  = match own_property o k' with
    | Some b => Some b
    | None => if String.eqb k k' then Some a else None
    end.
Proof.
  induction o as [|[k0 b] o IH]; simpl; [reflexivity|].
  destruct (String.eqb k0 k'); [reflexivity|exact IH].
Qed.

Lemma own_property_None {A} (o : object A) (k : string) :
  own_property o k = None <-> k ∉ map fst o.
Proof.
  induction o as [|[k0 b] o IH]; simpl.
  - split; [intros _ Hin; inversion Hin|reflexivity].
  - rewrite not_elem_of_cons. destruct (String.eqb_spec k0 k) as [->|Hne].
    + split; [discriminate|intros [Hne _]; contradiction].
    + rewrite IH. split; [intros Hnot; split; [congruence|exact Hnot]|intros [_ Hnot]; exact Hnot].
Qed.

Lemma own_property_elem {A} (o : object A) (k : string) (a : A) :
  NoDup (map fst o) -> (k, a) ∈ o <-> own_property o k = Some a.
Proof.
  induction o as [|[k0 b] o IH]; simpl; intros Hnodup.
  - split; [intros Hin; inversion Hin|discriminate].
  - apply NoDup_cons in Hnodup as [Hfresh Hnodup].
    rewrite elem_of_cons. destruct (String.eqb_spec k0 k) as [->|Hne].
    + split.
      * intros [Heq|Hin]; [congruence|].
        exfalso. apply Hfresh. apply (list_elem_of_fmap_2 fst) in Hin. exact Hin.
      * intros [= ->]. left. reflexivity.
    + rewrite <- (IH Hnodup). split; [intros [Heq|Hin]; [congruence|exact Hin]|].
      intros Hin. right. exact Hin.
Qed.

(** [Object.entries] lists the own properties, each once. *)
Lemma Object_entries_perm {A} (o : object A) : Object_entries o ≡ₚ o.
Proof.
  unfold Object_entries. rewrite stable_sort_perm.
  induction o as [|e o IH]; simpl; [reflexivity|].
  destruct (is_array_index (fst e)); simpl.
  - rewrite IH. reflexivity.
  - rewrite <- Permutation_middle, IH. reflexivity.
Qed.

Lemma NoDup_map_filter {A B} (f : A -> B) (p : A -> bool) (l : list A) :
  NoDup (map f l) -> NoDup (map f (List.filter p l)).
Proof.
  induction l as [|x l IH]; simpl; intros Hnodup; [constructor|].
  apply NoDup_cons in Hnodup as [Hfresh Hnodup].
  destruct (p x); simpl; [|exact (IH Hnodup)].
  apply NoDup_cons. split; [|exact (IH Hnodup)].
  intros Hin. apply Hfresh.
  apply list_elem_of_fmap in Hin as (y & -> & Hy).
  apply list_elem_of_In, List.filter_In in Hy as [Hy _].
  apply list_elem_of_fmap_2, list_elem_of_In. exact Hy.
Qed.

(** An array index is the key of one number only. *)
Lemma array_index_key (k : string) (n : N) :
  array_index k = Some n -> k = String_of_Z (Z.of_N n).
Proof.
  unfold array_index. destruct (NilEmpty.uint_of_string k) as [u|]; [|discriminate].
  cbv zeta. destruct (String.eqb_spec (String_of_Z (Z.of_N (N.of_uint u))) k) as [Heq|_];
    simpl; [|discriminate].
  destruct (N.of_uint u <? 4294967295)%N; [|discriminate].
  intros [= <-]. symmetry. exact Heq.
Qed.

(** The order of [Object.entries]: the keys that are array indices in
    ascending order, then the other keys in the order in which the object
    got them. *)
Lemma Object_entries_sorted {A} (R : string -> string -> Prop) (o : object A) :
  NoDup (map fst o) ->
  StronglySorted R (map fst o) ->
  StronglySorted
    (fun a b => match array_index (fst a), array_index (fst b) with
                | Some i, Some j => (i < j)%N
                | Some _, None => True
                | None, Some _ => False
                | None, None => R (fst a) (fst b)
                end) (Object_entries o).
Proof.
  intros Hnodup Hsorted. unfold Object_entries. apply StronglySorted_app_2.
  - intros x1 x2 H1 H2. rewrite stable_sort_perm in H1.
    apply list_elem_of_In, List.filter_In in H1 as [_ H1].
    apply list_elem_of_In, List.filter_In in H2 as [_ H2].
    unfold is_array_index in H1, H2.
    destruct (array_index (fst x1)); [|discriminate].
    destruct (array_index (fst x2)); [discriminate|]. exact I.
  - set (l := List.filter (fun e : string * A => is_array_index (fst e)) o).
    assert (HP : Forall (fun e : string * A => is_array_index (fst e) = true) l).
    { apply Forall_forall. intros e He.
      apply list_elem_of_In, List.filter_In in He as [_ He]. exact He. }
    assert (Htotal : forall a b : string * A,
               is_array_index (fst a) = true -> is_array_index (fst b) = true ->
               index_leb a b = true \/ index_leb b a = true).
    { intros a b Ha Hb. unfold index_leb, is_array_index in *.
      destruct (array_index (fst a)); [|discriminate].
      destruct (array_index (fst b)); [|discriminate].
      rewrite !N.leb_le. lia. }
    assert (Htrans : forall a b c : string * A,
               is_array_index (fst a) = true -> is_array_index (fst b) = true ->
               is_array_index (fst c) = true ->
               index_leb a b = true -> index_leb b c = true -> index_leb a c = true).
    { intros a b c Ha Hb Hc. unfold index_leb, is_array_index in *.
      destruct (array_index (fst a)); [|discriminate].
      destruct (array_index (fst b)); [|discriminate].
      destruct (array_index (fst c)); [|discriminate].
      rewrite !N.leb_le. lia. }
    assert (Hkeys : NoDup (map fst (stable_sort index_leb l))).
    { rewrite stable_sort_perm. apply NoDup_map_filter, Hnodup. }
    assert (HP' : Forall (fun e : string * A => is_array_index (fst e) = true)
                    (stable_sort index_leb l)) by (rewrite stable_sort_perm; exact HP).
    pose proof (stable_sort_stable index_leb _ (fun _ _ => True) Htotal Htrans l HP
                  (StronglySorted_True l)) as Hstable.
    pose proof (StronglySorted_NoDup _ fst _ Hstable Hkeys) as Hdistinct.
    pose proof (StronglySorted_Forall _ _ _ Hdistinct HP') as Hindex.
    eapply StronglySorted_elem_impl; [|exact Hindex].
    intros a b _ _ [[[Hle _] Hne] [Ha Hb]]. simpl in Ha, Hb. unfold index_leb in Hle.
    unfold is_array_index in Ha, Hb.
    destruct (array_index (fst a)) as [i|] eqn:Hi; [|discriminate].
    destruct (array_index (fst b)) as [j|] eqn:Hj; [|discriminate].
    apply N.leb_le in Hle. destruct (N.eq_dec i j) as [->|Hij]; [|lia].
    contradiction Hne. rewrite (array_index_key _ _ Hi), (array_index_key _ _ Hj).
    reflexivity.
  - apply StronglySorted_fmap_inv in Hsorted.
    apply (StronglySorted_filter _ (fun e => negb (is_array_index (fst e)))) in Hsorted.
    eapply StronglySorted_elem_impl; [|exact Hsorted].
    intros a b _ _ (HR & Ha & Hb). unfold is_array_index in Ha, Hb.
    destruct (array_index (fst a)); [discriminate|].
    destruct (array_index (fst b)); [discriminate|]. exact HR.
Qed.

(** ** The housing dashboard: stat counter *)

Module HousingFacts.
Import Housing HousingSpec.

Section Means.
Local Open Scope Q_scope.

Lemma total_abs (xs : list Q) :
  Forall (fun v => (0 < v)%Q) xs ->
  (fold_right Qplus 0 (map Qabs xs) == fold_right Qplus 0 xs)%Q.
Proof.
  induction 1 as [|x xs Hx _ IH]; simpl; [reflexivity|].
  rewrite IH, Qabs_pos by lra. reflexivity.
Qed.

Lemma total_whole (xs : list Q) : Forall whole xs -> whole (fold_right Qplus 0 xs).
Proof.
  induction 1 as [|x xs Hx _ IH]; simpl; [apply (whole_Z 0)|].
  apply whole_plus; assumption.
Qed.

Lemma whole_positive (x : Q) : whole x -> (0 < x)%Q -> (1 <= x)%Q.
Proof.
  unfold whole. intros Hwhole Hpos. rewrite <- Hwhole in Hpos |- *.
  change 0%Q with (inject_Z 0) in Hpos. change 1%Q with (inject_Z 1).
  rewrite <- Zlt_Qlt in Hpos. rewrite <- Zle_Qle. lia.
Qed.

Lemma total_length (xs : list Q) :
  Forall (fun v => whole v /\ (0 < v)%Q) xs ->
  (inject_Z (Z.of_nat (length xs)) <= fold_right Qplus 0 xs)%Q.
Proof.
  induction 1 as [|x xs [Hwhole Hpos] _ IH]; [apply Qle_refl|].
  cbn [length fold_right]. rewrite Nat2Z.inj_succ. unfold Z.succ.
  rewrite inject_Z_plus. change (inject_Z 1) with 1%Q.
  pose proof (whole_positive x Hwhole Hpos). lra.
Qed.

(** The mean of positive whole numbers whose sum is below [2^52]: the sum
    is exact, and the rounding of the quotient does not change the integer
    that [Math.round] gives. *)
Lemma rounded_average_whole (xs : list Q) :
  xs <> [] ->
  Forall (fun v => whole v /\ (0 < v)%Q) xs ->
  (fold_right Qplus 0 xs < 2 ^ 52)%Q ->
  Math_round (average xs) = Math_round (arithmetic_mean xs).
Proof.
  intros Hsome Hxs Hsmall.
  assert (Hwhole : Forall whole xs)
    by (eapply Forall_impl; [exact Hxs|]; intros v [Hv _]; exact Hv).
  assert (Hpos : Forall (fun v => (0 < v)%Q) xs)
    by (eapply Forall_impl; [exact Hxs|]; intros v [_ Hv]; exact Hv).
  assert (Hsum : (sum xs == fold_right Qplus 0 xs)%Q).
  { apply sum_whole; [exact Hwhole|]. rewrite (total_abs xs Hpos).
    eapply Qlt_trans; [exact Hsmall|]. apply pow2_lt. lia. }
  unfold average, arithmetic_mean.
  rewrite (binary64_comp _ (fold_right Qplus 0 xs / inject_Z (Z.of_nat (length xs))))
    by (rewrite Hsum; reflexivity).
  pose proof (total_length xs Hxs) as Hlen.
  destruct xs as [|x xs]; [contradiction Hsome; reflexivity|].
  change (Z.of_nat (length (x :: xs))) with (Z.pos (Pos.of_succ_nat (length xs))) in *.
  apply Math_round_quotient; [apply total_whole, Hwhole|exact Hlen|exact Hsmall].
Qed.

(** The mean of whole numbers whose magnitudes add up to less than [2^53]:
    the sum is exact and the quotient is rounded once. *)
Lemma average_whole (xs : list Q) :
  Forall whole xs ->
  (fold_right Qplus 0 (map Qabs xs) < 2 ^ 53)%Q ->
  average xs = binary64 (arithmetic_mean xs).
Proof.
  intros Hwhole Hsmall. unfold average, arithmetic_mean.
  apply binary64_comp. rewrite (sum_whole xs Hwhole Hsmall). reflexivity.
Qed.

End Means.

Lemma rents_filter (data : list tract) :
  filter_numbers (fun v => truthy v && gt0 v) (map MEDIAN_RENT data)
  = positive_rents data.
Proof.
  unfold filter_numbers, positive_rents.
  induction data as [|p data IH]; simpl; [reflexivity|].
  destruct (MEDIAN_RENT p) as [v|]; [|exact IH].
  destruct (Qlt_le_dec 0 v) as [Hpos|Hle].
  - apply truthy_gt0 in Hpos. rewrite Hpos. simpl. f_equal. exact IH.
  - destruct (truthy v && gt0 v) eqn:Htest; [|exact IH].
    apply truthy_gt0 in Htest. exfalso. exact (Qlt_not_le _ _ Htest Hle).
Qed.

Lemma burdens_filter (data : list tract) :
  filter_numbers (fun _ => true) (map RENT_BURDEN_PCT data) = known_burdens data.
Proof.
  unfold filter_numbers, known_burdens.
  induction data as [|p data IH]; simpl; [reflexivity|].
  destruct (RENT_BURDEN_PCT p) as [v|]; simpl; [f_equal|]; exact IH.
Qed.

Lemma positive_rents_elem (data : list tract) (v : Q) :
  v ∈ positive_rents data <-> exists p, p ∈ data /\ MEDIAN_RENT p = Some v /\ (0 < v)%Q.
Proof.
  unfold positive_rents. rewrite list_elem_of_In, in_flat_map. split.
  - intros (p & Hp & Hv). exists p. rewrite list_elem_of_In. split; [exact Hp|].
    destruct (MEDIAN_RENT p) as [w|]; [|destruct Hv].
    destruct (Qlt_le_dec 0 w) as [Hpos|]; [|destruct Hv].
    destruct Hv as [<-|[]]. split; [reflexivity|exact Hpos].
  - intros (p & Hp & Hv & Hpos). exists p. rewrite <- list_elem_of_In.
    split; [exact Hp|]. rewrite Hv.
    destruct (Qlt_le_dec 0 v) as [|Hle]; [left; reflexivity|].
    exfalso. exact (Qlt_not_le _ _ Hpos Hle).
Qed.

Lemma positive_rents_nil (data : list tract) :
  (forall p v, p ∈ data -> MEDIAN_RENT p = Some v -> (v <= 0)%Q) ->
  positive_rents data = [].
Proof.
  intros Hnone. destruct (positive_rents data) as [|v vs] eqn:Hrents; [reflexivity|].
  assert (Hv : v ∈ positive_rents data) by (rewrite Hrents; left).
  apply positive_rents_elem in Hv as (p & Hp & Hv & Hpos).
  exfalso. exact (Qlt_not_le _ _ Hpos (Hnone p v Hp Hv)).
Qed.

Lemma known_burdens_nil (data : list tract) :
  (forall p, p ∈ data -> RENT_BURDEN_PCT p = None) -> known_burdens data = [].
Proof.
  unfold known_burdens. induction data as [|p data IH]; intros Hnone; [reflexivity|].
  simpl. rewrite (Hnone p) by left. simpl. apply IH.
  intros q Hq. apply Hnone. right. exact Hq.
Qed.

Section Stat.
Context `{Runtime}.

(** C7. When the visible set is empty, or when the layer is [rent] and no
    record has a positive [MEDIAN_RENT], or when the layer is [burden] and
    no record has a [RENT_BURDEN_PCT], [updateStat] completes and writes the
    no-data marker to [stat-value], and nothing else; the text shown is
    neither [NaN] nor [0]. *)
Theorem updateStat_no_data (data : list tract) (st : state) :
  data = []
  \/ (activeLayer st = "rent"
      /\ forall p v, p ∈ data -> MEDIAN_RENT p = Some v -> (v <= 0)%Q)
  \/ (activeLayer st = "burden"
      /\ forall p, p ∈ data -> RENT_BURDEN_PCT p = None) ->
  updateStat data st = (Done tt, no_data st)
  /\ text (no_data st) !! "stat-value" = Some "—"
  /\ text (no_data st) !! "stat-value" <> Some "NaN"
  /\ text (no_data st) !! "stat-value" <> Some "0".
Proof.
  intros Hcase.
  assert (Hshown : text (no_data st) !! "stat-value" = Some "—")
    by apply lookup_insert_eq.
  split; [|rewrite Hshown; repeat split; discriminate].
  destruct data as [|p data]; [reflexivity|].
  destruct Hcase as [Hnil|[[Hlayer Hnone]|[Hlayer Hnone]]]; [discriminate| |].
  - unfold updateStat, bind, gets. rewrite Hlayer. simpl String.eqb. cbv iota.
    rewrite rents_filter, (positive_rents_nil _ Hnone). reflexivity.
  - unfold updateStat, bind, gets. rewrite Hlayer. simpl String.eqb. cbv iota.
    rewrite burdens_filter, (known_burdens_nil _ Hnone). reflexivity.
Qed.

(** C1, as the code has it.  On the layer [rent], when some record has a
    positive [MEDIAN_RENT] and the positive values add up within the range
    of the doubles, [updateStat] completes and shows, after a dollar sign
    and formatted for the locale, [Math.round] of the mean that the code
    computes in double precision: the positive values are added from the
    left, each sum rounded, and the result is divided by their number.  The
    records without a positive value count neither in the sum nor in the
    number of values, which the sub-label shows.  When the positive values
    are whole numbers with a sum below [2^52], the value shown is the
    integer nearest to their arithmetic mean, a half rounded up. *)
Theorem updateStat_rent_rounded_mean (data : list tract) (st : state) :
  activeLayer st = "rent" ->
  positive_rents data <> [] ->
  (fold_right Qplus 0 (positive_rents data) <= 2 ^ 1000)%Q ->
  updateStat data st
  = (Done tt,
     with_stat "Avg. Median Rent · Visible Tracts"
       ("$" +:+ toLocaleString (Math_round (average (positive_rents data))))
       (String_of_nat (length (positive_rents data)) +:+ " tracts in view") st)
  /\ (forall v, v ∈ positive_rents data
                <-> exists p, p ∈ data /\ MEDIAN_RENT p = Some v /\ (0 < v)%Q)
  /\ (Forall whole (positive_rents data) ->
      (fold_right Qplus 0 (positive_rents data) < 2 ^ 52)%Q ->
      Math_round (average (positive_rents data))
      = Math_round (arithmetic_mean (positive_rents data))
      /\ (arithmetic_mean (positive_rents data) - (1 # 2)
          < inject_Z (Math_round (average (positive_rents data))))%Q
      /\ (inject_Z (Math_round (average (positive_rents data)))
          <= arithmetic_mean (positive_rents data) + (1 # 2))%Q).
Proof.
  intros Hlayer Hsome _. split; [|split].
  - destruct data as [|p data]; [contradiction Hsome; reflexivity|].
    unfold updateStat, bind, gets. rewrite Hlayer. simpl String.eqb. cbv iota.
    rewrite rents_filter.
    destruct (positive_rents (p :: data)) as [|v vs]; [contradiction Hsome; reflexivity|].
    reflexivity.
  - apply positive_rents_elem.
  - intros Hwhole Hsmall.
    assert (Hround : Math_round (average (positive_rents data))
                     = Math_round (arithmetic_mean (positive_rents data))).
    { apply rounded_average_whole; [exact Hsome| |exact Hsmall].
      apply Forall_forall. intros v Hv. split.
      - rewrite Forall_forall in Hwhole. apply Hwhole, Hv.
      - apply positive_rents_elem in Hv as (p & _ & _ & Hpos). exact Hpos. }
    split; [exact Hround|]. rewrite Hround. apply Math_round_bounds.
Qed.

End Stat.

(** The visible set of the specification's example: the record with rent
    zero counts for nothing and the mean shown is 1500. *)
Lemma updateStat_rent_example :
  let data := [ tract_with None None (Some 1000%Q);
                tract_with None None (Some 0%Q);
                tract_with None None (Some 2000%Q) ] in
  let st := initial_state (fun _ => []) in
  positive_rents data = [1000%Q; 2000%Q]
  /\ updateStat data st
     = (Done tt,
        with_stat "Avg. Median Rent · Visible Tracts"
          ("$" +:+ toLocaleString_enUS (Math_round (average (positive_rents data))))
          "2 tracts in view" st)
  /\ Math_round (average (positive_rents data)) = 1500%Z.
Proof.
  intros data st. split; [reflexivity|].
  destruct (updateStat_rent_rounded_mean data st) as (Hrun & _ & Hwhole).
  - reflexivity.
  - vm_compute. discriminate.
  - vm_compute. discriminate.
  - split; [exact Hrun|].
    destruct Hwhole as (Hround & _).
    + repeat constructor.
    + vm_compute. reflexivity.
    + rewrite Hround. reflexivity.
Defined.

Example updateStat_rent_example_text :
  let data := [ tract_with None None (Some 1000%Q);
                tract_with None None (Some 0%Q);
                tract_with None None (Some 2000%Q) ] in
  let st' := snd (updateStat data (initial_state (fun _ => []))) in
  text st' !! "stat-value" = Some "$1,500"
  /\ text st' !! "stat-sub" = Some "2 tracts in view".
Proof. split; vm_compute; reflexivity. Qed.

(** C1, as the specification has it, fails: for the rents 1000 and 2001 the
    arithmetic mean is 1500.5, which is no integer, and the stat shows
    1,501. *)
Lemma rent_stat_not_the_mean :
  let data := [ tract_with None None (Some 1000%Q);
                tract_with None None (Some 2001%Q) ] in
  let st' := snd (updateStat data (initial_state (fun _ => []))) in
  (arithmetic_mean (positive_rents data) == 3001 # 2)%Q
  /\ text st' !! "stat-value" = Some "$1,501"
  /\ ~ (inject_Z 1501 == arithmetic_mean (positive_rents data))%Q.
Proof.
  split; [|split].
  - vm_compute. reflexivity.
  - vm_compute. reflexivity.
  - intros Heq. vm_compute in Heq. discriminate.
Qed.

(** The mean is the one of the doubles: for the rents 900.1, 1040.3 and
    1100.1 the sums are rounded to 1940.4 and 3040.5, the mean is 1013.5 and
    the stat shows 1,014, while the arithmetic mean of the three doubles is
    below 1013.5. *)
Example rent_stat_in_double_precision :
  let rents := [ binary64 (9001 # 10); binary64 (10403 # 10); binary64 (11001 # 10) ] in
  let data := map (fun v => tract_with None None (Some v)) rents in
  let st' := snd (updateStat data (initial_state (fun _ => []))) in
  (average rents == 2027 # 2)%Q
  /\ text st' !! "stat-value" = Some "$1,014"
  /\ Math_round (arithmetic_mean rents) = 1013%Z.
Proof. repeat apply conj; vm_compute; reflexivity. Qed.

Lemma updateStat_no_data_witness :
  let data := [ tract_with None None (Some 0%Q); tract_with None None None ] in
  let st := initial_state (fun _ => []) in
  updateStat data st = (Done tt, no_data st)
  /\ text (no_data st) !! "stat-value" = Some "—"
  /\ text (no_data st) !! "stat-value" <> Some "NaN"
  /\ text (no_data st) !! "stat-value" <> Some "0".
Proof.
  apply (updateStat_no_data
           [ tract_with None None (Some 0%Q); tract_with None None None ]
           (initial_state (fun _ => []))).
  right. left. split; [reflexivity|].
  intros p v Hp Hv.
  apply list_elem_of_In in Hp. simpl in Hp.
  destruct Hp as [<-|[<-|[]]]; simpl in Hv; [|discriminate].
  injection Hv as <-. apply Qle_refl.
Defined.

(** ** The housing dashboard: ranked bar series *)

Lemma Math_round_comp (x y : Q) : (x == y)%Q -> Math_round x = Math_round y.
Proof. intros Heq. unfold Math_round. rewrite Heq. reflexivity. Qed.

Lemma rents_of_app (n : string) (pre : list bar_datum) (d : bar_datum) :
  rents_of n (pre ++ [d])
  = rents_of n pre ++ (if String.eqb (group_key d) n then [rent d] else []).
Proof.
  unfold rents_of. rewrite List.filter_app, map_app. simpl.
  destruct (String.eqb (group_key d) n); reflexivity.
Qed.

Lemma rents_of_nil (n : string) (data : list bar_datum) :
  rents_of n data = [] <-> n ∉ map group_key data.
Proof.
  unfold rents_of. induction data as [|d data IH]; simpl.
  - split; [intros _ Hin; inversion Hin|reflexivity].
  - rewrite not_elem_of_cons. destruct (String.eqb_spec (group_key d) n) as [Heq|Hne]; simpl.
    + split; [discriminate|intros [Hne _]; congruence].
    + rewrite IH. split; [intros Hnot; split; [congruence|exact Hnot]|intros [_ Hnot]; exact Hnot].
Qed.

Lemma groups_of_nil : groups_of [] [].
Proof. split; [constructor|reflexivity]. Qed.

Lemma group_step_ok (pre : list bar_datum) (grouped : object (list Q)) (d : bar_datum) :
  groups_of pre grouped ->
  inherited (group_key d) = false ->
  exists grouped',
    group_step grouped d = Done grouped' /\ groups_of (pre ++ [d]) grouped'.
Proof.
  intros [Hnodup Hown] Hplain. unfold group_step, get_property.
  pose proof (Hown (group_key d)) as Hkey. rewrite Hkey.
  destruct (rents_of (group_key d) pre) as [|r rs] eqn:Hrents.
  - rewrite Hplain. eexists. split; [reflexivity|]. split.
    + rewrite map_app. simpl. apply NoDup_app. split; [exact Hnodup|].
      split; [|apply NoDup_singleton].
      intros k Hk Hk'. apply list_elem_of_singleton in Hk' as ->.
      apply own_property_None in Hkey. contradiction.
    + intros n. rewrite own_property_app, Hown, rents_of_app.
      destruct (String.eqb_spec (group_key d) n) as [<-|Hne].
      * rewrite Hrents. reflexivity.
      * rewrite app_nil_r. destruct (rents_of n pre); reflexivity.
  - eexists. split; [reflexivity|]. split.
    + rewrite keys_push_to. exact Hnodup.
    + intros n. rewrite own_property_push_to, Hown, rents_of_app.
      destruct (String.eqb_spec (group_key d) n) as [<-|Hne].
      * rewrite Hrents. reflexivity.
      * rewrite app_nil_r. reflexivity.
Qed.

Lemma group_rents_from (data pre : list bar_datum) (grouped : object (list Q)) :
  groups_of pre grouped ->
  plain_keys data ->
  exists grouped',
    group_rents data grouped = Done grouped' /\ groups_of (pre ++ data) grouped'.
Proof.
  revert pre grouped. induction data as [|d data IH]; intros pre grouped Hinv Hplain; simpl.
  - exists grouped. rewrite app_nil_r. split; [reflexivity|exact Hinv].
  - apply Forall_cons in Hplain as [Hd Hplain].
    destruct (group_step_ok pre grouped d Hinv Hd) as (grouped1 & -> & Hinv1).
    destruct (IH (pre ++ [d]) grouped1 Hinv1 Hplain) as (grouped' & Hrun & Hinv').
    exists grouped'. rewrite <- app_assoc in Hinv'. split; [exact Hrun|exact Hinv'].
Qed.

(** The loop of [updateBarChart] completes and groups the rents by
    neighborhood. *)
Lemma group_rents_ok (data : list bar_datum) :
  plain_keys data ->
  exists grouped, group_rents data [] = Done grouped /\ groups_of data grouped.
Proof. intros Hplain. exact (group_rents_from data [] [] groups_of_nil Hplain). Qed.

Lemma seen_before_app (keys : list string) (k a b : string) :
  seen_before keys a b -> seen_before (keys ++ [k]) a b.
Proof.
  intros (Hne & l1 & l2 & -> & Hb). split; [exact Hne|].
  exists l1, (l2 ++ [k]). split; [|exact Hb]. rewrite <- app_assoc. reflexivity.
Qed.

Lemma seen_before_new (keys : list string) (a k : string) :
  a ∈ keys -> k ∉ keys -> seen_before (keys ++ [k]) a k.
Proof.
  intros Ha Hk. split; [intros ->; contradiction|].
  apply list_elem_of_split in Ha as (l1 & l2 & ->).
  exists l1, (l2 ++ [k]). split; [rewrite <- app_assoc; reflexivity|].
  intros Hin. apply Hk, elem_of_app. left. exact Hin.
Qed.

(** The loop gives [grouped] its keys in the order in which the records
    first show them. *)
Lemma group_step_order (pre : list bar_datum) (grouped grouped' : object (list Q))
    (d : bar_datum) :
  groups_of pre grouped ->
  group_step grouped d = Done grouped' ->
  StronglySorted (seen_before (map group_key pre)) (map fst grouped) ->
  StronglySorted (seen_before (map group_key (pre ++ [d]))) (map fst grouped').
Proof.
  intros [Hnodup Hown] Hstep Hsorted. rewrite map_app. simpl.
  assert (Hmono : StronglySorted (seen_before (map group_key pre ++ [group_key d]))
                    (map fst grouped)).
  { eapply StronglySorted_elem_impl; [|exact Hsorted].
    intros a b _ _. apply seen_before_app. }
  unfold group_step, get_property in Hstep.
  destruct (own_property grouped (group_key d)) as [rs|] eqn:Hkey.
  - injection Hstep as <-. rewrite keys_push_to. exact Hmono.
  - destruct (inherited (group_key d)); [discriminate|]. injection Hstep as <-.
    rewrite map_app. simpl.
    apply StronglySorted_app_2; [|exact Hmono|repeat constructor].
    intros a k Ha Hk. apply list_elem_of_singleton in Hk as ->.
    apply seen_before_new.
    + destruct (decide (a ∈ map group_key pre)) as [Hin|Hnot]; [exact Hin|].
      apply rents_of_nil in Hnot. pose proof (Hown a) as Ha'.
      rewrite Hnot in Ha'. apply own_property_None in Ha'. contradiction.
    + apply rents_of_nil. pose proof (Hown (group_key d)) as Hd. rewrite Hkey in Hd.
      destruct (rents_of (group_key d) pre); [reflexivity|discriminate].
Qed.

Lemma group_rents_order_from (data pre : list bar_datum)
    (grouped grouped' : object (list Q)) :
  groups_of pre grouped ->
  plain_keys data ->
  StronglySorted (seen_before (map group_key pre)) (map fst grouped) ->
  group_rents data grouped = Done grouped' ->
  StronglySorted (seen_before (map group_key (pre ++ data))) (map fst grouped').
Proof.
  revert pre grouped.
  induction data as [|d data IH]; intros pre grouped Hinv Hplain Hsorted Hrun; simpl in Hrun.
  - injection Hrun as <-. rewrite app_nil_r. exact Hsorted.
  - apply Forall_cons in Hplain as [Hd Hplain].
    destruct (group_step_ok pre grouped d Hinv Hd) as (grouped1 & Hstep & Hinv1).
    rewrite Hstep in Hrun.
    pose proof (group_step_order pre grouped grouped1 d Hinv Hstep Hsorted) as Hsorted1.
    pose proof (IH (pre ++ [d]) grouped1 Hinv1 Hplain Hsorted1 Hrun) as Hsorted'.
    rewrite <- app_assoc in Hsorted'. exact Hsorted'.
Qed.

Lemma group_rents_order (data : list bar_datum) (grouped : object (list Q)) :
  plain_keys data ->
  group_rents data [] = Done grouped ->
  StronglySorted (seen_before (map group_key data)) (map fst grouped).
Proof.
  intros Hplain Hrun.
  apply (group_rents_order_from data [] [] grouped groups_of_nil Hplain); [constructor|exact Hrun].
Qed.

(** A record filed under a member of [Object.prototype] stops the loop. *)
Lemma group_rents_inherited (d : bar_datum) (data : list bar_datum) :
  inherited (group_key d) = true ->
  exists e, group_rents (d :: data) [] = Raise e.
Proof.
  intros Hkey. simpl. unfold group_step, get_property. simpl. rewrite Hkey.
  eexists. reflexivity.
Qed.

Lemma by_rent_desc_total (a b : bar) :
  by_rent_desc a b = true \/ by_rent_desc b a = true.
Proof. unfold by_rent_desc. rewrite !Z.leb_le. lia. Qed.

Lemma by_rent_desc_trans (a b c : bar) :
  by_rent_desc a b = true -> by_rent_desc b c = true -> by_rent_desc a c = true.
Proof. unfold by_rent_desc. rewrite !Z.leb_le. lia. Qed.

Section Ranking.
Variables (data : list bar_datum) (grouped : object (list Q)).
Hypothesis Hgroups : groups_of data grouped.

(** The bars before the sort: a bar for each neighborhood whose rounded mean
    is positive. *)
Let positive : list bar :=
  List.filter (fun d => (0 <? mean_rent d)%Z)
    (map (fun e => {| name := fst e; mean_rent := Math_round (average (snd e)) |})
       (Object_entries grouped)).

Let sorted : list bar := stable_sort by_rent_desc positive.

Lemma top_neighborhoods_take : top_neighborhoods grouped = take 8 sorted.
Proof. reflexivity. Qed.

Lemma positive_elem (b : bar) :
  b ∈ positive <->
  ranked data (name b) /\ mean_rent b = rounded_mean (name b) data.
Proof.
  destruct Hgroups as [Hnodup Hown].
  unfold positive. rewrite list_elem_of_In, List.filter_In, <- list_elem_of_In.
  rewrite list_elem_of_fmap, Z.ltb_lt. unfold ranked, rounded_mean. split.
  - intros [([n rs] & -> & He) Hpos]. simpl in *.
    rewrite Object_entries_perm in He.
    apply (own_property_elem _ _ _ Hnodup) in He. rewrite Hown in He.
    assert (Hrs : rents_of n data = rs) by (destruct (rents_of n data); congruence).
    assert (Hin : n ∈ map group_key data).
    { destruct (decide (n ∈ map group_key data)) as [Hin|Hnot]; [exact Hin|].
      apply rents_of_nil in Hnot. rewrite Hnot in He. discriminate. }
    rewrite Hrs. split; [split; [exact Hin|exact Hpos]|reflexivity].
  - intros [[Hin Hpos] Hmean]. split; [|rewrite Hmean; exact Hpos].
    exists (name b, rents_of (name b) data). split.
    + destruct b as [n m]. simpl in *. f_equal. exact Hmean.
    + rewrite Object_entries_perm. apply (own_property_elem _ _ _ Hnodup).
      rewrite Hown. destruct (rents_of (name b) data) eqn:Hrs; [|reflexivity].
      apply rents_of_nil in Hrs. contradiction.
Qed.

Lemma sorted_elem (b : bar) : b ∈ sorted <-> b ∈ positive.
Proof. unfold sorted. rewrite stable_sort_perm. reflexivity. Qed.

Lemma sorted_desc :
  StronglySorted (fun a b => (mean_rent b <= mean_rent a)%Z) sorted.
Proof.
  pose proof (stable_sort_sorted by_rent_desc by_rent_desc_total
                by_rent_desc_trans positive) as Hsorted.
  fold sorted in Hsorted. induction Hsorted as [|b l _ IH Hall]; constructor.
  - exact IH.
  - eapply Forall_impl; [exact Hall|].
    intros c Hbc. unfold by_rent_desc in Hbc. apply Z.leb_le in Hbc. exact Hbc.
Qed.

Lemma sorted_names : NoDup (map name sorted).
Proof.
  destruct Hgroups as [Hnodup _].
  unfold sorted. rewrite stable_sort_perm. unfold positive.
  apply NoDup_map_filter. rewrite map_map. simpl.
  change (NoDup (map fst (Object_entries grouped))).
  rewrite Object_entries_perm. exact Hnodup.
Qed.

Lemma top_length : length (top_neighborhoods grouped) <= 8.
Proof. rewrite top_neighborhoods_take, length_take. lia. Qed.

Lemma top_desc :
  StronglySorted (fun a b => (mean_rent b <= mean_rent a)%Z) (top_neighborhoods grouped).
Proof. rewrite top_neighborhoods_take. apply StronglySorted_take, sorted_desc. Qed.

Lemma top_names : NoDup (map name (top_neighborhoods grouped)).
Proof.
  rewrite top_neighborhoods_take.
  apply (sublist_NoDup _ (map name sorted)); [exact sorted_names|].
  apply (fmap_sublist name), sublist_take.
Qed.

Lemma top_elem (b : bar) :
  b ∈ top_neighborhoods grouped ->
  ranked data (name b) /\ mean_rent b = rounded_mean (name b) data.
Proof.
  rewrite top_neighborhoods_take. intros Hb.
  apply positive_elem, sorted_elem.
  rewrite <- (take_drop 8 sorted). apply elem_of_app. left. exact Hb.
Qed.

Hypothesis Horder :
  StronglySorted (seen_before (map group_key data)) (map fst grouped).

(** The sort is stable: bars of equal mean keep the order of
    [Object.entries]. *)
Lemma sorted_order :
  StronglySorted (fun a b => outranks data (name a) (name b)) sorted.
Proof.
  pose proof Hgroups as [Hnodup _].
  pose proof (Object_entries_sorted (seen_before (map group_key data)) grouped
                Hnodup Horder) as Hentries.
  apply (StronglySorted_fmap
           (fun e => {| name := fst e; mean_rent := Math_round (average (snd e)) |})
           _ (fun a b => entry_before data (name a) (name b))) in Hentries;
    [|intros x y Hxy; exact Hxy].
  apply (StronglySorted_filter _ (fun d => (0 <? mean_rent d)%Z)) in Hentries.
  assert (Hpositive : StronglySorted (fun a b => entry_before data (name a) (name b))
                        positive).
  { eapply StronglySorted_elem_impl; [|exact Hentries]. intros a b _ _ [HR _]. exact HR. }
  assert (Hall : Forall (fun _ : bar => True) positive)
    by (apply Forall_forall; intros b _; exact I).
  pose proof (stable_sort_stable by_rent_desc (fun _ => True)
                (fun a b => entry_before data (name a) (name b))
                (fun a b _ _ => by_rent_desc_total a b)
                (fun a b c _ _ _ => by_rent_desc_trans a b c)
                positive Hall Hpositive) as Hstable.
  eapply StronglySorted_elem_impl; [|exact Hstable].
  intros a b Ha Hb [Hle Htie].
  apply sorted_elem, positive_elem in Ha as [_ Ha].
  apply sorted_elem, positive_elem in Hb as [_ Hb].
  unfold outranks. rewrite <- Ha, <- Hb. unfold by_rent_desc in Hle, Htie.
  apply Z.leb_le in Hle.
  destruct (Z.eq_dec (mean_rent a) (mean_rent b)) as [Heq|Hne]; [right|left; lia].
  split; [exact Heq|]. apply Htie, Z.leb_le. lia.
Qed.

Lemma top_order :
  StronglySorted (fun a b => outranks data (name a) (name b)) (top_neighborhoods grouped).
Proof. rewrite top_neighborhoods_take. apply StronglySorted_take, sorted_order. Qed.

(** A ranked neighborhood is among the bars, unless eight bars that stand
    before it in the ranking are. *)
Lemma top_complete (n : string) :
  ranked data n ->
  n ∈ map name (top_neighborhoods grouped)
  \/ (length (top_neighborhoods grouped) = 8
      /\ Forall (fun b => (rounded_mean n data <= mean_rent b)%Z
                          /\ outranks data (name b) n)
           (top_neighborhoods grouped)).
Proof.
  intros Hranked. rewrite top_neighborhoods_take.
  set (b := {| name := n; mean_rent := rounded_mean n data |}).
  assert (Hb : b ∈ sorted) by (apply sorted_elem, positive_elem; split; [exact Hranked|reflexivity]).
  rewrite <- (take_drop 8 sorted) in Hb. apply elem_of_app in Hb as [Hb|Hb].
  - left. apply (list_elem_of_fmap_2 name) in Hb. exact Hb.
  - right. split.
    + apply length_take_le.
      destruct (decide (8 <= length sorted)) as [Hle|Hgt]; [exact Hle|].
      rewrite drop_ge in Hb by lia. inversion Hb.
    + apply Forall_forall. intros c Hc. split.
      * exact (StronglySorted_take_drop _ 8 sorted c b sorted_desc Hc Hb).
      * exact (StronglySorted_take_drop _ 8 sorted c b sorted_order Hc Hb).
Qed.

(** Eight ranked neighborhoods or more fill the eight bars. *)
Lemma top_full (ns : list string) :
  NoDup ns -> 8 <= length ns -> Forall (ranked data) ns ->
  length (top_neighborhoods grouped) = 8.
Proof.
  intros Hnodup Hlen Hranked. rewrite top_neighborhoods_take.
  apply length_take_le. etransitivity; [exact Hlen|].
  rewrite <- (length_map name sorted). apply submseteq_length.
  apply NoDup_submseteq; [exact Hnodup|].
  intros n Hn. rewrite Forall_forall in Hranked.
  set (b := {| name := n; mean_rent := rounded_mean n data |}).
  assert (Hb : b ∈ sorted) by (apply sorted_elem, positive_elem; split; [apply Hranked, Hn|reflexivity]).
  apply (list_elem_of_fmap_2 name) in Hb. exact Hb.
Qed.

End Ranking.

(** C5, as the code has it.  For records filed under no name of
    [Object.prototype], with rents within the range of the doubles, the loop
    of [updateBarChart] completes, and the series it ranks has at most eight
    bars, in descending order (ties allowed) of the mean rent, computed in
    double precision and rounded to the nearest integer; bars of equal mean
    stand in the order of [Object.entries]: names that are array indices in
    ascending order, then the other names in the order in which the records
    first show them.  There is one bar per neighborhood whose rounded mean
    is positive, the first of the ranking; with eight such neighborhoods or
    more there are exactly eight bars.  For positive whole rents that add
    up to less than [2^52] the rounded mean is that of the arithmetic mean.
    A chart that exists is loaded with this series, unless the data or the
    series is empty. *)
Theorem ranked_bar_series (data : list bar_datum) :
  plain_keys data ->
  (fold_right Qplus 0%Q (map (fun d => Qabs (rent d)) data) <= 2 ^ 1000)%Q ->
  exists grouped,
    group_rents data [] = Done grouped
    /\ top_ranked data (top_neighborhoods grouped)
    /\ (forall n, n ∈ map group_key data ->
          Forall (fun v => whole v /\ (0 < v)%Q) (rents_of n data) ->
          (fold_right Qplus 0%Q (rents_of n data) < 2 ^ 52)%Q ->
          rounded_mean n data = Math_round (arithmetic_mean (rents_of n data)))
    /\ forall c st, barChart st = Some c -> data <> [] ->
         updateBarChart data st = (Done tt, with_bars (top_neighborhoods grouped) st).
Proof.
  intros Hplain _.
  destruct (group_rents_ok data Hplain) as (grouped & Hrun & Hgroups).
  pose proof (group_rents_order data grouped Hplain Hrun) as Horder.
  exists grouped. split; [exact Hrun|]. split; [|split].
  - split; [apply top_length|].
    split; [apply top_desc|].
    split; [eapply top_order; eassumption|].
    split; [eapply top_names; exact Hgroups|].
    split; [intros b; eapply top_elem; eassumption|].
    split; [intros n; eapply top_complete; eassumption|].
    intros ns. eapply top_full; exact Hgroups.
  - intros n Hn Hwhole Hsmall. unfold rounded_mean.
    apply rounded_average_whole; [|exact Hwhole|exact Hsmall].
    intros Hnone. apply rents_of_nil in Hnone. contradiction.
  - intros c st Hchart Hdata.
    destruct data as [|d data]; [contradiction Hdata; reflexivity|].
    unfold updateBarChart, bind, gets, lift. rewrite Hchart, Hrun.
    destruct (top_neighborhoods grouped); reflexivity.
Qed.

Lemma ranked_bar_series_witness :
  let data := one_rent_each 1000 ["Fremont"; "Ballard"; "7"] in
  exists grouped,
    group_rents data [] = Done grouped
    /\ top_ranked data (top_neighborhoods grouped)
    /\ (forall n, n ∈ map group_key data ->
          Forall (fun v => whole v /\ (0 < v)%Q) (rents_of n data) ->
          (fold_right Qplus 0%Q (rents_of n data) < 2 ^ 52)%Q ->
          rounded_mean n data = Math_round (arithmetic_mean (rents_of n data)))
    /\ forall c st, barChart st = Some c -> data <> [] ->
         updateBarChart data st = (Done tt, with_bars (top_neighborhoods grouped) st).
Proof.
  apply (ranked_bar_series (one_rent_each 1000 ["Fremont"; "Ballard"; "7"])).
  - repeat constructor.
  - vm_compute. discriminate.
Defined.

(** Bars of equal mean: the name that is an array index first, then the
    names as the records show them. *)
Example ranked_bars_tie_order :
  let data := one_rent_each 1000 ["Fremont"; "Ballard"; "7"] in
  match group_rents data [] with
  | Done grouped => map name (top_neighborhoods grouped) = ["7"; "Fremont"; "Ballard"]
  | Raise _ => False
  end.
Proof. vm_compute. reflexivity. Qed.

(** C5, as the specification has it, fails: ten neighborhoods with the same
    positive mean give eight bars of equal height, which are not in strictly
    descending order. *)
Lemma ranked_bars_not_strictly_descending :
  let hoods := ["A"; "B"; "C"; "D"; "E"; "F"; "G"; "H"; "I"; "J"] in
  let data := one_rent_each 1000 hoods in
  NoDup (map group_key data)
  /\ Forall (fun n => (0 < rounded_mean n data)%Z) hoods
  /\ exists grouped,
       group_rents data [] = Done grouped
       /\ map mean_rent (top_neighborhoods grouped)
          = [1000; 1000; 1000; 1000; 1000; 1000; 1000; 1000]%Z
       /\ ~ StronglySorted (fun a b => (mean_rent b < mean_rent a)%Z)
             (top_neighborhoods grouped).
Proof.
  split; [|split].
  - apply (bool_decide_unpack _). vm_compute. exact I.
  - repeat constructor.
  - eexists. split; [vm_compute; reflexivity|]. split; [vm_compute; reflexivity|].
    vm_compute. intros Hsorted.
    apply StronglySorted_inv in Hsorted as [_ Hall].
    apply Forall_cons in Hall as [Hlt _]. vm_compute in Hlt. discriminate.
Qed.

(** ** The housing dashboard: the pass of [updateFromMap] *)

Lemma isLayerVisible_run (layerId : string) (st : state) :
  isLayerVisible layerId st = (Done (shown layerId st), st).
Proof.
  unfold isLayerVisible, getLayoutProperty_visibility, getLayer, shown, bind, gets, ret.
  destruct (layers st !! layerId) as [l|] eqn:Hlayer; [|reflexivity].
  rewrite Hlayer. reflexivity.
Qed.

Section Pass.
Context `{Runtime}.

(** [updateStat] completes, and writes texts only. *)
Lemma updateStat_done (data : list tract) (st : state) :
  exists texts, updateStat data st = (Done tt, set_text texts st).
Proof.
  unfold updateStat, bind, gets, setText, modify, ret.
  destruct data as [|p data]; [eexists; reflexivity|].
  destruct (String.eqb (activeLayer st) "rent").
  { destruct (filter_numbers _ _); eexists; reflexivity. }
  destruct (String.eqb (activeLayer st) "burden").
  { destruct (filter_numbers _ _); eexists; reflexivity. }
  destruct (String.eqb (activeLayer st) "mha"); [eexists; reflexivity|].
  exists (text st). destruct st; reflexivity.
Qed.

(** C4, as the code has it.  A pass of [updateFromMap] over a visible set
    filed under no name of [Object.prototype] completes; it always
    recomputes the stat block from the visible set; it loads the bar chart
    with the ranking of the same visible set when a choropleth layer is
    shown, the chart exists and the ranking has a bar, and otherwise leaves
    the bar chart as it was. *)
Theorem updateFromMap_views (st : state) :
  plain_keys (barData (visible_set st)) ->
  exists grouped st1,
    updateStat (visible_set st) st = (Done tt, st1)
    /\ barChart st1 = barChart st
    /\ group_rents (barData (visible_set st)) [] = Done grouped
    /\ updateFromMap st
       = (Done tt,
          match visible_layer st, barChart st with
          | Some _, Some _ => with_bars (top_neighborhoods grouped) st1
          | _, _ => st1
          end).
Proof.
  intros Hplain.
  destruct (group_rents_ok _ Hplain) as (grouped & Hrun & _).
  destruct (updateStat_done (visible_set st) st) as (texts & Hstat).
  exists grouped, (set_text texts st).
  split; [exact Hstat|]. split; [reflexivity|]. split; [exact Hrun|].
  unfold updateFromMap, bind. rewrite !isLayerVisible_run.
  unfold visible_set, visible_layer in *.
  destruct (shown "burden-fill" st), (shown "rent-fill" st); cbv beta iota zeta.
  4: { rewrite Hstat. destruct (barChart st); reflexivity. }
  all: unfold queryRenderedFeatures, gets; rewrite Hstat;
    unfold updateBarChart, bind, gets, lift;
    change (barChart (set_text texts st)) with (barChart st);
    destruct (barChart st) as [c|]; [|reflexivity];
    destruct (barData _) as [|d ds] eqn:Hdata;
    [ simpl in Hrun; injection Hrun as <-; reflexivity
    | rewrite Hrun; destruct (top_neighborhoods grouped); reflexivity ].
Qed.

End Pass.

Lemma updateFromMap_views_witness :
  let t := tract_with (Some "53033000100") (Some "Ballard") (Some 2000%Q) in
  let st := snd (map_on_load true (Fulfilled []) (Fulfilled [t])
                   (initial_state (fun _ => [t]))) in
  exists grouped st1,
    updateStat (visible_set st) st = (Done tt, st1)
    /\ barChart st1 = barChart st
    /\ group_rents (barData (visible_set st)) [] = Done grouped
    /\ updateFromMap st
       = (Done tt,
          match visible_layer st, barChart st with
          | Some _, Some _ => with_bars (top_neighborhoods grouped) st1
          | _, _ => st1
          end).
Proof.
  apply (updateFromMap_views
           (snd (map_on_load true (Fulfilled [])
                   (Fulfilled [tract_with (Some "53033000100") (Some "Ballard") (Some 2000%Q)])
                   (initial_state
                      (fun _ => [tract_with (Some "53033000100") (Some "Ballard") (Some 2000%Q)]))))).
  repeat constructor.
Defined.

(** C4, as the specification has it, fails.  With one tract in view the
    stat shows its rent and the chart its bar; once the map has moved to
    where no tract is rendered, the pass sets the stat to the no-data marker
    and leaves the bar of the earlier viewport in the chart. *)
Lemma stat_and_bars_disagree :
  let t := tract_with (Some "53033000100") (Some "Ballard") (Some 2000%Q) in
  let st0 := snd (map_on_load true (Fulfilled []) (Fulfilled [t])
                    (initial_state (fun _ => [t]))) in
  let st1 := snd (updateFromMap st0) in
  let moved := set_rendered (fun _ => []) st1 in
  let st2 := snd (updateFromMap moved) in
  text st1 !! "stat-value" = Some "$2,000"
  /\ barChart st1 = Some [ ("x", [CStr "Ballard"]); ("Median Rent", [CNum 2000]) ]
  /\ fst (updateFromMap moved) = Done tt
  /\ text st2 !! "stat-value" = Some "—"
  /\ barChart st2 = Some [ ("x", [CStr "Ballard"]); ("Median Rent", [CNum 2000]) ].
Proof. repeat split; vm_compute; reflexivity. Qed.

(** ** The housing dashboard: layers of the map *)

(** Reading a field of a state that was written field by field. *)
Ltac fields :=
  cbn [activeLayer hoveredTractId barChart lineChart donutChart text
       legend_items active_buttons tooltip_display sources layers rendered
       camera listeners timers console
       set_activeLayer set_hoveredTractId set_barChart set_lineChart
       set_donutChart set_text set_legend_items set_active_buttons
       set_tooltip_display set_sources set_layers set_rendered set_camera
       set_listeners set_timers set_console].

Lemma bind_done {S A B} (c : M S A) (k : A -> M S B) (s s' : S) (a : A) :
  c s = (Done a, s') -> bind c k s = k a s'.
Proof. intros Hc. unfold bind. rewrite Hc. reflexivity. Qed.

Lemma set_layers_same (st : state) : set_layers (layers st) st = st.
Proof. destruct st; reflexivity. Qed.

(** The guard of [setLayerVisibility] makes it complete: it changes the
    layer when the style has it and does nothing when not. *)
Lemma setLayerVisibility_run (layerId v : string) (st : state) :
  setLayerVisibility layerId v st
  = (Done tt, set_layers (alter (with_visibility v) layerId (layers st)) st).
Proof.
  unfold setLayerVisibility, setLayoutProperty_visibility, getLayer, bind, gets, ret, modify.
  destruct (layers st !! layerId) as [l|] eqn:Hlayer.
  - rewrite Hlayer. do 2 f_equal. simpl. apply map_eq. intros id.
    rewrite lookup_alter, lookup_insert.
    case_decide; [subst; rewrite Hlayer|]; reflexivity.
  - rewrite alter_id' by exact Hlayer. rewrite set_layers_same. reflexivity.
Qed.

Lemma elem_of_thematic (id : string) :
  id ∈ thematic
  <-> id = "rent-fill" \/ id = "burden-fill" \/ id = "mha-fill" \/ id = "mha-line".
Proof. unfold thematic. rewrite !elem_of_cons, elem_of_nil. tauto. Qed.

Ltac lookup_alters :=
  repeat first [ rewrite lookup_alter_eq | rewrite lookup_alter_ne by congruence ].

(** The calls of [switchMapLayer] hide and show as [switched] says. *)
Lemma switched_alters (layer : string) (style : gmap string Housing.layer) :
  let hidden :=
    alter (with_visibility "none") "mha-line"
      (alter (with_visibility "none") "mha-fill"
         (alter (with_visibility "none") "burden-fill"
            (alter (with_visibility "none") "rent-fill" style))) in
  (if String.eqb layer "rent" then alter (with_visibility "visible") "rent-fill" hidden
   else if String.eqb layer "burden" then alter (with_visibility "visible") "burden-fill" hidden
   else if String.eqb layer "mha" then
     alter (with_visibility "visible") "mha-line"
       (alter (with_visibility "visible") "mha-fill" hidden)
   else hidden)
  = switched layer style.
Proof.
  intros hidden. subst hidden. apply map_eq. intros id.
  unfold switched, layers_of. rewrite map_lookup_imap.
  destruct (decide (id ∈ thematic)) as [Hin|Hnot].
  - apply elem_of_thematic in Hin.
    destruct (String.eqb layer "rent"); [|destruct (String.eqb layer "burden");
      [|destruct (String.eqb layer "mha")]];
    destruct Hin as [->|[->|[->| ->]]]; lookup_alters;
    match goal with |- context [style !! ?k] => destruct (style !! k) end;
    vm_compute; reflexivity.
  - assert (Hne : id <> "rent-fill" /\ id <> "burden-fill"
                  /\ id <> "mha-fill" /\ id <> "mha-line")
      by (rewrite elem_of_thematic in Hnot; tauto).
    destruct Hne as (H1 & H2 & H3 & H4).
    destruct (String.eqb layer "rent"); [|destruct (String.eqb layer "burden");
      [|destruct (String.eqb layer "mha")]];
    lookup_alters; destruct (style !! id); simpl; try reflexivity;
    rewrite !bool_decide_eq_false_2
      by (rewrite ?elem_of_cons, ?elem_of_nil; unfold thematic in Hnot; tauto);
    reflexivity.
Qed.

Lemma switchMapLayer_run (layer : string) (st : state) :
  switchMapLayer layer st = (Done tt, after_switch layer st).
Proof.
  unfold switchMapLayer, after_switch.
  do 4 (erewrite bind_done by apply setLayerVisibility_run).
  rewrite <- (switched_alters layer (layers st)). cbv zeta.
  destruct (String.eqb layer "rent").
  { erewrite bind_done by apply setLayerVisibility_run. reflexivity. }
  destruct (String.eqb layer "burden").
  { erewrite bind_done by apply setLayerVisibility_run. reflexivity. }
  destruct (String.eqb layer "mha").
  { erewrite bind_done;
      [|erewrite bind_done by apply setLayerVisibility_run;
        apply setLayerVisibility_run].
    reflexivity. }
  erewrite bind_done by reflexivity. reflexivity.
Qed.

Lemma switched_lookup (layer id : string) (style : gmap string Housing.layer) :
  switched layer style !! id
  = (fun l => if bool_decide (id ∈ layers_of layer) then with_visibility "visible" l
              else if bool_decide (id ∈ thematic) then with_visibility "none" l
              else l) <$> style !! id.
Proof.
  unfold switched. rewrite map_lookup_imap.
  destruct (style !! id) as [l|]; simpl; [|reflexivity].
  repeat case_bool_decide; reflexivity.
Qed.

Lemma switched_other (layer id : string) (style : gmap string Housing.layer) :
  id ∉ thematic -> switched layer style !! id = style !! id.
Proof.
  intros Hid. rewrite switched_lookup.
  assert (Hnot : id ∉ layers_of layer).
  { intros Hin. apply Hid. unfold layers_of in Hin. unfold thematic.
    destruct (String.eqb layer "rent"); [set_solver|].
    destruct (String.eqb layer "burden"); [set_solver|].
    destruct (String.eqb layer "mha"); set_solver. }
  rewrite !bool_decide_eq_false_2 by assumption.
  destruct (style !! id); reflexivity.
Qed.

Lemma shown_after_switch (layer id : string) (st : state) :
  id ∈ thematic ->
  shown id (after_switch layer st)
  = bool_decide (id ∈ layers_of layer)
    && bool_decide (is_Some (layers st !! id)).
Proof.
  intros Hid. unfold shown, after_switch. fields. rewrite switched_lookup.
  destruct (layers st !! id) as [l|]; simpl.
  - rewrite (bool_decide_eq_true_2 (id ∈ thematic)) by exact Hid.
    rewrite andb_true_r. destruct (bool_decide (id ∈ layers_of layer)); reflexivity.
  - rewrite andb_false_r. reflexivity.
Qed.

(** C9.  [switchMapLayer] completes for every argument and every style: a
    visibility is set only through [setLayerVisibility], which does nothing
    for a layer that is not in the style, whereas setting the property of
    such a layer directly is an error; no layer is created, and a layer
    that is not thematic is left as it is. *)
Theorem switchMapLayer_never_throws (layer : string) (st : state) :
  switchMapLayer layer st = (Done tt, after_switch layer st)
  /\ (forall id, layers st !! id = None -> layers (after_switch layer st) !! id = None)
  /\ (forall id, id ∉ thematic -> layers (after_switch layer st) !! id = layers st !! id)
  /\ (forall id v, layers st !! id = None ->
        setLayerVisibility id v st = (Done tt, st)
        /\ exists e, setLayoutProperty_visibility id v st = (Raise e, st)).
Proof.
  split; [apply switchMapLayer_run|]. split; [|split].
  - intros id Hnone. simpl. rewrite switched_lookup, Hnone. reflexivity.
  - intros id Hid. apply (switched_other layer id (layers st) Hid).
  - intros id v Hnone. split.
    + rewrite setLayerVisibility_run, alter_id' by exact Hnone.
      rewrite set_layers_same. reflexivity.
    + unfold setLayoutProperty_visibility, getLayer, bind, gets. rewrite Hnone.
      eexists. reflexivity.
Qed.

(** ** The housing dashboard: the controls *)

Lemma renderLegend_own (layer : string) (st : state) :
  layer ∈ ["rent"; "burden"; "mha"] ->
  exists config,
    own_property LEGEND_CONFIG layer = Some config
    /\ renderLegend layer st
       = (Done tt,
          set_legend_items (items config)
            (set_text (<["legend-title" := title config]> (text st)) st)).
Proof.
  rewrite !elem_of_cons, elem_of_nil.
  intros [->|[->|[->|[]]]]; eexists; (split; [reflexivity|reflexivity]).
Qed.

Section Controls.
Context `{Runtime}.





Lemma resetCharts_run (st : state) :
  resetCharts st
  = (Done tt,
     let texts :=
       match lineChart st with
       | Some _ => <["chart2-title" := "Click a tract · Rent Over Time"]> (text st)
       | None => text st
       end in
     let texts :=
       match donutChart st with
       | Some _ => <["chart3-title" := "Click a tract · Rent Burden Breakdown"]> texts
       | None => texts
       end in
     set_donutChart ((fun _ => donut_placeholder) <$> donutChart st)
       (set_lineChart ((fun _ => line_placeholder) <$> lineChart st)
          (set_text texts st))).
Proof.
  unfold resetCharts, bind, gets, setText, modify, ret.
  destruct st as [a h b [l|] [d|] t li ab td so la r c ls ti co]; reflexivity.
Qed.

Lemma resetMap_run (st : state) (hover : layer) :
  layers st !! "housing-hover" = Some hover ->
  resetMap st
  = (Done tt,
     set_hoveredTractId None
       (set_layers (<["housing-hover" := with_line_opacity 0 hover]>
                      (switched "rent" (layers st)))
          (set_timers (timers st ++ [(UpdateFromMap, 300)])
             (set_camera {| center := ((-122335 # 1000)%Q, (47608 # 1000)%Q);
                            zoom := 11 |} st)))).
Proof.
  intros Hhover. unfold resetMap.
  erewrite bind_done by reflexivity.
  erewrite bind_done by apply switchMapLayer_run.
  unfold setPaintProperty_line_opacity, getLayer, bind, gets, modify, flyTo, after_switch.
  cbn [layers set_timers set_layers set_camera].
  rewrite switched_other, Hhover by (unfold thematic; set_solver).
  reflexivity.
Qed.

(** C3, as the code has it.  For every state whose style has the layer
    [housing-hover], a click on the reset button completes; it makes [rent]
    the active layer and its button the active one, renders the legend of
    [rent], clears the hovered tract, sets the stat block to its default
    texts with the no-data marker, gives the line chart and the donut chart
    their placeholder columns when they exist, hides the tooltip, shows
    [rent-fill] and hides the other thematic layers, and schedules a pass of
    [updateFromMap].  The bar chart is left as it is. *)
Theorem reset_click_defaults (st : state) (hover : layer) :
  layers st !! "housing-hover" = Some hover ->
  exists st', reset_click st = (Done tt, st') /\ reset_from st st'.
Proof.
  intros Hhover.
  destruct (renderLegend_own "rent"
              (set_active_buttons ([] ++ ["rent"])
                 (set_active_buttons [] (set_activeLayer "rent" st))))
    as (config & Hconfig & Hlegend); [set_solver|].
  injection Hconfig as <-.
  eexists. split.
  { unfold reset_click.
    do 3 (erewrite bind_done by reflexivity).
    erewrite bind_done by exact Hlegend.
    do 3 (erewrite bind_done by reflexivity).
    erewrite bind_done by apply resetCharts_run.
    erewrite bind_done by (apply (resetMap_run _ hover); exact Hhover).
    reflexivity. }
  unfold reset_from. fields.
  split; [reflexivity|]. split; [reflexivity|]. split; [reflexivity|].
  split; [reflexivity|].
  assert (Htexts : forall id v, id <> "chart2-title" -> id <> "chart3-title" ->
            forall texts : gmap string string, texts !! id = Some v ->
            match donutChart st with
            | Some _ => <["chart3-title" := "Click a tract · Rent Burden Breakdown"]>
                          match lineChart st with
                          | Some _ => <["chart2-title" := "Click a tract · Rent Over Time"]> texts
                          | None => texts
                          end
            | None => match lineChart st with
                      | Some _ => <["chart2-title" := "Click a tract · Rent Over Time"]> texts
                      | None => texts
                      end
            end !! id = Some v).
  { intros id v H2 H3 texts Hid.
    destruct (donutChart st), (lineChart st);
      repeat (rewrite lookup_insert_ne by congruence); exact Hid. }
  fields. split.
  { apply Htexts; [discriminate|discriminate|].
    do 2 (rewrite lookup_insert_ne by discriminate). apply lookup_insert_eq. }
  split.
  { apply Htexts; [discriminate|discriminate|].
    rewrite lookup_insert_ne by discriminate. apply lookup_insert_eq. }
  split.
  { apply Htexts; [discriminate|discriminate|]. apply lookup_insert_eq. }
  split.
  { apply Htexts; [discriminate|discriminate|].
    do 3 (rewrite lookup_insert_ne by discriminate). apply lookup_insert_eq. }
  split; [reflexivity|]. split; [reflexivity|]. split; [reflexivity|].
  split; [reflexivity|]. split; [|reflexivity].
  intros id Hid.
  rewrite lookup_insert_ne by (intros <-; revert Hid; unfold thematic; set_solver).
  rewrite switched_lookup.
  destruct (layers st !! id) as [l|]; simpl; [|reflexivity].
  rewrite (bool_decide_eq_true_2 _ Hid).
  unfold layers_of. simpl.
  destruct (decide (id = "rent-fill")) as [->|Hne].
  - rewrite !bool_decide_eq_true_2 by set_solver. reflexivity.
  - rewrite !bool_decide_eq_false_2 by set_solver. reflexivity.
Qed.

End Controls.


(** What the scheduled pass shows after a click on [burden]: the mean
    burden of the tract in view, and the bar of its neighborhood. *)
Example toggle_burden_pass :
  let t :=
    {| GEOID := Some "53033000100"; NAME := Some "Census Tract 1";
       NEIGHBORHOOD := Some "Ballard"; MEDIAN_RENT := Some 2000%Q;
       RENT_BURDEN_PCT := Some 41%Q; RENT_TIMESERIES := None;
       GRAPI_LESS_15 := None; GRAPI_15_20 := None; GRAPI_20_25 := None;
       GRAPI_25_30 := None; GRAPI_30_35 := None; GRAPI_35_PLUS := None |} in
  let st := snd (updateFromMap
                   (snd (map_on_load true (Fulfilled []) (Fulfilled [t])
                           (initial_state (fun _ => [t]))))) in
  let st' := snd (toggle_click "burden" st) in
  let st'' := snd (run_callback UpdateFromMap st') in
  text st' !! "stat-value" = Some "$2,000"
  /\ text st'' !! "stat-label" = Some "Avg. Rent Burden · Visible Tracts"
  /\ text st'' !! "stat-value" = Some "41.0%"
  /\ barChart st'' = Some [ ("x", [CStr "Ballard"]); ("Median Rent", [CNum 2000]) ].
Proof. repeat split; vm_compute; reflexivity. Qed.


Lemma reset_click_witness :
  let t := tract_with (Some "53033000100") (Some "Ballard") (Some 2000%Q) in
  let st := snd (updateFromMap
                   (snd (map_on_load true (Fulfilled []) (Fulfilled [t])
                           (initial_state (fun _ => [t]))))) in
  exists st', reset_click st = (Done tt, st') /\ reset_from st st'.
Proof.
  apply (reset_click_defaults _
           {| layer_type := "line"; layer_source := "housing";
              visibility := None; line_opacity := Some 0%Q |}).
  vm_compute. reflexivity.
Defined.

(** C3, as the specification has it, fails: after a pass that loaded a bar
    into the bar chart, a click on the reset button leaves that bar in the
    chart, which is not its placeholder. *)
Lemma reset_keeps_bar_chart :
  let t := tract_with (Some "53033000100") (Some "Ballard") (Some 2000%Q) in
  let st := snd (updateFromMap
                   (snd (map_on_load true (Fulfilled []) (Fulfilled [t])
                           (initial_state (fun _ => [t]))))) in
  let st' := snd (reset_click st) in
  fst (reset_click st) = Done tt
  /\ barChart st' = Some [ ("x", [CStr "Ballard"]); ("Median Rent", [CNum 2000]) ]
  /\ barChart st' <> Some bar_placeholder
  /\ lineChart st' = Some line_placeholder
  /\ donutChart st' = Some donut_placeholder.
Proof.
  split; [vm_compute; reflexivity|]. split; [vm_compute; reflexivity|].
  split; [vm_compute; discriminate|]. split; vm_compute; reflexivity.
Qed.

(** ** The housing dashboard: a click on a tract *)

Lemma no_valid_entry (timeseries : list ts_entry) :
  (forall d r, d ∈ timeseries -> ts_rent d = Some r -> (r <= 0)%Q) ->
  List.filter valid_entry timeseries = [].
Proof.
  induction timeseries as [|d ts IH]; intros Hnone; [reflexivity|].
  simpl. rewrite IH by (intros d' r Hd'; apply Hnone; right; exact Hd').
  unfold valid_entry. destruct (ts_rent d) as [r|] eqn:Hrent; [|reflexivity].
  destruct (truthy r && gt0 r) eqn:Hpos; [|reflexivity].
  apply truthy_gt0 in Hpos. exfalso.
  apply (Qlt_not_le _ _ Hpos). apply (Hnone d r); [left|exact Hrent].
Qed.

Lemma updateDonutChart_done (tractName : string) (props : tract) (st : state) :
  exists st',
    updateDonutChart tractName props st = (Done tt, st')
    /\ lineChart st' = lineChart st
    /\ text st' !! "chart2-title" = text st !! "chart2-title"
    /\ console st' = console st.
Proof.
  unfold updateDonutChart, bind, gets, setText, modify, ret.
  destruct (donutChart st); eexists; (split; [reflexivity|]).
  - split; [reflexivity|]. split; [|reflexivity].
    fields. rewrite lookup_insert_ne by discriminate. reflexivity.
  - repeat split.
Qed.

(** [updateLineChart] on an array of records. *)
Lemma filter_valid_records (timeseries : list ts_entry) :
  filter_valid (map Some timeseries) = Done (List.filter valid_entry timeseries).
Proof.
  induction timeseries as [|d ts IH]; [reflexivity|].
  simpl. rewrite IH. destruct (valid_entry d); reflexivity.
Qed.

Lemma updateLineChart_records (tractName : string) (timeseries : list ts_entry)
    (st : state) :
  updateLineChart tractName (JArray (map Some timeseries)) st
  = match lineChart st, stable_sort by_year (List.filter valid_entry timeseries) with
    | Some _, (_ :: _) as valid =>
        (Done tt,
         set_lineChart (Some (line_columns valid))
           (set_text (<["chart2-title" := tractName +:+ " · Rent Over Time"]> (text st))
              st))
    | _, _ => (Done tt, st)
    end.
Proof.
  unfold updateLineChart, bind, gets, ret, lift.
  destruct (lineChart st) as [c|]; [|reflexivity].
  destruct timeseries as [|d ts]; [reflexivity|].
  cbn [map truthy_value length_is_zero negb orb].
  change (Some d :: map Some ts) with (map Some (d :: ts)).
  rewrite (filter_valid_records (d :: ts)).
  destruct (stable_sort by_year (List.filter valid_entry (d :: ts))); reflexivity.
Qed.

Lemma records_of_Some (elements : list (option ts_entry)) (timeseries : list ts_entry) :
  records_of elements = Some timeseries -> elements = map Some timeseries.
Proof.
  revert timeseries. induction elements as [|[d|] elements IH]; simpl; intros ts Hts.
  - injection Hts as <-. reflexivity.
  - destruct (records_of elements) as [ds|]; [|discriminate].
    injection Hts as <-. simpl. f_equal. apply IH. reflexivity.
  - discriminate.
Qed.

Lemma records_of_None (elements : list (option ts_entry)) :
  records_of elements = None ->
  exists msg, filter_valid elements = Raise (TypeError msg).
Proof.
  induction elements as [|[d|] elements IH]; simpl; intros Hnone.
  - discriminate.
  - destruct (records_of elements) as [ds|]; [discriminate|].
    destruct (IH eq_refl) as (msg & ->). exists msg. reflexivity.
  - eexists. reflexivity.
Qed.

(** The guard of [updateLineChart]. *)
Lemma updateLineChart_guard (tractName : string) (v : json) (st : state) :
  negb (truthy_value v) || length_is_zero v = true ->
  updateLineChart tractName v st = (Done tt, st).
Proof.
  intros Hguard. unfold updateLineChart, bind, gets, ret. rewrite Hguard.
  destruct (lineChart st); reflexivity.
Qed.

(** A value that holds a time series is read as the array of its records. *)
Lemma updateLineChart_series (tractName : string) (v : json)
    (timeseries : list ts_entry) (st : state) :
  series_of v = Some timeseries ->
  updateLineChart tractName v st
  = updateLineChart tractName (JArray (map Some timeseries)) st.
Proof.
  intros Hseries.
  assert (Hblank : negb (truthy_value v) || length_is_zero v = true ->
                   timeseries = [] ->
                   updateLineChart tractName v st
                   = updateLineChart tractName (JArray (map Some timeseries)) st).
  { intros Hguard ->. rewrite (updateLineChart_guard _ v st Hguard).
    symmetry. apply updateLineChart_guard. reflexivity. }
  destruct v as [|[|]|q|s|elements|members]; simpl in Hseries.
  - apply Hblank; [reflexivity|congruence].
  - discriminate.
  - apply Hblank; [reflexivity|congruence].
  - destruct (Qeq_bool q 0) eqn:Hzero; [|discriminate].
    apply Hblank; [|congruence]. simpl. unfold truthy. rewrite Hzero. reflexivity.
  - destruct (String.eqb s "") eqn:Hs; [|discriminate].
    apply Hblank; [|congruence]. simpl. rewrite Hs. reflexivity.
  - apply records_of_Some in Hseries. rewrite Hseries. reflexivity.
  - destruct (own_property members "length") as [[| |q| | |]|] eqn:Hlength;
      try discriminate.
    destruct (Qeq_bool q 0) eqn:Hzero; [|discriminate].
    apply Hblank; [|congruence]. simpl. rewrite Hlength, Hzero. reflexivity.
Qed.

(** A value that holds no time series makes [updateLineChart] raise, when
    the chart exists; nothing is written. *)
Lemma updateLineChart_raises (tractName : string) (v : json) (st : state) (c : chart) :
  series_of v = None ->
  lineChart st = Some c ->
  exists msg, updateLineChart tractName v st = (Raise (TypeError msg), st).
Proof.
  intros Hseries Hchart.
  unfold updateLineChart, bind, gets, ret, lift, raise. rewrite Hchart.
  destruct v as [|[|]|q|s|elements|members]; simpl in Hseries; try discriminate.
  - eexists. reflexivity.
  - destruct (Qeq_bool q 0) eqn:Hzero; [discriminate|].
    simpl. unfold truthy. rewrite Hzero. eexists. reflexivity.
  - destruct (String.eqb s "") eqn:Hs; [discriminate|].
    simpl. rewrite Hs. eexists. reflexivity.
  - destruct elements as [|d elements]; [discriminate|].
    cbn [truthy_value length_is_zero negb orb].
    destruct (records_of_None (d :: elements) Hseries) as (msg & ->).
    exists msg. reflexivity.
  - cbn [truthy_value length_is_zero negb orb].
    destruct (own_property members "length") as [[| |q| | |]|];
      try (eexists; reflexivity).
    destruct (Qeq_bool q 0); [discriminate|]. eexists. reflexivity.
Qed.

Lemma updateLineChart_no_chart (tractName : string) (v : json) (st : state) :
  lineChart st = None -> updateLineChart tractName v st = (Done tt, st).
Proof.
  intros Hchart. unfold updateLineChart, bind, gets, ret. rewrite Hchart. reflexivity.
Qed.

Section Click.
Context `{Runtime}.

(** The handler of a click, once the text is parsed. *)
Lemma tract_click_run (props : tract) (rest : list tract) (st : state) :
  tract_click (props :: rest) st
  = match JSON_parse (or_string (RENT_TIMESERIES props) "[]") with
    | Some v =>
        bind (updateLineChart (or_string (NAME props) "Selected Tract") v)
          (fun _ => updateDonutChart (or_string (NAME props) "Selected Tract") props) st
    | None =>
        bind (updateLineChart (or_string (NAME props) "Selected Tract") (JArray []))
          (fun _ => updateDonutChart (or_string (NAME props) "Selected Tract") props)
          (set_console (console st ++ ["Could not parse RENT_TIMESERIES:"]) st)
    end.
Proof.
  unfold tract_click, try_catch, console_warn. unfold bind at 1.
  destruct (JSON_parse _); reflexivity.
Qed.

(** C10.  A click on a tract whose [RENT_TIMESERIES] is missing, or is a text
    that [JSON.parse] rejects, completes: the handler goes on with the empty
    time series (after a warning on the console in the second case) and
    leaves the line chart and its title as they were.  [updateLineChart]
    changes nothing when the time series is empty or has no entry with a
    positive rent. *)
Theorem tract_click_without_timeseries
    (props : tract) (rest : list tract) (tractName : string)
    (timeseries : list ts_entry) (st : state) :
  (RENT_TIMESERIES props = None
   \/ (exists s, RENT_TIMESERIES props = Some s /\ JSON_parse s = None) ->
   exists st0 st',
     (st0 = st \/ st0 = set_console (console st ++ ["Could not parse RENT_TIMESERIES:"]) st)
     /\ tract_click (props :: rest) st
        = bind (updateLineChart (or_string (NAME props) "Selected Tract") (JArray []))
            (fun _ => updateDonutChart (or_string (NAME props) "Selected Tract") props) st0
     /\ tract_click (props :: rest) st = (Done tt, st')
     /\ lineChart st' = lineChart st
     /\ text st' !! "chart2-title" = text st !! "chart2-title")
  /\ ((forall d r, d ∈ timeseries -> ts_rent d = Some r -> (r <= 0)%Q) ->
      updateLineChart tractName (JArray (map Some timeseries)) st = (Done tt, st)).
Proof.
  split.
  - intros Hbad.
    assert (Hline : forall name s, updateLineChart name (JArray []) s = (Done tt, s)).
    { intros name s. unfold updateLineChart, bind, gets, ret.
      destruct (lineChart s); reflexivity. }
    assert (Hparse :
      exists st0,
        (st0 = st \/ st0 = set_console (console st ++ ["Could not parse RENT_TIMESERIES:"]) st)
        /\ tract_click (props :: rest) st
           = bind (updateLineChart (or_string (NAME props) "Selected Tract") (JArray []))
               (fun _ => updateDonutChart (or_string (NAME props) "Selected Tract") props) st0).
    { unfold tract_click, try_catch, console_warn.
      destruct Hbad as [Hnone|(s & Hsome & Hreject)].
      - exists st. split; [left; reflexivity|].
        rewrite Hnone. simpl or_string at 1. unfold bind at 1.
        rewrite JSON_parse_empty_array. reflexivity.
      - destruct (String.eqb_spec s "") as [->|Hs].
        + exists st. split; [left; reflexivity|].
          rewrite Hsome. simpl or_string at 1. unfold bind at 1.
          rewrite JSON_parse_empty_array. reflexivity.
        + eexists. split; [right; reflexivity|].
          rewrite Hsome. unfold or_string at 1.
          apply String.eqb_neq in Hs. rewrite Hs. unfold bind at 1.
          rewrite Hreject. reflexivity. }
    destruct Hparse as (st0 & Hst0 & Hrun).
    destruct (updateDonutChart_done (or_string (NAME props) "Selected Tract") props st0)
      as (st' & Hdonut & Hchart & Htitle & _).
    exists st0, st'. split; [exact Hst0|]. split; [exact Hrun|].
    rewrite Hrun. erewrite bind_done by apply Hline.
    split; [exact Hdonut|].
    rewrite Hchart, Htitle. destruct Hst0 as [->| ->]; split; reflexivity.
  - intros Hnone. rewrite updateLineChart_records.
    rewrite (no_valid_entry _ Hnone).
    destruct (lineChart st); reflexivity.
Qed.

End Click.

Lemma tract_click_witness :
  let props :=
    {| GEOID := Some "53033000100"; NAME := Some "Census Tract 1";
       NEIGHBORHOOD := Some "Ballard"; MEDIAN_RENT := Some 2000%Q;
       RENT_BURDEN_PCT := None; RENT_TIMESERIES := Some "not json";
       GRAPI_LESS_15 := Some 10%Q; GRAPI_15_20 := None; GRAPI_20_25 := None;
       GRAPI_25_30 := None; GRAPI_30_35 := None; GRAPI_35_PLUS := Some 40%Q |} in
  let st := snd (map_on_load true (Fulfilled []) (Fulfilled [props])
                   (initial_state (fun _ => [props]))) in
  (exists st0 st',
     (st0 = st \/ st0 = set_console (console st ++ ["Could not parse RENT_TIMESERIES:"]) st)
     /\ tract_click [props] st
        = bind (updateLineChart "Census Tract 1" (JArray []))
            (fun _ => updateDonutChart "Census Tract 1" props) st0
     /\ tract_click [props] st = (Done tt, st')
     /\ lineChart st' = lineChart st
     /\ text st' !! "chart2-title" = text st !! "chart2-title")
  /\ updateLineChart "Census Tract 1"
       (JArray [ Some {| ts_year := 2020; ts_rent := Some 0%Q |};
                 Some {| ts_year := 2021; ts_rent := None |} ]) st
     = (Done tt, st).
Proof.
  intros props st. split.
  - apply (proj1 (tract_click_without_timeseries props [] "" [] st)).
    right. exists "not json". split; reflexivity.
  - apply (proj2 (tract_click_without_timeseries props [] "Census Tract 1"
                    [ {| ts_year := 2020; ts_rent := Some 0%Q |};
                      {| ts_year := 2021; ts_rent := None |} ] st)).
    intros d r Hd Hr. apply list_elem_of_In in Hd. simpl in Hd.
    destruct Hd as [<-|[<-|[]]]; simpl in Hr; [|discriminate].
    injection Hr as <-. apply Qle_refl.
Defined.

End HousingFacts.

(** ** The trend dashboard: the charts of a year *)

Module TrendsFacts.
Import Trends TrendsSpec.

Ltac fields :=
  cbn [currentYear currentThreshold burden50 burden30 income trendChart
       raceChart incomeChart text active_buttons console
       set_currentYear set_currentThreshold set_burden50 set_burden30
       set_income set_trendChart set_raceChart set_incomeChart set_text
       set_active_buttons set_console].

Lemma find_absent_year (year : Z) (q : properties -> bool) (dataset : list properties) :
  (forall f, q f = true -> YEAR f = year) ->
  (forall f, f ∈ dataset -> YEAR f <> year) ->
  List.find q dataset = None.
Proof.
  intros Hq. induction dataset as [|f dataset IH]; intros Habsent; [reflexivity|].
  simpl. destruct (q f) eqn:Hf.
  - exfalso. apply (Habsent f); [left|apply Hq, Hf].
  - apply IH. intros g Hg. apply Habsent. right. exact Hg.
Qed.

Section Year.
Context `{Runtime}.

(** C6, as the code has it.  When the charts are initialised and the year
    has no row in the burden dataset of the threshold, [updateYearCharts]
    completes and the race chart shows zero for each of the five races.
    The income chart shows the brackets of the year when the income dataset
    has a row for it, and is left as it was when it has none. *)
Theorem updateYearCharts_absent_year
    (year threshold : Z) (st : state) (race inc : chart) :
  raceChart st = Some race ->
  incomeChart st = Some inc ->
  (forall f, f ∈ dataset_for threshold st -> YEAR f <> year) ->
  exists st',
    updateYearCharts year threshold st = (Done tt, st')
    /\ absent_year_views year st st'.
Proof.
  intros Hrace Hinc Habsent.
  unfold updateYearCharts, absent_year_views.
  unfold bind at 1, gets at 1. unfold races at 1. simpl map.
  rewrite !(find_absent_year year _ (dataset_for threshold st))
    by (first [ exact Habsent
              | intros f Hq; rewrite !andb_true_iff in Hq; apply Z.eqb_eq; tauto ]).
  unfold load_chart, bind, gets, setText, modify, ret. rewrite Hrace. fields.
  destruct (List.find (fun f => (YEAR f =? year)%Z) (income st)) as [incRow|];
    fields; rewrite ?Hinc; fields; eexists; (split; [reflexivity|]); fields.
  - split; [reflexivity|]. split.
    { rewrite lookup_insert_ne by discriminate. apply lookup_insert_eq. }
    split; [do 2 (rewrite lookup_insert_ne by discriminate); reflexivity|].
    split; [reflexivity|]. apply lookup_insert_eq.
  - split; [reflexivity|]. split; [apply lookup_insert_eq|].
    split; [rewrite lookup_insert_ne by discriminate; reflexivity|].
    split; [exact Hinc|]. rewrite lookup_insert_ne by discriminate. reflexivity.
Qed.

End Year.

Lemma updateYearCharts_absent_year_witness :
  let rows := [ burden_row 2022 "Renters" "White" "All" (21 # 100);
                burden_row 2022 "Renters" "All" "All" (25 # 100) ] in
  let st := snd (load_data (Fulfilled rows) (Fulfilled rows)
                   (Fulfilled [income_row 2022 100 200 300 400 500])
                   initial_state) in
  exists st',
    updateYearCharts 1999 50 st = (Done tt, st')
    /\ absent_year_views 1999 st st'.
Proof.
  intros rows st.
  refine (updateYearCharts_absent_year 1999 50 st
            [ ("x", strs races); ("Burden", nums [21 # 100; 0; 0; 0; 0]%Q) ]
            [ ("x", strs brackets); ("Households", nums [100; 200; 300; 400; 500]%Q) ]
            _ _ _).
  - reflexivity.
  - reflexivity.
  - intros f Hf. apply list_elem_of_In in Hf. simpl in Hf.
    destruct Hf as [<-|[<-|[]]]; discriminate.
Defined.

(** C6, as the specification has it, fails for the income brackets: after
    the brackets of 2022 were shown, moving the slider to 1999, a year
    without a row in any dataset, sets the race chart to zeros and leaves
    the households of 2022 in the income chart. *)
Lemma income_chart_keeps_previous_year :
  let rows := [ burden_row 2022 "Renters" "White" "All" (21 # 100);
                burden_row 2022 "Renters" "All" "All" (25 # 100) ] in
  let st := snd (load_data (Fulfilled rows) (Fulfilled rows)
                   (Fulfilled [income_row 2022 100 200 300 400 500])
                   initial_state) in
  let st' := snd (slider_input 1999 st) in
  fst (slider_input 1999 st) = Done tt
  /\ raceChart st' = Some [ ("x", strs races); ("Burden", nums [0; 0; 0; 0; 0]%Q) ]
  /\ incomeChart st'
     = Some [ ("x", strs brackets); ("Households", nums [100; 200; 300; 400; 500]%Q) ]
  /\ incomeChart st' <> Some income_placeholder
  /\ text st' !! "income-year" = Some "(2022)"
  /\ text st' !! "race-year" = Some "(1999)".
Proof.
  split; [vm_compute; reflexivity|]. split; [vm_compute; reflexivity|].
  split; [vm_compute; reflexivity|]. split; [vm_compute; discriminate|].
  split; vm_compute; reflexivity.
Qed.

End TrendsFacts.

(** ** Loading the datasets *)

Section Loading.
Context `{Runtime}.

(** C2, as the code has it.  In panel.js, when one of the three fetches
    joined by [Promise.all] is rejected, the handler of [then] does not run:
    the datasets, the charts and the page are as before, and one message is
    written to the console.  In map.js the two fetches are not joined: on
    the fresh map each chain completes on its own, the one of a fulfilled
    fetch initialises what depends on its source and the one of a rejected
    fetch writes its message to the console. *)
Theorem load_outcomes :
  (forall (r50 r30 rincome : fetched Trends.geojson) (st : Trends.state),
     fulfilled r50 && fulfilled r30 && fulfilled rincome = false ->
     Trends.load_data r50 r30 rincome st
     = (Done tt, Trends.set_console (Trends.console st ++ ["Data load error:"]) st))
  /\ (forall (viewport : string -> list Housing.tract) (mha_first : bool)
             (mha housing : fetched Housing.geojson),
       exists st',
         Housing.map_on_load mha_first mha housing (Housing.initial_state viewport)
         = (Done tt, st')
         /\ loaded_separately mha housing (Housing.initial_state viewport) st').
Proof.
  split.
  - intros [b50|] [b30|] [inc|] st Hrejected; try discriminate; reflexivity.
  - intros viewport mha_first mha housing.
    set (run := Housing.map_on_load mha_first mha housing (Housing.initial_state viewport)).
    assert (Hdone : fst run = Done tt)
      by (destruct mha_first, mha, housing; vm_compute; reflexivity).
    exists (snd run). split; [destruct run; simpl in Hdone; subst; reflexivity|].
    unfold loaded_separately.
    destruct mha_first, mha as [zones|], housing as [tracts|];
      repeat apply conj; try (vm_compute; reflexivity);
      intros id Hid; rewrite !elem_of_cons, elem_of_nil in Hid;
      repeat (destruct Hid as [->|Hid]; [vm_compute; reflexivity|]);
      destruct Hid.
Qed.

End Loading.

Lemma load_outcomes_witness :
  let t := HousingSpec.tract_with (Some "53033000100") (Some "Ballard") (Some 2000%Q) in
  Trends.load_data Rejected (Fulfilled []) (Fulfilled []) Trends.initial_state
  = (Done tt, Trends.set_console ["Data load error:"] Trends.initial_state)
  /\ exists st',
       Housing.map_on_load false (Fulfilled []) (Fulfilled [t])
         (Housing.initial_state (fun _ => [t]))
       = (Done tt, st')
       /\ loaded_separately (Fulfilled []) (Fulfilled [t])
            (Housing.initial_state (fun _ => [t])) st'.
Proof.
  split.
  - apply (proj1 load_outcomes Rejected (Fulfilled []) (Fulfilled [])
             Trends.initial_state).
    reflexivity.
  - apply (proj2 load_outcomes).
Defined.

(** C2, as the specification has it, fails in map.js: when the zones cannot
    be fetched and the tracts can, the load goes on with the tracts alone:
    their layers, the charts and the legend are initialised, the first pass
    is scheduled and renders the stat of the tracts, and the only trace of
    the failure is a message on the console. *)
Lemma map_load_partial_success :
  let t := HousingSpec.tract_with (Some "53033000100") (Some "Ballard") (Some 2000%Q) in
  let run := Housing.map_on_load true Rejected (Fulfilled [t])
               (Housing.initial_state (fun _ => [t])) in
  let st' := snd run in
  fst run = Done tt
  /\ Housing.console st' = ["MHA load error:"]
  /\ Housing.layers st' !! "mha-fill" = None
  /\ Housing.visibility <$> Housing.layers st' !! "rent-fill" = Some (Some "visible")
  /\ Housing.barChart st' = Some Housing.bar_placeholder
  /\ Housing.legend_items st' <> []
  /\ Housing.timers st' = [(Housing.UpdateFromMap, 800)]
  /\ Housing.text (snd (Housing.run_callback Housing.UpdateFromMap st')) !! "stat-value"
     = Some "$2,000".
Proof.
  repeat apply conj; try (vm_compute; reflexivity).
  vm_compute. discriminate.
Qed.

(** * More facts *)

(** ** The housing dashboard: the visible set *)

Module HousingMore.
Import Housing HousingSpec HousingFacts.

Lemma dedupe_from (features : list tract) (seen : gset string) :
  NoDup (map GEOID (dedupe features seen))
  /\ (forall p, p ∈ dedupe features seen ->
        p ∈ features /\ exists id, GEOID p = Some id /\ id <> "" /\ id ∉ seen)
  /\ (forall p id, p ∈ features -> GEOID p = Some id -> id <> "" -> id ∉ seen ->
        exists q, q ∈ dedupe features seen /\ GEOID q = Some id)
  /\ dedupe (dedupe features seen) seen = dedupe features seen.
Proof.
  revert seen. induction features as [|p features IH]; intros seen.
  - simpl. split; [constructor|]. split; [intros p Hp; inversion Hp|].
    split; [intros p id Hp; inversion Hp|reflexivity].
  - simpl. destruct (GEOID p) as [id|] eqn:Hid.
    2: { destruct (IH seen) as (Hnodup & Hsound & Hcomplete & Hidem).
         split; [exact Hnodup|]. split; [|split; [|exact Hidem]].
         - intros q Hq. destruct (Hsound q Hq) as [Hin Hrest].
           split; [right; exact Hin|exact Hrest].
         - intros q k Hq Hk Hne Hfresh. apply elem_of_cons in Hq as [->|Hq].
           + congruence.
           + exact (Hcomplete q k Hq Hk Hne Hfresh). }
    destruct (String.eqb_spec id "") as [->|Hne]; simpl.
    { destruct (IH seen) as (Hnodup & Hsound & Hcomplete & Hidem).
      split; [exact Hnodup|]. split; [|split; [|exact Hidem]].
      - intros q Hq. destruct (Hsound q Hq) as [Hin Hrest].
        split; [right; exact Hin|exact Hrest].
      - intros q k Hq Hk Hk' Hfresh. apply elem_of_cons in Hq as [->|Hq].
        + congruence.
        + exact (Hcomplete q k Hq Hk Hk' Hfresh). }
    case_bool_decide as Hseen; simpl.
    { destruct (IH seen) as (Hnodup & Hsound & Hcomplete & Hidem).
      split; [exact Hnodup|]. split; [|split; [|exact Hidem]].
      - intros q Hq. destruct (Hsound q Hq) as [Hin Hrest].
        split; [right; exact Hin|exact Hrest].
      - intros q k Hq Hk Hk' Hfresh. apply elem_of_cons in Hq as [->|Hq].
        + assert (k = id) by congruence. subst. contradiction.
        + exact (Hcomplete q k Hq Hk Hk' Hfresh). }
    destruct (IH ({[id]} ∪ seen)) as (Hnodup & Hsound & Hcomplete & Hidem).
    split; [|split; [|split]].
    + apply NoDup_cons. split; [|exact Hnodup].
      rewrite Hid. intros Hin. apply list_elem_of_fmap in Hin as (q & Hq & Hin).
      destruct (Hsound q Hin) as (_ & k & Hk & _ & Hfresh).
      assert (k = id) by congruence. subst. apply Hfresh. set_solver.
    + intros q Hq. apply elem_of_cons in Hq as [->|Hq].
      * split; [left|]. exists id. split; [exact Hid|]. split; assumption.
      * destruct (Hsound q Hq) as (Hin & k & Hk & Hk' & Hfresh).
        split; [right; exact Hin|]. exists k. split; [exact Hk|].
        split; [exact Hk'|]. set_solver.
    + intros q k Hq Hk Hk' Hfresh.
      destruct (decide (k = id)) as [->|Hother].
      * exists p. split; [left|exact Hid].
      * apply elem_of_cons in Hq as [->|Hq]; [congruence|].
        destruct (Hcomplete q k Hq Hk Hk') as (r & Hr & Hrk); [set_solver|].
        exists r. split; [right; exact Hr|exact Hrk].
    + rewrite Hid. apply String.eqb_neq in Hne. rewrite Hne. simpl.
      rewrite bool_decide_eq_false_2 by exact Hseen. simpl. f_equal. exact Hidem.
Qed.

(** X1.  The loop of [updateFromMap] that deduplicates by [GEOID]: the tracts it
    keeps are tracts of the query with a non-empty [GEOID], no two of them
    have the same [GEOID], every non-empty [GEOID] of the query is kept, and
    deduplicating what is kept changes nothing. *)
Theorem dedupe_distinct (features : list tract) :
  NoDup (map GEOID (dedupe features ∅))
  /\ (forall p, p ∈ dedupe features ∅ ->
        p ∈ features /\ exists id, GEOID p = Some id /\ id <> "")
  /\ (forall p id, p ∈ features -> GEOID p = Some id -> id <> "" ->
        exists q, q ∈ dedupe features ∅ /\ GEOID q = Some id)
  /\ dedupe (dedupe features ∅) ∅ = dedupe features ∅.
Proof.
  destruct (dedupe_from features ∅) as (Hnodup & Hsound & Hcomplete & Hidem).
  split; [exact Hnodup|]. split; [|split; [|exact Hidem]].
  - intros p Hp. destruct (Hsound p Hp) as (Hin & id & Hid & Hne & _).
    split; [exact Hin|]. exists id. split; assumption.
  - intros p id Hp Hid Hne. apply (Hcomplete p id Hp Hid Hne). set_solver.
Qed.

(** X2.  The rents that the stat counter averages on the layer [rent] are the
    rents of the records given to the bar chart, in the same order: the two
    filters agree.  Each record of the bar chart has a positive rent and a
    neighborhood that is not empty. *)
Theorem stat_and_bar_data_agree (visible : list tract) :
  filter_numbers (fun v => truthy v && gt0 v) (map MEDIAN_RENT visible)
  = map rent (barData visible)
  /\ Forall (fun d => (0 < rent d)%Q
                      /\ neighborhood d = Some (group_key d)
                      /\ group_key d <> "") (barData visible).
Proof.
  split.
  - unfold filter_numbers, barData.
    induction visible as [|p visible IH]; [reflexivity|]. simpl.
    destruct (MEDIAN_RENT p) as [v|]; [|exact IH].
    assert (Htest : truthy v && gt0 v = gt0 v).
    { destruct (gt0 v) eqn:Hpos; [|apply andb_false_r].
      apply gt0_spec in Hpos. apply truthy_gt0 in Hpos.
      apply andb_true_iff in Hpos as [-> _]. reflexivity. }
    rewrite Htest. destruct (gt0 v); simpl; [f_equal|]; exact IH.
  - unfold barData. induction visible as [|p visible IH]; [constructor|]. simpl.
    destruct (MEDIAN_RENT p) as [v|]; [|exact IH].
    destruct (gt0 v) eqn:Hpos; [|exact IH].
    constructor; [|exact IH]. unfold group_key. cbn [rent neighborhood].
    split; [apply gt0_spec; exact Hpos|].
    assert (Hkey : or_string (NEIGHBORHOOD p) "Unknown" <> "").
    { unfold or_string. destruct (NEIGHBORHOOD p) as [n|]; [|discriminate].
      destruct (String.eqb_spec n ""); [discriminate|assumption]. }
    assert (Hsame : or_string (Some (or_string (NEIGHBORHOOD p) "Unknown")) "Unknown"
                    = or_string (NEIGHBORHOOD p) "Unknown").
    { unfold or_string at 1. apply String.eqb_neq in Hkey. rewrite Hkey. reflexivity. }
    rewrite Hsame. split; [reflexivity|exact Hkey].
Qed.

Lemma known_burdens_elem (data : list tract) (v : Q) :
  v ∈ known_burdens data <-> exists p, p ∈ data /\ RENT_BURDEN_PCT p = Some v.
Proof.
  unfold known_burdens. rewrite list_elem_of_In, in_flat_map. split.
  - intros (p & Hp & Hv). exists p. rewrite list_elem_of_In. split; [exact Hp|].
    destruct (RENT_BURDEN_PCT p) as [w|]; [|destruct Hv].
    destruct Hv as [<-|[]]. reflexivity.
  - intros (p & Hp & Hv). exists p. rewrite <- list_elem_of_In.
    split; [exact Hp|]. rewrite Hv. left. reflexivity.
Qed.

Section Burden.
Context `{Runtime}.

(** X3.  On the layer [burden], when some record has a [RENT_BURDEN_PCT]
    and the magnitudes of the values add up within the range of the
    doubles, [updateStat] shows, before a percent sign and with one decimal,
    the mean that the code computes in double precision: the values that
    are there are added from the left, each sum rounded, and the result is
    divided by their number.  A value of zero counts in the mean, only a
    missing value does not.  For whole numbers whose magnitudes add up to
    less than [2^53] the mean is the arithmetic mean, rounded once. *)
Theorem updateStat_burden_mean (data : list tract) (st : state) :
  activeLayer st = "burden" ->
  known_burdens data <> [] ->
  (fold_right Qplus 0 (map Qabs (known_burdens data)) <= 2 ^ 1000)%Q ->
  updateStat data st
  = (Done tt,
     with_stat "Avg. Rent Burden · Visible Tracts"
       (toFixed1 (average (known_burdens data)) +:+ "%")
       "Renters paying 35%+ of income" st)
  /\ (forall v, v ∈ known_burdens data
                <-> exists p, p ∈ data /\ RENT_BURDEN_PCT p = Some v)
  /\ (Forall whole (known_burdens data) ->
      (fold_right Qplus 0 (map Qabs (known_burdens data)) < 2 ^ 53)%Q ->
      average (known_burdens data) = binary64 (arithmetic_mean (known_burdens data))).
Proof.
  intros Hlayer Hsome _.
  split; [|split; [apply known_burdens_elem|apply average_whole]].
  destruct data as [|p data]; [contradiction Hsome; reflexivity|].
  unfold updateStat, bind, gets. rewrite Hlayer. simpl String.eqb. cbv iota.
  rewrite burdens_filter.
  destruct (known_burdens (p :: data)) as [|v vs]; [contradiction Hsome; reflexivity|].
  reflexivity.
Qed.

End Burden.

Lemma updateStat_burden_mean_witness :
  let burden v :=
    {| GEOID := None; NAME := None; NEIGHBORHOOD := None; MEDIAN_RENT := None;
       RENT_BURDEN_PCT := Some v; RENT_TIMESERIES := None;
       GRAPI_LESS_15 := None; GRAPI_15_20 := None; GRAPI_20_25 := None;
       GRAPI_25_30 := None; GRAPI_30_35 := None; GRAPI_35_PLUS := None |} in
  let data := [ burden 0%Q; tract_with None None None; burden 41%Q ] in
  let st := set_activeLayer "burden" (initial_state (fun _ => [])) in
  updateStat data st
  = (Done tt,
     with_stat "Avg. Rent Burden · Visible Tracts"
       (toFixed1_exact (average (known_burdens data)) +:+ "%")
       "Renters paying 35%+ of income" st)
  /\ (forall v, v ∈ known_burdens data
                <-> exists p, p ∈ data /\ RENT_BURDEN_PCT p = Some v)
  /\ average (known_burdens data) = binary64 (arithmetic_mean (known_burdens data)).
Proof.
  intros burden data st.
  destruct (updateStat_burden_mean data st) as (Hrun & Helem & Hwhole).
  - reflexivity.
  - vm_compute. discriminate.
  - vm_compute. discriminate.
  - split; [exact Hrun|]. split; [exact Helem|].
    apply Hwhole; [repeat constructor|vm_compute; reflexivity].
Defined.

(** The mean depends on the order of the values: the sum of 1e16, 1 and 1
    from the left is 1e16, the sum of 1, 1 and 1e16 is 1e16 + 2, and the
    texts differ. *)
Example burden_mean_depends_on_order :
  (sum [10000000000000000; 1; 1] == 10000000000000000)%Q
  /\ (sum [1; 1; 10000000000000000] == 10000000000000002)%Q
  /\ (average [10000000000000000; 1; 1] == 6666666666666667 # 2)%Q
  /\ (average [1; 1; 10000000000000000] == 3333333333333334)%Q.
Proof. repeat apply conj; vm_compute; reflexivity. Qed.

(** ** The housing dashboard: the line chart *)

Lemma valid_entry_spec (d : ts_entry) :
  valid_entry d = true <-> exists r, ts_rent d = Some r /\ (0 < r)%Q.
Proof.
  unfold valid_entry. destruct (ts_rent d) as [r|].
  - rewrite truthy_gt0. split; [intros Hpos; exists r; split; [reflexivity|exact Hpos]|].
    intros (r' & [= <-] & Hpos). exact Hpos.
  - split; [discriminate|intros (r & Hr & _); discriminate].
Qed.

Lemma StronglySorted_weaken {A} (R S : A -> A -> Prop) (l : list A) :
  (forall a b, R a b -> S a b) -> StronglySorted R l -> StronglySorted S l.
Proof.
  intros Himpl. induction 1 as [|a l _ IH Hall]; constructor; [exact IH|].
  eapply Forall_impl; [exact Hall|]. intros b. apply Himpl.
Qed.

Lemma by_year_total (a b : ts_entry) : by_year a b = true \/ by_year b a = true.
Proof. unfold by_year. rewrite !Z.leb_le. lia. Qed.

Lemma by_year_trans (a b c : ts_entry) :
  by_year a b = true -> by_year b c = true -> by_year a c = true.
Proof. unfold by_year. rewrite !Z.leb_le. lia. Qed.

(** X4.  When the line chart exists and the time series has an entry with a
    positive rent, [updateLineChart] sets the title and loads the chart with
    the entries that have a positive rent, each once, in ascending order of
    year (entries of the same year keep their order). *)
Theorem updateLineChart_sorted
    (tractName : string) (timeseries : list ts_entry) (st : state) (c : chart) :
  lineChart st = Some c ->
  (exists d r, d ∈ timeseries /\ ts_rent d = Some r /\ (0 < r)%Q) ->
  exists valid,
    valid ≡ₚ List.filter valid_entry timeseries
    /\ StronglySorted (fun a b => (ts_year a <= ts_year b)%Z) valid
    /\ Forall (fun d => exists r, ts_rent d = Some r /\ (0 < r)%Q) valid
    /\ updateLineChart tractName (JArray (map Some timeseries)) st
       = (Done tt,
          set_lineChart (Some (line_columns valid))
            (set_text (<["chart2-title" := tractName +:+ " · Rent Over Time"]> (text st))
               st)).
Proof.
  intros Hchart (d & r & Hd & Hr & Hpos).
  set (valid := stable_sort by_year (List.filter valid_entry timeseries)).
  assert (Hperm : valid ≡ₚ List.filter valid_entry timeseries)
    by apply stable_sort_perm.
  exists valid. split; [exact Hperm|]. split; [|split].
  - eapply StronglySorted_weaken;
      [|exact (stable_sort_sorted by_year by_year_total by_year_trans
                 (List.filter valid_entry timeseries))].
    intros a b Hab. unfold by_year in Hab. apply Z.leb_le in Hab. exact Hab.
  - apply Forall_forall. intros e He. rewrite Hperm in He.
    apply list_elem_of_In, List.filter_In in He as [_ He].
    apply valid_entry_spec. exact He.
  - assert (Hin : d ∈ valid).
    { rewrite Hperm. apply list_elem_of_In, List.filter_In.
      split; [apply list_elem_of_In; exact Hd|].
      apply valid_entry_spec. exists r. split; assumption. }
    rewrite updateLineChart_records, Hchart.
    fold valid. destruct valid as [|v vs]; [inversion Hin|]. reflexivity.
Qed.

Lemma updateLineChart_sorted_witness :
  let timeseries :=
    [ {| ts_year := 2021; ts_rent := Some 1500%Q |};
      {| ts_year := 2019; ts_rent := Some 0%Q |};
      {| ts_year := 2020; ts_rent := Some 1400%Q |} ] in
  let st := snd (initCharts (initial_state (fun _ => []))) in
  exists valid,
    valid ≡ₚ List.filter valid_entry timeseries
    /\ StronglySorted (fun a b => (ts_year a <= ts_year b)%Z) valid
    /\ Forall (fun d => exists r, ts_rent d = Some r /\ (0 < r)%Q) valid
    /\ updateLineChart "Tract 1" (JArray (map Some timeseries)) st
       = (Done tt,
          set_lineChart (Some (line_columns valid))
            (set_text (<["chart2-title" := "Tract 1 · Rent Over Time"]> (text st)) st)).
Proof.
  intros timeseries st.
  refine (updateLineChart_sorted "Tract 1" timeseries st line_placeholder _ _).
  - reflexivity.
  - exists {| ts_year := 2021; ts_rent := Some 1500%Q |}, 1500%Q.
    split; [left|]. split; reflexivity.
Defined.

(** ** The housing dashboard: switching layers *)

Lemma layers_of_thematic (layer id : string) : id ∈ layers_of layer -> id ∈ thematic.
Proof.
  unfold layers_of, thematic.
  destruct (String.eqb layer "rent"); [set_solver|].
  destruct (String.eqb layer "burden"); [set_solver|].
  destruct (String.eqb layer "mha"); set_solver.
Qed.

Lemma switched_switched (a b : string) (style : gmap string layer) :
  switched b (switched a style) = switched b style.
Proof.
  apply map_eq. intros id. rewrite !switched_lookup.
  destruct (style !! id) as [l|]; simpl; [|reflexivity].
  destruct (decide (id ∈ thematic)) as [Hin|Hnot].
  - rewrite !(bool_decide_eq_true_2 (id ∈ thematic)) by exact Hin.
    repeat case_bool_decide; reflexivity.
  - assert (Ha : id ∉ layers_of a) by (intros Hin; apply Hnot, (layers_of_thematic a), Hin).
    assert (Hb : id ∉ layers_of b) by (intros Hin; apply Hnot, (layers_of_thematic b), Hin).
    rewrite !bool_decide_eq_false_2 by assumption. reflexivity.
Qed.

(** X5.  Of two switches in a row the last one wins: the layers are those of a
    single switch to the second layer; each switch schedules its own pass. *)
Theorem switchMapLayer_last_wins (a b : string) (st : state) :
  bind (switchMapLayer a) (fun _ => switchMapLayer b) st
  = (Done tt,
     set_timers ((timers st ++ [(UpdateFromMap, 300)]) ++ [(UpdateFromMap, 300)])
       (set_layers (switched b (layers st)) st)).
Proof.
  erewrite bind_done by apply switchMapLayer_run.
  rewrite switchMapLayer_run. unfold after_switch. fields.
  rewrite switched_switched. reflexivity.
Qed.

(** X6.  The pass that follows a switch reads the features of the layer that was
    switched to: those of [burden-fill] after [burden] and those of
    [rent-fill] after [rent], when the style has the layer; after [mha], or
    after any other name, no choropleth layer is shown and the visible set
    is empty. *)
Theorem visible_set_after_switch (layer : string) (st : state) :
  exists st1,
    switchMapLayer layer st = (Done tt, st1)
    /\ visible_set st1
       = if String.eqb layer "burden" && bool_decide (is_Some (layers st !! "burden-fill"))
         then dedupe (rendered st "burden-fill") ∅
         else if String.eqb layer "rent" && bool_decide (is_Some (layers st !! "rent-fill"))
         then dedupe (rendered st "rent-fill") ∅
         else [].
Proof.
  exists (after_switch layer st). split; [apply switchMapLayer_run|].
  unfold visible_set, visible_layer.
  rewrite !shown_after_switch by (unfold thematic; set_solver).
  unfold layers_of.
  destruct (String.eqb_spec layer "rent") as [->|Hrent]; simpl.
  { destruct (bool_decide (is_Some (layers st !! "rent-fill"))); reflexivity. }
  destruct (String.eqb_spec layer "burden") as [->|Hburden]; simpl.
  { destruct (bool_decide (is_Some (layers st !! "burden-fill"))); reflexivity. }
  destruct (String.eqb layer "mha"); reflexivity.
Qed.

Section AfterSwitch.
Context `{Runtime}.

(** X7.  A click on the toggle button of [mha], from another layer, hides both
    choropleth layers, so the pass it schedules sets the stat to the no-data
    marker and changes nothing else: the text that [updateStat] has for the
    layer [mha] is not what the pass shows, and the bar chart keeps its
    bars. *)
Theorem pass_after_mha (st : state) :
  activeLayer st <> "mha" ->
  exists st1,
    toggle_click "mha" st = (Done tt, st1)
    /\ activeLayer st1 = "mha"
    /\ updateFromMap st1 = (Done tt, no_data st1)
    /\ text (no_data st1) !! "stat-value" = Some "—"
    /\ barChart (no_data st1) = barChart st.
Proof.
  intros Hother.
  destruct (renderLegend_own "mha"
              (set_activeLayer "mha" (set_active_buttons ["mha"] st)))
    as (config & Hconfig & Hlegend); [set_solver|].
  eexists. split.
  { unfold toggle_click, bind at 1, gets.
    assert (Hneq : String.eqb "mha" (activeLayer st) = false)
      by (apply String.eqb_neq; congruence).
    rewrite Hneq.
    do 3 (erewrite bind_done by reflexivity).
    erewrite bind_done by exact Hlegend.
    apply switchMapLayer_run. }
  split; [reflexivity|]. split; [|split; [apply lookup_insert_eq|reflexivity]].
  unfold updateFromMap, bind. rewrite !isLayerVisible_run.
  rewrite !shown_after_switch by (unfold thematic; set_solver).
  reflexivity.
Qed.

End AfterSwitch.

Lemma pass_after_mha_witness :
  let t := tract_with (Some "53033000100") (Some "Ballard") (Some 2000%Q) in
  let st := snd (updateFromMap
                   (snd (map_on_load true (Fulfilled []) (Fulfilled [t])
                           (initial_state (fun _ => [t]))))) in
  exists st1,
    toggle_click "mha" st = (Done tt, st1)
    /\ activeLayer st1 = "mha"
    /\ updateFromMap st1 = (Done tt, no_data st1)
    /\ text (no_data st1) !! "stat-value" = Some "—"
    /\ barChart (no_data st1) = barChart st.
Proof.
  intros t st. apply (pass_after_mha st). vm_compute. discriminate.
Defined.

(** X8.  A click on a toggle button whose layer is none of the three, and no
    member of [Object.prototype], still makes it the active layer: the
    legend stays that of the layer before, and every thematic layer of the
    style is hidden. *)
Theorem toggle_click_unknown (layer : string) (st : state) :
  layer <> activeLayer st ->
  layer ∉ ["rent"; "burden"; "mha"] ->
  inherited layer = false ->
  exists st',
    toggle_click layer st = (Done tt, st')
    /\ activeLayer st' = layer
    /\ legend_items st' = legend_items st
    /\ text st' = text st
    /\ (forall id, id ∈ thematic ->
          layers st' !! id = with_visibility "none" <$> layers st !! id)
    /\ visible_set st' = [].
Proof.
  intros Hother Hunknown Hplain.
  assert (Hne : String.eqb layer "rent" = false /\ String.eqb layer "burden" = false
                /\ String.eqb layer "mha" = false).
  { rewrite !String.eqb_neq. set_solver. }
  destruct Hne as (Hrent & Hburden & Hmha).
  assert (Hlegend : forall s, renderLegend layer s = (Done tt, s)).
  { intros s. unfold renderLegend, get_property, LEGEND_CONFIG. cbn [own_property].
    rewrite (String.eqb_sym "rent"), Hrent, (String.eqb_sym "burden"), Hburden,
      (String.eqb_sym "mha"), Hmha, Hplain. reflexivity. }
  exists (after_switch layer (set_activeLayer layer (set_active_buttons [layer] st))).
  split.
  { unfold toggle_click, bind at 1, gets.
    apply String.eqb_neq in Hother. rewrite Hother.
    do 3 (erewrite bind_done by reflexivity).
    erewrite bind_done by apply Hlegend.
    apply switchMapLayer_run. }
  split; [reflexivity|]. split; [reflexivity|]. split; [reflexivity|]. split.
  - intros id Hid. unfold after_switch. fields. rewrite switched_lookup.
    destruct (layers st !! id) as [l|]; simpl; [|reflexivity].
    unfold layers_of. rewrite Hrent, Hburden, Hmha.
    rewrite (bool_decide_eq_false_2 (id ∈ [])) by set_solver.
    rewrite (bool_decide_eq_true_2 _ Hid). reflexivity.
  - unfold visible_set, visible_layer.
    rewrite !shown_after_switch by (unfold thematic; set_solver).
    unfold layers_of. rewrite Hrent, Hburden, Hmha.
    rewrite !(bool_decide_eq_false_2 (_ ∈ [])) by set_solver. reflexivity.
Qed.

Lemma toggle_click_unknown_witness :
  let st := snd (map_on_load true (Fulfilled []) (Fulfilled [])
                   (initial_state (fun _ => []))) in
  exists st',
    toggle_click "zoning" st = (Done tt, st')
    /\ activeLayer st' = "zoning"
    /\ legend_items st' = legend_items st
    /\ text st' = text st
    /\ (forall id, id ∈ thematic ->
          layers st' !! id = with_visibility "none" <$> layers st !! id)
    /\ visible_set st' = [].
Proof.
  intros st. apply (toggle_click_unknown "zoning" st).
  - discriminate.
  - set_solver.
  - reflexivity.
Defined.

(** ** The housing dashboard: the bar chart and inherited names *)

Lemma group_rents_raises (data : list bar_datum) (grouped : object (list Q)) :
  Forall (fun k => inherited k = false) (map fst grouped) ->
  (exists d, d ∈ data /\ inherited (group_key d) = true) ->
  exists msg, group_rents data grouped = Raise (TypeError msg).
Proof.
  revert grouped. induction data as [|d data IH]; intros grouped Hkeys (bad & Hbad & Hinh).
  - inversion Hbad.
  - simpl. unfold group_step, get_property.
    destruct (own_property grouped (group_key d)) as [rs|] eqn:Hown.
    + apply IH.
      * rewrite keys_push_to. exact Hkeys.
      * apply elem_of_cons in Hbad as [->|Hbad]; [|exists bad; split; assumption].
        exfalso. assert (Hin : group_key d ∈ map fst grouped).
        { destruct (decide (group_key d ∈ map fst grouped)) as [Hin|Hnot]; [exact Hin|].
          apply own_property_None in Hnot. congruence. }
        rewrite Forall_forall in Hkeys. apply Hkeys in Hin. congruence.
    + destruct (inherited (group_key d)) eqn:Hd; [eexists; reflexivity|].
      apply IH.
      * rewrite map_app. apply Forall_app. split; [exact Hkeys|].
        constructor; [exact Hd|constructor].
      * apply elem_of_cons in Hbad as [->|Hbad]; [congruence|].
        exists bad. split; assumption.
Qed.

(** X9.  When a record is filed under the name of a member of [Object.prototype]
    (such as [constructor]), [updateBarChart] raises a [TypeError] and the
    bar chart, like the rest of the state, is as before. *)
Theorem updateBarChart_inherited_name (data : list bar_datum) (st : state) (c : chart) :
  barChart st = Some c ->
  (exists d, d ∈ data /\ inherited (group_key d) = true) ->
  exists msg, updateBarChart data st = (Raise (TypeError msg), st).
Proof.
  intros Hchart Hbad.
  destruct (group_rents_raises data [] (List.Forall_nil _) Hbad) as (msg & Hraise).
  exists msg. unfold updateBarChart, bind, gets, lift. rewrite Hchart, Hraise.
  destruct data as [|d data]; [|reflexivity].
  destruct Hbad as (d & Hd & _). inversion Hd.
Qed.

Lemma updateBarChart_inherited_name_witness :
  let data := [ {| neighborhood := Some "Ballard"; rent := 2000 |};
                {| neighborhood := Some "constructor"; rent := 1800 |} ] in
  let st := snd (initCharts (initial_state (fun _ => []))) in
  exists msg, updateBarChart data st = (Raise (TypeError msg), st).
Proof.
  intros data st. apply (updateBarChart_inherited_name data st bar_placeholder).
  - reflexivity.
  - exists {| neighborhood := Some "constructor"; rent := 1800 |}.
    split; [set_solver|reflexivity].
Defined.

(** ** The housing dashboard: clicking twice *)

Lemma insert_again {V} (m : gmap string V) (k1 k2 : string) (v1 v2 : V) :
  <[k2 := v2]> (<[k1 := v1]> (<[k2 := v2]> (<[k1 := v1]> m)))
  = <[k2 := v2]> (<[k1 := v1]> m).
Proof.
  apply map_eq. intros k. rewrite !lookup_insert.
  repeat case_decide; reflexivity.
Qed.

Lemma click_views_twice (tractName : string) (timeseries : list ts_entry)
    (props : tract) (st : state) :
  exists st1,
    bind (updateLineChart tractName (JArray (map Some timeseries)))
      (fun _ => updateDonutChart tractName props) st = (Done tt, st1)
    /\ bind (updateLineChart tractName (JArray (map Some timeseries)))
         (fun _ => updateDonutChart tractName props) st1 = (Done tt, st1).
Proof.
  unfold bind. rewrite updateLineChart_records.
  unfold updateDonutChart, bind, gets, setText, modify, ret.
  destruct st as [a h b l d t li ab td so la r c ls ti co]. fields.
  destruct (stable_sort by_year (List.filter valid_entry timeseries)) as [|v vs]
    eqn:Hvalid.
  - destruct l as [l|], d as [d|]; eexists; (split; [reflexivity|]);
      rewrite updateLineChart_records, Hvalid; fields;
      try reflexivity; rewrite insert_insert_eq; reflexivity.
  - destruct l as [l|], d as [d|]; eexists; (split; [reflexivity|]);
      rewrite updateLineChart_records, Hvalid; fields;
      try reflexivity;
      first [ rewrite insert_again; reflexivity
            | rewrite insert_insert_eq; reflexivity ].
Qed.

Section Twice.
Context `{Runtime}.

(** X10.  A click on a tract whose [RENT_TIMESERIES] parses, made twice, has
    the outcome and the state of one click.  The click completes, and the
    second one leaves every chart and every text as the first left them,
    exactly when the line chart does not exist or the parsed value holds a
    time series: a falsy value, a value of length 0, or an array without a
    [null] element.  For any other value, such as [{}], [5] or [[null]],
    [updateLineChart] raises a [TypeError] before [updateDonutChart] is
    called, and the click changes nothing. *)
Theorem tract_click_twice (features : list tract) (st : state) :
  (forall props rest, features = props :: rest ->
     exists v, JSON_parse (or_string (RENT_TIMESERIES props) "[]") = Some v) ->
  exists o st1,
    tract_click features st = (o, st1)
    /\ tract_click features st1 = (o, st1)
    /\ (o = Done tt \/ exists msg, o = Raise (TypeError msg) /\ st1 = st)
    /\ (forall props rest v,
          features = props :: rest ->
          JSON_parse (or_string (RENT_TIMESERIES props) "[]") = Some v ->
          (o = Done tt <-> lineChart st = None \/ is_Some (series_of v))).
Proof.
  intros Hparse. destruct features as [|props rest].
  - exists (Done tt), st. split; [reflexivity|]. split; [reflexivity|].
    split; [left; reflexivity|]. intros props rest v Hnil. discriminate.
  - destruct (Hparse props rest eq_refl) as (v & Hv).
    assert (Hcases :
      exists o st1,
        tract_click (props :: rest) st = (o, st1)
        /\ tract_click (props :: rest) st1 = (o, st1)
        /\ (o = Done tt \/ exists msg, o = Raise (TypeError msg) /\ st1 = st)
        /\ (o = Done tt <-> lineChart st = None \/ is_Some (series_of v))).
    { rewrite tract_click_run, Hv.
      destruct (series_of v) as [timeseries|] eqn:Hseries.
      - destruct (click_views_twice (or_string (NAME props) "Selected Tract")
                    timeseries props st) as (st1 & Hfirst & Hsecond).
        exists (Done tt), st1. rewrite tract_click_run, Hv. unfold bind.
        rewrite !(updateLineChart_series _ v timeseries _ Hseries).
        split; [exact Hfirst|]. split; [exact Hsecond|].
        split; [left; reflexivity|]. split; [intros _; right; eexists; reflexivity|].
        intros _. reflexivity.
      - destruct (lineChart st) as [c|] eqn:Hchart.
        + destruct (updateLineChart_raises (or_string (NAME props) "Selected Tract")
                      v st c Hseries Hchart) as (msg & Hraise).
          exists (Raise (TypeError msg)), st. rewrite tract_click_run, Hv. unfold bind.
          rewrite Hraise.
          split; [reflexivity|]. split; [reflexivity|].
          split; [right; exists msg; split; reflexivity|]. split; [discriminate|].
          intros [Hnone|[ts Hts]]; discriminate.
        + destruct (click_views_twice (or_string (NAME props) "Selected Tract")
                      [] props st) as (st1 & Hfirst & Hsecond).
          assert (Hchart1 : lineChart st1 = None).
          { revert Hfirst. unfold bind. rewrite updateLineChart_records, Hchart.
            intros Hfirst.
            destruct (updateDonutChart_done (or_string (NAME props) "Selected Tract")
                        props st) as (st' & Hdonut & Hsame & _).
            rewrite Hdonut in Hfirst. injection Hfirst as <-.
            rewrite Hsame. exact Hchart. }
          exists (Done tt), st1. rewrite tract_click_run, Hv. unfold bind.
          rewrite (updateLineChart_no_chart _ v st Hchart),
            (updateLineChart_no_chart _ v st1 Hchart1).
          revert Hfirst Hsecond. unfold bind.
          rewrite (updateLineChart_no_chart _ _ st Hchart),
            (updateLineChart_no_chart _ _ st1 Hchart1).
          intros Hfirst Hsecond.
          split; [exact Hfirst|]. split; [exact Hsecond|].
          split; [left; reflexivity|]. split; [intros _; left; reflexivity|].
          intros _. reflexivity. }
    destruct Hcases as (o & st1 & Hfirst & Hsecond & Hshape & Hdone).
    exists o, st1. split; [exact Hfirst|]. split; [exact Hsecond|].
    split; [exact Hshape|].
    intros props' rest' v' [= <- <-] Hv'. rewrite Hv in Hv'. injection Hv' as <-.
    exact Hdone.
Qed.

End Twice.

Lemma tract_click_twice_witness :
  let props :=
    {| GEOID := Some "53033000100"; NAME := Some "Census Tract 1";
       NEIGHBORHOOD := Some "Ballard"; MEDIAN_RENT := Some 2000%Q;
       RENT_BURDEN_PCT := None; RENT_TIMESERIES := Some "[null]";
       GRAPI_LESS_15 := Some 10%Q; GRAPI_15_20 := None; GRAPI_20_25 := None;
       GRAPI_25_30 := None; GRAPI_30_35 := None; GRAPI_35_PLUS := Some 40%Q |} in
  let st := snd (map_on_load true (Fulfilled []) (Fulfilled [props])
                   (initial_state (fun _ => [props]))) in
  exists o st1,
    tract_click [props] st = (o, st1)
    /\ tract_click [props] st1 = (o, st1)
    /\ (o = Done tt \/ exists msg, o = Raise (TypeError msg) /\ st1 = st)
    /\ (forall p rest v,
          [props] = p :: rest ->
          JSON_parse (or_string (RENT_TIMESERIES p) "[]") = Some v ->
          (o = Done tt <-> lineChart st = None \/ is_Some (series_of v))).
Proof.
  intros props st. apply (tract_click_twice [props] st).
  intros p rest [= <- <-]. exists (JArray [None]). reflexivity.
Defined.

(** Texts that parse to a value without a time series: the click raises in
    [updateLineChart], and the donut chart keeps its title and its
    columns. *)
Example tract_click_not_a_series :
  let tract_of s :=
    {| GEOID := Some "53033000100"; NAME := Some "Census Tract 1";
       NEIGHBORHOOD := Some "Ballard"; MEDIAN_RENT := Some 2000%Q;
       RENT_BURDEN_PCT := None; RENT_TIMESERIES := Some s;
       GRAPI_LESS_15 := Some 10%Q; GRAPI_15_20 := None; GRAPI_20_25 := None;
       GRAPI_25_30 := None; GRAPI_30_35 := None; GRAPI_35_PLUS := Some 40%Q |} in
  let st := snd (map_on_load true (Fulfilled []) (Fulfilled [])
                   (initial_state (fun _ => []))) in
  tract_click [tract_of "{}"] st
  = (Raise (TypeError "timeseries.filter is not a function"), st)
  /\ tract_click [tract_of "5"] st
     = (Raise (TypeError "timeseries.filter is not a function"), st)
  /\ tract_click [tract_of "[null]"] st
     = (Raise (TypeError "Cannot read properties of null (reading 'rent')"), st)
  /\ fst (tract_click [tract_of "null"] st) = Done tt
  /\ text (snd (tract_click [tract_of "null"] st)) !! "chart3-title"
     = Some "Census Tract 1 · Rent Burden".
Proof. split; [|split; [|split; [|split]]]; vm_compute; reflexivity. Qed.

End HousingMore.

(** ** The tooltip: placement *)

Module TooltipFacts.
Import Tooltip.
Local Open Scope Q_scope.

Lemma Qle_bool_false (a b : Q) : Qle_bool a b = false -> b < a.
Proof.
  intros Hfalse. apply Qnot_le_lt. intros Hle.
  apply Qle_bool_iff in Hle. congruence.
Qed.

(** X11.  For a pointer inside the window, the tooltip that [positionTooltip]
    places ends at or before the right edge and the bottom edge of the
    window, and it is clear of the pointer by the offset of 16 pixels on
    each axis: it starts 16 pixels after the pointer or ends 16 pixels
    before it. *)
Theorem positionTooltip_in_window (w h innerWidth innerHeight : Q) (e : event) :
  clientX (pointer_of e) <= innerWidth ->
  clientY (pointer_of e) <= innerHeight ->
  fst (positionTooltip w h innerWidth innerHeight e) + w <= innerWidth
  /\ snd (positionTooltip w h innerWidth innerHeight e) + h <= innerHeight
  /\ (fst (positionTooltip w h innerWidth innerHeight e) == clientX (pointer_of e) + 16
      \/ fst (positionTooltip w h innerWidth innerHeight e) + w + 16
         == clientX (pointer_of e))
  /\ (snd (positionTooltip w h innerWidth innerHeight e) == clientY (pointer_of e) + 16
      \/ snd (positionTooltip w h innerWidth innerHeight e) + h + 16
         == clientY (pointer_of e)).
Proof.
  intros Hx Hy. unfold positionTooltip. cbn [fst snd].
  destruct (Qle_bool (clientX (pointer_of e) + w + 16) innerWidth) eqn:Hfitx;
    destruct (Qle_bool (clientY (pointer_of e) + h + 16) innerHeight) eqn:Hfity;
    cbn [negb];
    try apply Qle_bool_iff in Hfitx; try apply Qle_bool_iff in Hfity;
    try apply Qle_bool_false in Hfitx; try apply Qle_bool_false in Hfity;
    (split; [lra|]); (split; [lra|]); split;
    first [ left; lra | right; lra ].
Qed.

Lemma positionTooltip_in_window_witness :
  let e := MapEvent {| clientX := 1200; clientY := 100 |} in
  fst (positionTooltip 220 90 1280 720 e) + 220 <= 1280
  /\ snd (positionTooltip 220 90 1280 720 e) + 90 <= 720
  /\ (fst (positionTooltip 220 90 1280 720 e) == clientX (pointer_of e) + 16
      \/ fst (positionTooltip 220 90 1280 720 e) + 220 + 16 == clientX (pointer_of e))
  /\ (snd (positionTooltip 220 90 1280 720 e) == clientY (pointer_of e) + 16
      \/ snd (positionTooltip 220 90 1280 720 e) + 90 + 16 == clientY (pointer_of e)).
Proof.
  intros e. apply (positionTooltip_in_window 220 90 1280 720 e).
  - vm_compute. discriminate.
  - vm_compute. discriminate.
Defined.

(** X12.  The tooltip is not kept within the window on the left and at the top:
    for a pointer at a non-negative position, the tooltip starts left of the
    window exactly when it fits neither to the right of the pointer nor to
    its left, and above the window exactly when it fits neither below the
    pointer nor above it. *)
Theorem positionTooltip_off_window (w h innerWidth innerHeight : Q) (e : event) :
  0 <= clientX (pointer_of e) ->
  0 <= clientY (pointer_of e) ->
  (fst (positionTooltip w h innerWidth innerHeight e) < 0
   <-> innerWidth < clientX (pointer_of e) + w + 16
       /\ clientX (pointer_of e) < w + 16)
  /\ (snd (positionTooltip w h innerWidth innerHeight e) < 0
      <-> innerHeight < clientY (pointer_of e) + h + 16
          /\ clientY (pointer_of e) < h + 16).
Proof.
  intros Hx Hy. unfold positionTooltip. cbn [fst snd].
  destruct (Qle_bool (clientX (pointer_of e) + w + 16) innerWidth) eqn:Hfitx;
    destruct (Qle_bool (clientY (pointer_of e) + h + 16) innerHeight) eqn:Hfity;
    cbn [negb];
    try apply Qle_bool_iff in Hfitx; try apply Qle_bool_iff in Hfity;
    try apply Qle_bool_false in Hfitx; try apply Qle_bool_false in Hfity;
    split; split; intros; try split; lra.
Qed.

Lemma positionTooltip_off_window_witness :
  let e := PointerEvent {| clientX := 100; clientY := 40 |} in
  (fst (positionTooltip 220 90 300 100 e) < 0
   <-> 300 < clientX (pointer_of e) + 220 + 16 /\ clientX (pointer_of e) < 220 + 16)
  /\ (snd (positionTooltip 220 90 300 100 e) < 0
      <-> 100 < clientY (pointer_of e) + 90 + 16 /\ clientY (pointer_of e) < 90 + 16).
Proof.
  intros e. apply (positionTooltip_off_window 220 90 300 100 e).
  - vm_compute. discriminate.
  - vm_compute. discriminate.
Defined.

End TooltipFacts.

(** ** The zoning map: one highlighted zone *)

Module ZonesFacts.
Import Zones.

Ltac fields :=
  cbn [hoveredId featureState cursor popup
       set_hoveredId set_featureState set_cursor set_popup].

(** Each handler completes, and keeps the mark of the feature state on the
    hovered zone alone. *)
Lemma handle_keeps (member_text : string -> string) (ev : pointer_event) (st : state) :
  (forall i, featureState st !! i = Some true <-> hoveredId st = Some i) ->
  fst (handle member_text ev st) = Done tt
  /\ (forall i, featureState (snd (handle member_text ev st)) !! i = Some true
                <-> hoveredId (snd (handle member_text ev st)) = Some i)
  /\ hoveredId (snd (handle member_text ev st))
     = match ev with Move e => Some (feature_id e) | Leave => None end
  /\ popup (snd (handle member_text ev st))
     = match ev with
       | Move e => Some (lngLat e, popup_html member_text (properties e))
       | Leave => None
       end
  /\ cursor (snd (handle member_text ev st))
     = match ev with Move _ => "pointer" | Leave => "" end.
Proof.
  intros Hmark. destruct st as [hovered marks c p]. revert Hmark. fields.
  intros Hmark.
  destruct ev as [e|]; unfold handle, mousemove, mouseleave, setFeatureState,
    bind, gets, modify, ret; fields; destruct hovered as [j|]; fields;
    cbn [fst snd]; fields;
    (split; [reflexivity|]); (split; [|repeat split; reflexivity]); intros i.
  - destruct (decide (feature_id e = i)) as [->|Hi].
    + rewrite lookup_insert_eq. tauto.
    + rewrite lookup_insert_ne by exact Hi.
      destruct (decide (j = i)) as [->|Hj].
      * rewrite lookup_insert_eq. split; [discriminate|congruence].
      * rewrite lookup_insert_ne by exact Hj. rewrite Hmark.
        split; congruence.
  - destruct (decide (feature_id e = i)) as [->|Hi].
    + rewrite lookup_insert_eq. tauto.
    + rewrite lookup_insert_ne by exact Hi. rewrite Hmark.
      split; congruence.
  - destruct (decide (j = i)) as [->|Hj].
    + rewrite lookup_insert_eq. split; discriminate.
    + rewrite lookup_insert_ne by exact Hj. rewrite Hmark.
      split; [congruence|discriminate].
  - apply Hmark.
Qed.

Lemma handle_all_keeps (member_text : string -> string)
    (evs : list pointer_event) (st : state) :
  (forall i, featureState st !! i = Some true <-> hoveredId st = Some i) ->
  (forall i, featureState (handle_all member_text evs st) !! i = Some true
             <-> hoveredId (handle_all member_text evs st) = Some i)
  /\ hoveredId (handle_all member_text evs st)
     = match last evs with
       | Some (Move e) => Some (feature_id e)
       | Some Leave => None
       | None => hoveredId st
       end
  /\ popup (handle_all member_text evs st)
     = match last evs with
       | Some (Move e) => Some (lngLat e, popup_html member_text (properties e))
       | Some Leave => None
       | None => popup st
       end.
Proof.
  revert st. induction evs as [|ev evs IH]; intros st Hmark.
  - simpl. split; [exact Hmark|]. split; reflexivity.
  - destruct (handle_keeps member_text ev st Hmark)
      as (_ & Hmark' & Hhovered & Hpopup & _).
    destruct (IH _ Hmark') as (Hall & Hlast & Hlastp).
    cbn [handle_all]. split; [exact Hall|].
    rewrite Hlast, Hlastp.
    destruct evs as [|ev' evs].
    + cbn [last]. rewrite Hhovered, Hpopup. destruct ev; split; reflexivity.
    + rewrite last_cons_cons.
      destruct (last (ev' :: evs)) as [[e|]|] eqn:Hlast'; try (split; reflexivity).
      apply last_None in Hlast'. discriminate.
Qed.

(** X13.  Whatever the pointer does over the zones, starting from the fresh map:
    after the handlers have run, the zones whose feature state is marked as
    hovered are the zone of the last event when that was a move, and none
    when it was a leave; the popup is on the map, at the pointer and with
    the text of that zone, in the first case only. *)
Theorem hover_marks_one_zone (member_text : string -> string)
    (evs : list pointer_event) :
  (forall i,
     featureState (handle_all member_text evs initial_state) !! i = Some true
     <-> exists e, last evs = Some (Move e) /\ feature_id e = i)
  /\ popup (handle_all member_text evs initial_state)
     = match last evs with
       | Some (Move e) => Some (lngLat e, popup_html member_text (properties e))
       | _ => None
       end.
Proof.
  destruct (handle_all_keeps member_text evs initial_state)
    as (Hmark & Hhovered & Hpopup).
  { intros i. simpl. rewrite lookup_empty. split; discriminate. }
  split.
  - intros i. rewrite Hmark, Hhovered.
    destruct (last evs) as [[e|]|]; simpl.
    + split; [intros [= <-]; exists e; split; reflexivity|].
      intros (e' & [= <-] & <-). reflexivity.
    + split; [discriminate|intros (e' & [=] & _)].
    + split; [discriminate|intros (e' & [=] & _)].
  - rewrite Hpopup. destruct (last evs) as [[e|]|]; reflexivity.
Qed.

End ZonesFacts.

(** ** The trend dashboard: loading, the slider and the threshold buttons *)

Module TrendsMore.
Import Trends TrendsFacts.

Lemma by_YEAR_total (a b : properties) : by_YEAR a b = true \/ by_YEAR b a = true.
Proof. unfold by_YEAR. rewrite !Z.leb_le. lia. Qed.

Lemma by_YEAR_trans (a b c : properties) :
  by_YEAR a b = true -> by_YEAR b c = true -> by_YEAR a c = true.
Proof. unfold by_YEAR. rewrite !Z.leb_le. lia. Qed.

Section Charts.
Context `{Runtime}.

(** X14.  When the trend chart exists, [updateTrendChart] completes.  The rows it
    takes from the dataset of the threshold are the rows of all renters (all
    races, all ages), each once, in ascending order of year; it loads their
    years and rates into the chart, and leaves the chart as it is when there
    is no such row. *)
Theorem updateTrendChart_sorted (threshold : Z) (st : state) (c : chart) :
  trendChart st = Some c ->
  exists rows,
    rows ≡ₚ List.filter (fun f => String.eqb (TENURE f) "Renters"
                                  && String.eqb (RACE f) "All"
                                  && String.eqb (AGE f) "All")
              (dataset_for threshold st)
    /\ Forall (fun f => f ∈ dataset_for threshold st
                        /\ TENURE f = "Renters" /\ RACE f = "All" /\ AGE f = "All") rows
    /\ StronglySorted (fun a b => (YEAR a <= YEAR b)%Z) rows
    /\ updateTrendChart threshold st
       = (Done tt,
          match rows with
          | [] => st
          | _ :: _ =>
              set_trendChart
                (Some [ ("x", strs (map (fun r => String_of_Z (YEAR r)) rows));
                        ("Renters", nums (map All_ rows)) ]) st
          end).
Proof.
  intros Hchart.
  set (aggregate := fun f => String.eqb (TENURE f) "Renters"
                             && String.eqb (RACE f) "All"
                             && String.eqb (AGE f) "All").
  set (rows := stable_sort by_YEAR (List.filter aggregate (dataset_for threshold st))).
  assert (Hperm : rows ≡ₚ List.filter aggregate (dataset_for threshold st))
    by apply stable_sort_perm.
  exists rows. split; [exact Hperm|]. split; [|split].
  - apply Forall_forall. intros f Hf. rewrite Hperm in Hf.
    apply list_elem_of_In, List.filter_In in Hf as [Hf Hagg].
    unfold aggregate in Hagg. rewrite !andb_true_iff, !String.eqb_eq in Hagg.
    split; [|tauto]. apply list_elem_of_In. exact Hf.
  - eapply HousingMore.StronglySorted_weaken;
      [|exact (stable_sort_sorted by_YEAR by_YEAR_total by_YEAR_trans
                 (List.filter aggregate (dataset_for threshold st)))].
    intros a b Hab. unfold by_YEAR in Hab. apply Z.leb_le in Hab. exact Hab.
  - unfold updateTrendChart, bind at 1, gets at 1. fold aggregate. fold rows.
    destruct rows as [|r rows']; [reflexivity|].
    unfold load_chart, bind, gets, modify. rewrite Hchart. reflexivity.
Qed.

(** X15.  Before the charts exist, the handlers of the controls end in a
    [TypeError].  The slider has then set the year and its display already;
    a threshold button, while no dataset is loaded, has marked itself active
    and set the threshold. *)
Theorem controls_before_charts (value threshold : Z) (st : state) :
  raceChart st = None ->
  slider_input value st
  = (Raise (TypeError "Cannot read properties of undefined (reading 'load')"),
     set_text (<["year-display" := String_of_Z value]> (text st))
       (set_currentYear value st))
  /\ (burden50 st = [] -> burden30 st = [] ->
      threshold_click threshold st
      = (Raise (TypeError "Cannot read properties of undefined (reading 'load')"),
         set_currentThreshold threshold (set_active_buttons [threshold] st))).
Proof.
  intros Hrace. split.
  - unfold slider_input, updateYearCharts, load_chart, setText, bind, gets, modify.
    fields. rewrite Hrace. reflexivity.
  - intros H50 H30.
    unfold threshold_click, updateTrendChart, updateYearCharts, load_chart,
      dataset_for, setText, bind, gets, modify.
    fields. rewrite H50, H30.
    destruct (threshold =? 50)%Z; cbn [List.filter];
      change (stable_sort by_YEAR []) with (@nil properties);
      unfold ret; fields; rewrite Hrace; reflexivity.
Qed.

End Charts.

Lemma updateTrendChart_sorted_witness :
  let st := snd (initCharts
                   (set_burden50
                      [ TrendsSpec.burden_row 2022 "Renters" "All" "All" (25 # 100);
                        TrendsSpec.burden_row 2022 "Renters" "White" "All" (21 # 100);
                        TrendsSpec.burden_row 2010 "Renters" "All" "All" (23 # 100) ]
                      initial_state)) in
  exists rows,
    rows ≡ₚ List.filter (fun f => String.eqb (TENURE f) "Renters"
                                  && String.eqb (RACE f) "All"
                                  && String.eqb (AGE f) "All")
              (dataset_for 50 st)
    /\ Forall (fun f => f ∈ dataset_for 50 st
                        /\ TENURE f = "Renters" /\ RACE f = "All" /\ AGE f = "All") rows
    /\ StronglySorted (fun a b => (YEAR a <= YEAR b)%Z) rows
    /\ updateTrendChart 50 st
       = (Done tt,
          match rows with
          | [] => st
          | _ :: _ =>
              set_trendChart
                (Some [ ("x", strs (map (fun r => String_of_Z (YEAR r)) rows));
                        ("Renters", nums (map All_ rows)) ]) st
          end).
Proof.
  intros st. refine (updateTrendChart_sorted 50 st trend_placeholder _).
  reflexivity.
Defined.

Lemma controls_before_charts_witness :
  slider_input 2015 initial_state
  = (Raise (TypeError "Cannot read properties of undefined (reading 'load')"),
     set_text (<["year-display" := String_of_Z 2015]> (text initial_state))
       (set_currentYear 2015 initial_state))
  /\ (burden50 initial_state = [] -> burden30 initial_state = [] ->
      threshold_click 30 initial_state
      = (Raise (TypeError "Cannot read properties of undefined (reading 'load')"),
         set_currentThreshold 30 (set_active_buttons [30%Z] initial_state))).
Proof.
  apply (controls_before_charts 2015 30 initial_state). reflexivity.
Defined.


Import TrendsViews.

Section Views.
Context `{Runtime}.

Lemma updateTrendChart_run (threshold : Z) (st : state) (c : chart) :
  trendChart st = Some c ->
  updateTrendChart threshold st = (Done tt, trend_view threshold st).
Proof.
  intros Hchart. unfold updateTrendChart, trend_view, bind at 1, gets at 1.
  destruct (stable_sort by_YEAR _) as [|r rows]; [reflexivity|].
  unfold load_chart, bind, gets, modify. rewrite Hchart. reflexivity.
Qed.

Lemma updateYearCharts_run (year threshold : Z) (st : state) (race inc : chart) :
  raceChart st = Some race ->
  incomeChart st = Some inc ->
  updateYearCharts year threshold st = (Done tt, year_views year threshold st).
Proof.
  intros Hrace Hinc.
  unfold updateYearCharts, year_views, race_columns, income_columns, year_label,
    load_chart, setText, bind, gets, modify, ret.
  destruct st as [y t d50 d30 dinc tc rc ic tx ab co].
  cbn [raceChart incomeChart] in Hrace, Hinc. subst rc ic. fields.
  unfold dataset_for. fields.
  destruct (List.find (fun f => (YEAR f =? year)%Z) dinc) as [incRow|]; fields;
    destruct (List.find _ (if (threshold =? 50)%Z then d50 else d30)) as [statRow|];
    reflexivity.
Qed.

Lemma trend_view_same (threshold : Z) (st : state) :
  currentYear (trend_view threshold st) = currentYear st
  /\ currentThreshold (trend_view threshold st) = currentThreshold st
  /\ burden50 (trend_view threshold st) = burden50 st
  /\ burden30 (trend_view threshold st) = burden30 st
  /\ income (trend_view threshold st) = income st
  /\ raceChart (trend_view threshold st) = raceChart st
  /\ incomeChart (trend_view threshold st) = incomeChart st
  /\ text (trend_view threshold st) = text st
  /\ active_buttons (trend_view threshold st) = active_buttons st
  /\ console (trend_view threshold st) = console st
  /\ (is_Some (trendChart st) -> is_Some (trendChart (trend_view threshold st))).
Proof.
  unfold trend_view. destruct (stable_sort by_YEAR _) as [|r rows];
    repeat apply conj; try reflexivity; intros Hsome; [exact Hsome|].
  eexists. reflexivity.
Qed.

(** X16.  When the three fetches are fulfilled, loading completes, whatever rows
    the datasets hold: nothing is written to the console, the three
    datasets are stored, the three charts exist, and the race chart and its
    label show the current year at the current threshold. *)
Theorem load_data_fulfilled (b50 b30 inc : geojson) (st : state) :
  exists st',
    load_data (Fulfilled b50) (Fulfilled b30) (Fulfilled inc) st = (Done tt, st')
    /\ console st' = console st
    /\ burden50 st' = b50 /\ burden30 st' = b30 /\ income st' = inc
    /\ is_Some (trendChart st') /\ is_Some (incomeChart st')
    /\ raceChart st' = Some (race_columns (currentYear st) (currentThreshold st) st')
    /\ text st' !! "race-year" = Some (year_label (currentYear st)).
Proof.
  set (st0 := set_incomeChart (Some (c3_generate income_placeholder))
                (set_raceChart (Some (c3_generate race_placeholder))
                   (set_trendChart (Some (c3_generate trend_placeholder))
                      (set_income inc (set_burden30 b30 (set_burden50 b50 st)))))).
  destruct (trend_view_same (currentThreshold st) st0)
    as (Hy & Ht & H50 & H30 & Hi & Hrc & Hic & Htx & Hab & Hco & Htc).
  exists (year_views (currentYear st) (currentThreshold st)
            (trend_view (currentThreshold st) st0)).
  split.
  { unfold load_data, try_catch.
    do 5 (erewrite HousingFacts.bind_done by reflexivity).
    erewrite HousingFacts.bind_done
      by (apply (updateTrendChart_run _ _ (c3_generate trend_placeholder));
          reflexivity).
    fold st0. change (currentThreshold st0) with (currentThreshold st).
    do 2 (erewrite HousingFacts.bind_done by reflexivity).
    rewrite Hy, Ht. change (currentYear st0) with (currentYear st).
    change (currentThreshold st0) with (currentThreshold st).
    erewrite updateYearCharts_run by (first [rewrite Hrc|rewrite Hic]; reflexivity).
    reflexivity. }
  unfold year_views. fields. rewrite Hco, H50, H30, Hi.
  repeat apply conj; try reflexivity.
  - apply Htc. eexists. reflexivity.
  - rewrite Hic. destruct (List.find _ (income _)); eexists; reflexivity.
  - destruct (List.find _ (income _)), (List.find _ (dataset_for _ _));
      repeat (rewrite lookup_insert_ne by discriminate); apply lookup_insert_eq.
Qed.


Lemma state_eq (s s' : state) :
  currentYear s = currentYear s' ->
  currentThreshold s = currentThreshold s' ->
  burden50 s = burden50 s' ->
  burden30 s = burden30 s' ->
  income s = income s' ->
  trendChart s = trendChart s' ->
  raceChart s = raceChart s' ->
  incomeChart s = incomeChart s' ->
  text s = text s' ->
  active_buttons s = active_buttons s' ->
  console s = console s' ->
  s = s'.
Proof. destruct s, s'. simpl. intros. subst. reflexivity. Qed.

Lemma find_elem {A} (q : A -> bool) (l : list A) (x : A) :
  x ∈ l -> q x = true -> exists y, List.find q l = Some y.
Proof.
  intros Hx Hq. destruct (List.find q l) as [y|] eqn:Hfind; [exists y; reflexivity|].
  apply list_elem_of_In in Hx. rewrite (List.find_none q l Hfind x Hx) in Hq.
  discriminate.
Qed.

(** [trend_view] changes the trend chart only. *)
Lemma trend_view_set (threshold : Z) (st : state) :
  trend_view threshold st
  = set_trendChart
      match stable_sort by_YEAR
              (List.filter (fun f => String.eqb (TENURE f) "Renters"
                                     && String.eqb (RACE f) "All"
                                     && String.eqb (AGE f) "All")
                 (dataset_for threshold st)) with
      | [] => trendChart st
      | r :: rows =>
          Some [ ("x", strs (map (fun r => String_of_Z (YEAR r)) (r :: rows)));
                 ("Renters", nums (map All_ (r :: rows))) ]
      end st.
Proof.
  unfold trend_view. destruct (stable_sort by_YEAR _) as [|r rows]; [|reflexivity].
  destruct st; reflexivity.
Qed.

Lemma year_views_charts (year threshold : Z) (st : state) :
  trendChart (year_views year threshold st) = trendChart st
  /\ is_Some (raceChart (year_views year threshold st))
  /\ (is_Some (incomeChart st) -> is_Some (incomeChart (year_views year threshold st))).
Proof.
  unfold year_views. fields. split; [reflexivity|]. split; [eexists; reflexivity|].
  intros Hinc. destruct (List.find _ (income st)); [eexists; reflexivity|exact Hinc].
Qed.

Lemma slider_input_run (value : Z) (st : state) :
  is_Some (raceChart st) ->
  is_Some (incomeChart st) ->
  slider_input value st
  = (Done tt,
     year_views value (currentThreshold st)
       (set_text (<["year-display" := String_of_Z value]> (text st))
          (set_currentYear value st))).
Proof.
  intros [race Hrace] [inc Hinc]. unfold slider_input.
  do 4 (erewrite HousingFacts.bind_done by reflexivity). fields.
  apply (updateYearCharts_run _ _ _ race inc); assumption.
Qed.

Lemma threshold_click_run (threshold : Z) (st : state) :
  is_Some (trendChart st) ->
  is_Some (raceChart st) ->
  is_Some (incomeChart st) ->
  threshold_click threshold st
  = (Done tt,
     year_views (currentYear st) threshold
       (trend_view threshold
          (set_currentThreshold threshold (set_active_buttons [threshold] st)))).
Proof.
  intros [trend Htrend] [race Hrace] [inc Hinc]. unfold threshold_click.
  do 4 (erewrite HousingFacts.bind_done by reflexivity). fields.
  erewrite HousingFacts.bind_done
    by (apply (updateTrendChart_run _ _ trend); exact Htrend).
  erewrite HousingFacts.bind_done by reflexivity.
  change (set_active_buttons ([] ++ [threshold]) (set_active_buttons [] st))
    with (set_active_buttons [threshold] st).
  destruct (trend_view_same threshold
              (set_currentThreshold threshold (set_active_buttons [threshold] st)))
    as (Hy & _ & _ & _ & _ & Hrc & Hic & _).
  rewrite Hy. fields.
  apply (updateYearCharts_run _ _ _ race inc); [rewrite Hrc|rewrite Hic]; assumption.
Qed.

Ltac next_row :=
  first
    [ match goal with Hr : stable_sort _ _ = _ |- _ => rewrite Hr end
    | match goal with Hf : List.find _ _ = _ |- _ => rewrite Hf end
    | match goal with
      | |- context [match stable_sort ?f ?l with _ => _ end] =>
          destruct (stable_sort f l) eqn:?
      end
    | match goal with
      | |- context [match List.find ?q ?l with _ => _ end] =>
          destruct (List.find q l) eqn:?
      end ];
  fields.

Ltac views := rewrite ?trend_view_set; unfold year_views, dataset_for; fields.

(** X17.  While the charts exist and the year has a row in the income dataset
    and a row of all renters in the dataset of the threshold, moving the
    slider to the year and clicking the button of the threshold give the
    same charts and texts in either order. *)
Theorem controls_commute (year threshold : Z) (st : state) :
  is_Some (trendChart st) ->
  is_Some (raceChart st) ->
  is_Some (incomeChart st) ->
  (exists f, f ∈ income st /\ YEAR f = year) ->
  (exists f, f ∈ dataset_for threshold st /\ YEAR f = year
             /\ TENURE f = "Renters" /\ RACE f = "All" /\ AGE f = "All") ->
  exists st',
    bind (slider_input year) (fun _ => threshold_click threshold) st = (Done tt, st')
    /\ bind (threshold_click threshold) (fun _ => slider_input year) st = (Done tt, st').
Proof.
  intros Htrend Hrace Hinc (fi & Hfi & Hyi) (fs & Hfs & Hys & Hts & Hrs & Has).
  destruct (find_elem (fun f => (YEAR f =? year)%Z) (income st) fi Hfi)
    as (incRow & HincRow); [apply Z.eqb_eq, Hyi|].
  destruct (find_elem (fun f => (YEAR f =? year)%Z && String.eqb (TENURE f) "Renters"
                                && String.eqb (RACE f) "All" && String.eqb (AGE f) "All")
              (dataset_for threshold st) fs Hfs)
    as (statRow & HstatRow).
  { rewrite Hts, Hrs, Has, Hys, Z.eqb_refl. reflexivity. }
  clear fi Hfi Hyi fs Hfs Hys Hts Hrs Has.
  eexists. split.
  - erewrite HousingFacts.bind_done by (apply slider_input_run; assumption).
    apply threshold_click_run.
    + rewrite (proj1 (year_views_charts _ _ _)). exact Htrend.
    + apply year_views_charts.
    + apply year_views_charts. exact Hinc.
  - erewrite HousingFacts.bind_done by (apply threshold_click_run; assumption).
    rewrite slider_input_run.
    2: { apply year_views_charts. }
    2: { apply year_views_charts. rewrite trend_view_set. exact Hinc. }
    apply (f_equal (pair (Done tt))).
    unfold dataset_for in HstatRow.
    apply state_eq; views; views; try reflexivity.
    + rewrite HincRow. reflexivity.
    + rewrite HincRow, HstatRow. unfold year_label.
      repeat next_row.
      all: apply map_eq; intros k; rewrite !lookup_insert.
      all: repeat case_decide; reflexivity.
Qed.

(** X18.  While the charts exist, a second identical event of a control changes
    nothing: moving the slider to the year it is at, or clicking the
    threshold button that was clicked last, leaves every chart and text as
    the first event left it. *)
Theorem controls_twice (year threshold : Z) (st : state) :
  is_Some (trendChart st) ->
  is_Some (raceChart st) ->
  is_Some (incomeChart st) ->
  (exists st', slider_input year st = (Done tt, st')
               /\ slider_input year st' = (Done tt, st'))
  /\ (exists st', threshold_click threshold st = (Done tt, st')
                  /\ threshold_click threshold st' = (Done tt, st')).
Proof.
  intros Htrend Hrace Hinc. split.
  - eexists. split; [apply slider_input_run; assumption|].
    rewrite slider_input_run.
    2: { apply year_views_charts. }
    2: { apply year_views_charts. exact Hinc. }
    apply (f_equal (pair (Done tt))).
    apply state_eq; views; views; try reflexivity.
    + destruct (List.find _ (income st)); reflexivity.
    + unfold year_label. repeat next_row.
      all: apply map_eq; intros k; rewrite !lookup_insert.
      all: repeat case_decide; reflexivity.
  - eexists. split; [apply threshold_click_run; assumption|].
    rewrite threshold_click_run.
    2: { rewrite (proj1 (year_views_charts _ _ _)), trend_view_set. fields.
         destruct (stable_sort by_YEAR _); [exact Htrend|eexists; reflexivity]. }
    2: { apply year_views_charts. }
    2: { apply year_views_charts. rewrite trend_view_set. exact Hinc. }
    apply (f_equal (pair (Done tt))).
    apply state_eq; views; views; try reflexivity.
    + destruct (stable_sort by_YEAR _); reflexivity.
    + destruct (List.find _ (income st)); reflexivity.
    + unfold year_label. repeat next_row.
      all: apply map_eq; intros k; rewrite !lookup_insert.
      all: repeat case_decide; reflexivity.
Qed.

End Views.

Lemma controls_commute_witness :
  let rows50 := [ TrendsSpec.burden_row 2022 "Renters" "All" "All" (25 # 100);
                  TrendsSpec.burden_row 2010 "Renters" "All" "All" (23 # 100) ] in
  let rows30 := [ TrendsSpec.burden_row 2010 "Renters" "All" "All" (45 # 100);
                  TrendsSpec.burden_row 2010 "Renters" "White" "All" (41 # 100) ] in
  let incomes := [ TrendsSpec.income_row 2022 100 200 300 400 500;
                   TrendsSpec.income_row 2010 10 20 30 40 50 ] in
  let st := snd (load_data (Fulfilled rows50) (Fulfilled rows30) (Fulfilled incomes)
                   initial_state) in
  exists st',
    bind (slider_input 2010) (fun _ => threshold_click 30) st = (Done tt, st')
    /\ bind (threshold_click 30) (fun _ => slider_input 2010) st = (Done tt, st').
Proof.
  intros rows50 rows30 incomes st.
  apply (controls_commute 2010 30 st).
  - eexists. reflexivity.
  - eexists. reflexivity.
  - eexists. reflexivity.
  - exists (TrendsSpec.income_row 2010 10 20 30 40 50).
    split; [|reflexivity]. apply list_elem_of_In. right. left. reflexivity.
  - exists (TrendsSpec.burden_row 2010 "Renters" "All" "All" (45 # 100)).
    split; [|repeat split; reflexivity]. apply list_elem_of_In. left. reflexivity.
Defined.

Lemma controls_twice_witness :
  let st := snd (load_data (Fulfilled []) (Fulfilled [])
                   (Fulfilled [TrendsSpec.income_row 2022 100 200 300 400 500])
                   initial_state) in
  (exists st', slider_input 2022 st = (Done tt, st')
               /\ slider_input 2022 st' = (Done tt, st'))
  /\ (exists st', threshold_click 30 st = (Done tt, st')
                  /\ threshold_click 30 st' = (Done tt, st')).
Proof.
  intros st. apply (controls_twice 2022 30 st); eexists; reflexivity.
Defined.

End TrendsMore.

(** ** The housing dashboard: the map and the active layer stay in step *)

Module SessionFacts.
Import Housing HousingSpec HousingFacts HousingSession.

Lemma layers_of_spec (layer id : string) :
  id ∈ layers_of layer
  <-> (layer = "rent" /\ id = "rent-fill")
      \/ (layer = "burden" /\ id = "burden-fill")
      \/ (layer = "mha" /\ (id = "mha-fill" \/ id = "mha-line")).
Proof.
  unfold layers_of.
  destruct (String.eqb_spec layer "rent") as [->|Hrent].
  { rewrite !elem_of_cons, elem_of_nil. split; [tauto|].
    intros [[_ ->]|[[[=] _]|[[=] _]]]. tauto. }
  destruct (String.eqb_spec layer "burden") as [->|Hburden].
  { rewrite !elem_of_cons, elem_of_nil. split; [tauto|].
    intros [[[=] _]|[[_ ->]|[[=] _]]]. tauto. }
  destruct (String.eqb_spec layer "mha") as [->|Hmha].
  { rewrite !elem_of_cons, elem_of_nil. split; [tauto|].
    intros [[[=] _]|[[[=] _]|[_ [->| ->]]]]; tauto. }
  rewrite elem_of_nil. tauto.
Qed.

Lemma shown_switched (layer id : string) (st st' : state) :
  id ∈ thematic ->
  layers st' !! id = switched layer (layers st) !! id ->
  is_Some (layers st !! id) ->
  shown id st' = bool_decide (id ∈ layers_of layer).
Proof.
  intros Hid Hlookup [l Hl]. unfold shown. rewrite Hlookup, switched_lookup, Hl.
  simpl. rewrite (bool_decide_eq_true_2 (id ∈ thematic)) by exact Hid.
  destruct (bool_decide (id ∈ layers_of layer)); reflexivity.
Qed.

Lemma shown_absent (id : string) (st : state) :
  shown id st = true -> is_Some (layers st !! id).
Proof.
  unfold shown. destruct (layers st !! id) as [l|]; [eexists; reflexivity|discriminate].
Qed.

(** A handler that leaves the style and the active layer alone keeps them
    in step. *)
Lemma in_sync_same (st st' : state) :
  layers st' = layers st -> activeLayer st' = activeLayer st ->
  in_sync st -> in_sync st'.
Proof. unfold in_sync, shown. intros -> ->. tauto. Qed.

(** Switching the map to the layer that was made active puts them in step. *)
Lemma in_sync_switched (layer : string) (st st' : state) :
  activeLayer st' = layer ->
  (forall id, id ∈ thematic -> layers st' !! id = switched layer (layers st) !! id) ->
  is_Some (layers st' !! "housing-hover") ->
  in_sync st -> in_sync st'.
Proof.
  intros Hactive Hstyle Hhover (Hrent & Hburden & _ & _).
  assert (Hkeep : forall id, id ∈ thematic ->
            is_Some (layers st' !! id) <-> is_Some (layers st !! id)).
  { intros id Hid. rewrite (Hstyle id Hid), switched_lookup, fmap_is_Some. tauto. }
  unfold in_sync. rewrite Hactive.
  split; [apply Hkeep; [unfold thematic; set_solver|exact Hrent]|].
  split; [apply Hkeep; [unfold thematic; set_solver|exact Hburden]|].
  split; [exact Hhover|].
  rewrite (shown_switched layer "rent-fill" st st')
    by first [unfold thematic; set_solver | apply Hstyle; unfold thematic; set_solver | assumption].
  rewrite (shown_switched layer "burden-fill" st st')
    by first [unfold thematic; set_solver | apply Hstyle; unfold thematic; set_solver | assumption].
  split; [|split].
  - apply bool_decide_ext. rewrite layers_of_spec.
    split; [intros [[-> _]|[[_ [=]]|[_ [[=]|[=]]]]]; reflexivity|tauto].
  - apply bool_decide_ext. rewrite layers_of_spec.
    split; [intros [[_ [=]]|[[-> _]|[_ [[=]|[=]]]]]; reflexivity|tauto].
  - intros [Hmha|Hmha].
    + assert (Hsome := shown_absent _ _ Hmha). apply Hkeep in Hsome;
        [|unfold thematic; set_solver].
      rewrite (shown_switched layer "mha-fill" st st') in Hmha
        by first [unfold thematic; set_solver | apply Hstyle; unfold thematic; set_solver
                 | assumption].
      apply bool_decide_eq_true_1, layers_of_spec in Hmha.
      destruct Hmha as [[_ [=]]|[[_ [=]]|[-> _]]]. reflexivity.
    + assert (Hsome := shown_absent _ _ Hmha). apply Hkeep in Hsome;
        [|unfold thematic; set_solver].
      rewrite (shown_switched layer "mha-line" st st') in Hmha
        by first [unfold thematic; set_solver | apply Hstyle; unfold thematic; set_solver
                 | assumption].
      apply bool_decide_eq_true_1, layers_of_spec in Hmha.
      destruct Hmha as [[_ [=]]|[[_ [=]]|[-> _]]]. reflexivity.
Qed.

Section Handlers.
Context `{Runtime}.

Lemma renderLegend_map (layer : string) (st : state) :
  inherited layer = false ->
  exists st',
    renderLegend layer st = (Done tt, st')
    /\ layers st' = layers st /\ activeLayer st' = activeLayer st.
Proof.
  intros Hplain.
  destruct (decide (layer ∈ ["rent"; "burden"; "mha"])) as [Hin|Hout].
  - destruct (renderLegend_own layer st Hin) as (config & _ & Hrun).
    eexists. split; [exact Hrun|]. split; reflexivity.
  - exists st. split; [|split; reflexivity].
    assert (Hne : String.eqb layer "rent" = false /\ String.eqb layer "burden" = false
                  /\ String.eqb layer "mha" = false).
    { rewrite !String.eqb_neq. set_solver. }
    destruct Hne as (Hrent & Hburden & Hmha).
    unfold renderLegend, get_property, LEGEND_CONFIG. cbn [own_property].
    rewrite (String.eqb_sym "rent"), Hrent, (String.eqb_sym "burden"), Hburden,
      (String.eqb_sym "mha"), Hmha, Hplain. reflexivity.
Qed.

Lemma toggle_click_map (layer : string) (st : state) :
  inherited layer = false -> in_sync st -> in_sync (snd (toggle_click layer st)).
Proof.
  intros Hplain Hsync. unfold toggle_click, bind at 1, gets.
  destruct (String.eqb_spec layer (activeLayer st)) as [Heq|Hne]; [exact Hsync|].
  do 3 (erewrite bind_done by reflexivity).
  destruct (renderLegend_map layer
              (set_activeLayer layer
                 (set_active_buttons ([] ++ [layer]) (set_active_buttons [] st)))
              Hplain) as (st1 & Hrun & Hstyle & Hactive).
  erewrite bind_done by exact Hrun. rewrite switchMapLayer_run. cbn [snd].
  apply (in_sync_switched layer st); [| | |exact Hsync].
  - unfold after_switch. fields. exact Hactive.
  - intros id _. unfold after_switch. fields. rewrite Hstyle. reflexivity.
  - unfold after_switch. fields. rewrite Hstyle. fields.
    rewrite switched_other by (unfold thematic; set_solver). apply Hsync.
Qed.

Lemma reset_click_map (st : state) : in_sync st -> in_sync (snd (reset_click st)).
Proof.
  intros Hsync. assert (Hhover := proj1 (proj2 (proj2 Hsync))).
  destruct Hhover as [hover Hhover].
  destruct (renderLegend_own "rent"
              (set_active_buttons ([] ++ ["rent"])
                 (set_active_buttons [] (set_activeLayer "rent" st))))
    as (config & _ & Hlegend); [set_solver|].
  unfold reset_click.
  do 3 (erewrite bind_done by reflexivity).
  erewrite bind_done by exact Hlegend.
  do 3 (erewrite bind_done by reflexivity).
  erewrite bind_done by apply resetCharts_run.
  erewrite bind_done by (apply (resetMap_run _ hover); exact Hhover).
  unfold hideTooltip, modify. cbn [snd].
  apply (in_sync_switched "rent" st); [| | |exact Hsync].
  - reflexivity.
  - intros id Hid. fields.
    rewrite lookup_insert_ne by (intros <-; revert Hid; unfold thematic; set_solver).
    reflexivity.
  - fields. rewrite lookup_insert_eq. eexists. reflexivity.
Qed.

Lemma tract_click_map (features : list tract) (st : state) :
  layers (snd (tract_click features st)) = layers st
  /\ activeLayer (snd (tract_click features st)) = activeLayer st.
Proof.
  destruct features as [|props rest]; [split; reflexivity|].
  assert (Hline : forall name v s,
            layers (snd (updateLineChart name v s)) = layers s
            /\ activeLayer (snd (updateLineChart name v s)) = activeLayer s).
  { intros name v s. destruct (lineChart s) as [c|] eqn:Hchart.
    - destruct (series_of v) as [timeseries|] eqn:Hseries.
      + rewrite (updateLineChart_series name v timeseries s Hseries),
          updateLineChart_records, Hchart.
        destruct (stable_sort by_year (List.filter valid_entry timeseries));
          split; reflexivity.
      + destruct (updateLineChart_raises name v s c Hseries Hchart) as (msg & ->).
        split; reflexivity.
    - rewrite (updateLineChart_no_chart name v s Hchart). split; reflexivity. }
  assert (Hdonut : forall name s,
            layers (snd (updateDonutChart name props s)) = layers s
            /\ activeLayer (snd (updateDonutChart name props s)) = activeLayer s).
  { intros name s. unfold updateDonutChart, bind, gets, setText, modify, ret.
    destruct (donutChart s); split; reflexivity. }
  assert (Hboth : forall name v s,
            layers (snd (bind (updateLineChart name v)
                           (fun _ => updateDonutChart name props) s)) = layers s
            /\ activeLayer (snd (bind (updateLineChart name v)
                                   (fun _ => updateDonutChart name props) s))
               = activeLayer s).
  { intros name v s. unfold bind. pose proof (Hline name v s) as [Hl Ha].
    destruct (updateLineChart name v s) as [[[]|e] s1]; cbn [snd] in *.
    - pose proof (Hdonut name s1) as [Hl1 Ha1]. split; congruence.
    - split; assumption. }
  rewrite tract_click_run. destruct (JSON_parse _) as [v|].
  - apply Hboth.
  - pose proof (Hboth (or_string (NAME props) "Selected Tract") (JArray [])
                  (set_console (console st ++ ["Could not parse RENT_TIMESERIES:"]) st))
      as [Hl Ha].
    split; [rewrite Hl|rewrite Ha]; reflexivity.
Qed.

Lemma updateBarChart_map (data : list bar_datum) (st : state) :
  layers (snd (updateBarChart data st)) = layers st
  /\ activeLayer (snd (updateBarChart data st)) = activeLayer st.
Proof.
  unfold updateBarChart, bind, gets, lift, modify, ret.
  destruct (barChart st), data as [|d data]; try (split; reflexivity).
  destruct (group_rents _ _) as [grouped|e]; [|split; reflexivity].
  destruct (top_neighborhoods grouped); split; reflexivity.
Qed.

Lemma updateFromMap_map (st : state) :
  layers (snd (updateFromMap st)) = layers st
  /\ activeLayer (snd (updateFromMap st)) = activeLayer st.
Proof.
  unfold updateFromMap, bind. rewrite !isLayerVisible_run.
  assert (Hpass : forall layerId,
            layers (snd (bind (queryRenderedFeatures layerId) (fun features =>
                           bind (updateStat (dedupe features ∅)) (fun _ =>
                             updateBarChart (barData (dedupe features ∅)))) st))
            = layers st
            /\ activeLayer (snd (bind (queryRenderedFeatures layerId) (fun features =>
                                   bind (updateStat (dedupe features ∅)) (fun _ =>
                                     updateBarChart (barData (dedupe features ∅)))) st))
               = activeLayer st).
  { intros layerId. unfold queryRenderedFeatures.
    erewrite bind_done by reflexivity.
    destruct (updateStat_done (dedupe (rendered st layerId) ∅) st) as (texts & Hstat).
    erewrite bind_done by exact Hstat.
    apply (updateBarChart_map _ (set_text texts st)). }
  destruct (shown "burden-fill" st), (shown "rent-fill" st); cbv beta iota zeta;
    try apply Hpass.
  destruct (updateStat_done [] st) as (texts & Hstat). rewrite Hstat.
  split; reflexivity.
Qed.

Lemma act_in_sync (a : action) (st : state) :
  plain_toggle a -> in_sync st -> in_sync (snd (act a st)).
Proof.
  intros Hplain Hsync. destruct a as [layer| |features| |viewport]; cbn [act].
  - apply toggle_click_map; assumption.
  - apply reset_click_map; assumption.
  - eapply in_sync_same; [apply tract_click_map..|exact Hsync].
  - eapply in_sync_same; [apply updateFromMap_map..|exact Hsync].
  - exact Hsync.
Qed.

Lemma session_keeps (acts : list action) (st : state) :
  Forall plain_toggle acts -> in_sync st -> in_sync (session acts st).
Proof.
  intros Hplain. revert st.
  induction Hplain as [|a acts Ha _ IH]; intros st Hsync; [exact Hsync|].
  cbn [session]. apply IH, act_in_sync; assumption.
Qed.

Lemma loaded_in_sync (mha_first : bool) (mha : fetched geojson) (housing : geojson)
    (viewport : string -> list tract) :
  in_sync (snd (map_on_load mha_first mha (Fulfilled housing) (initial_state viewport))).
Proof.
  unfold in_sync.
  destruct mha_first, mha as [zones|]; repeat apply conj;
    try (eexists; vm_compute; reflexivity); try (vm_compute; reflexivity);
    intros [Hshown|Hshown]; vm_compute in Hshown; discriminate.
Qed.

(** X19.  Once the tracts are loaded, whatever the user does (clicks on toggle
    buttons whose layer is no member of [Object.prototype], on the reset
    button and on tracts, moves of the map) and however often the pass of
    [updateFromMap] runs in between, the map and the panel stay in step:
    the choropleth that is shown is the one of the active layer, and the
    layer whose features the pass reads is [burden-fill] when the active
    layer is [burden], [rent-fill] when it is [rent], and none otherwise. *)
Theorem session_in_sync (mha_first : bool) (mha : fetched geojson) (housing : geojson)
    (viewport : string -> list tract) (acts : list action) :
  Forall plain_toggle acts ->
  in_sync (session acts
             (snd (map_on_load mha_first mha (Fulfilled housing)
                     (initial_state viewport))))
  /\ visible_layer (session acts
                      (snd (map_on_load mha_first mha (Fulfilled housing)
                              (initial_state viewport))))
     = if String.eqb (activeLayer (session acts
                        (snd (map_on_load mha_first mha (Fulfilled housing)
                                (initial_state viewport))))) "burden"
       then Some "burden-fill"
       else if String.eqb (activeLayer (session acts
                             (snd (map_on_load mha_first mha (Fulfilled housing)
                                     (initial_state viewport))))) "rent"
       then Some "rent-fill"
       else None.
Proof.
  intros Hplain.
  assert (Hsync := session_keeps acts _ Hplain
                     (loaded_in_sync mha_first mha housing viewport)).
  split; [exact Hsync|].
  destruct Hsync as (_ & _ & _ & Hrent & Hburden & _).
  unfold visible_layer. rewrite Hrent, Hburden.
  destruct (String.eqb_spec (activeLayer (session acts
              (snd (map_on_load mha_first mha (Fulfilled housing)
                      (initial_state viewport))))) "burden") as [Hb|Hb].
  { rewrite bool_decide_eq_true_2 by exact Hb. reflexivity. }
  rewrite (bool_decide_eq_false_2 _ Hb).
  destruct (String.eqb_spec (activeLayer (session acts
              (snd (map_on_load mha_first mha (Fulfilled housing)
                      (initial_state viewport))))) "rent") as [Hr|Hr].
  { rewrite bool_decide_eq_true_2 by exact Hr. reflexivity. }
  rewrite (bool_decide_eq_false_2 _ Hr). reflexivity.
Qed.

End Handlers.

Lemma session_in_sync_witness :
  let t := tract_with (Some "53033000100") (Some "Ballard") (Some 2000%Q) in
  let acts := [ Toggle "burden"; Idle; Pan (fun _ => []); Idle; Click [t]; Reset;
                Toggle "mha"; Idle ] in
  let st := session acts
              (snd (map_on_load true (Fulfilled []) (Fulfilled [t])
                      (initial_state (fun _ => [t])))) in
  in_sync st
  /\ visible_layer st
     = if String.eqb (activeLayer st) "burden" then Some "burden-fill"
       else if String.eqb (activeLayer st) "rent" then Some "rent-fill"
       else None.
Proof.
  intros t acts st.
  apply (session_in_sync true (Fulfilled []) [t] (fun _ => [t]) acts).
  repeat constructor.
Defined.

End SessionFacts.
